(** * Argument contracts of the text operations (mindspore/dataset/text/validators.py)

    Every guarded operation of the text API is wrapped by a checker that
    binds the caller's arguments to the declared parameters, runs an ordered
    sequence of predicates over them and either raises or forwards the call
    to the wrapped operation.  This file embeds the checkers as functions on
    a small universe of Python values, in an error monad, and a second time
    as programs over a store of shared objects, and proves the contract
    properties about them. *)

From stdpp Require Import base option list gmap strings pretty.
From Stdlib Require Import ZArith Lia.

Local Open Scope string_scope.
Local Open Scope Z_scope.

(** ** Python values *)

(** A floating-point number: the finite value [m * 2 ^ e], an infinity or
    NaN. *)
Inductive pyfloat : Type :=
  | FFinite (m e : Z)
  | FInf (negative : bool)
  | FNaN.

(** The run-time values the checkers can tell apart. *)
#[warnings="-register-all"]
Inductive pyval : Type :=
  | PNone
  | PBool (b : bool)
  | PInt (z : Z)
  | PStr (s : string)
  | PList (l : list pyval)
  | PTuple (l : list pyval)
  | PDict (d : list (pyval * pyval))
  | PVocab                      (* an instance of cde.Vocab *)
  | PDType (name : string)      (* an instance of typing.Type *)
  | PFunc (name : string)       (* a function object *)
  | PObject (cls : string)      (* an instance of another class, without __call__ *)
  | PFloat (f : pyfloat)        (* a float *)
  | PCallable (what : string).  (* another callable: a class, an instance of a
                                   class with __call__, a partial, a bound method *)

(** The classes named in [isinstance] and [type_check] calls. *)
Inductive pytype : Type :=
  | t_list | t_str | t_bool | t_int | t_NoneType | t_tuple | t_dict
  | t_Vocab | t_Type.

Global Instance pytype_eq_dec : EqDecision pytype.
Proof. solve_decision. Defined.

(** Python's [isinstance]; [bool] is a subclass of [int]. *)
Definition isinstance (v : pyval) (t : pytype) : bool :=
  match v, t with
  | PNone, t_NoneType => true
  | PBool _, t_bool => true
  | PBool _, t_int => true
  | PInt _, t_int => true
  | PStr _, t_str => true
  | PList _, t_list => true
  | PTuple _, t_tuple => true
  | PDict _, t_dict => true
  | PVocab, t_Vocab => true
  | PDType _, t_Type => true
  | _, _ => false
  end.

Definition is_none (v : pyval) : bool :=
  match v with PNone => true | _ => false end.

(** [v is None or isinstance(v, int)]. *)
Definition none_or_int (v : pyval) : bool := is_none v || isinstance v t_int.

(** Python's [callable]. *)
Definition callable (v : pyval) : bool :=
  match v with PFunc _ | PCallable _ => true | _ => false end.

(** The integer an instance of [int] stands for ([True] is 1, [False] 0). *)
Definition as_number (v : pyval) : option Z :=
  match v with
  | PInt z => Some z
  | PBool b => Some (if b then 1 else 0)
  | _ => None
  end.

(** A number as Python compares it with an integer: an integer or a float. *)
Inductive number : Type :=
  | NInt (z : Z)
  | NFloat (f : pyfloat).

Definition as_real (v : pyval) : option number :=
  match v with
  | PFloat f => Some (NFloat f)
  | _ => NInt <$> as_number v
  end.

(** [f < k], [f > k] and [f <= k] for a float [f] and an integer [k]; Python
    compares the two exactly, and every comparison with NaN is false. *)
Definition float_lt_int (f : pyfloat) (k : Z) : bool :=
  match f with
  | FFinite m e => if (0 <=? e)%Z then (m * 2 ^ e <? k)%Z else (m <? k * 2 ^ (- e))%Z
  | FInf negative => negative
  | FNaN => false
  end.

Definition float_gt_int (f : pyfloat) (k : Z) : bool :=
  match f with
  | FFinite m e => if (0 <=? e)%Z then (k <? m * 2 ^ e)%Z else (k * 2 ^ (- e) <? m)%Z
  | FInf negative => negb negative
  | FNaN => false
  end.

Definition float_le_int (f : pyfloat) (k : Z) : bool :=
  match f with
  | FFinite m e => if (0 <=? e)%Z then (m * 2 ^ e <=? k)%Z else (m <=? k * 2 ^ (- e))%Z
  | FInf negative => negative
  | FNaN => false
  end.

Definition num_lt (x : number) (k : Z) : bool :=
  match x with NInt z => (z <? k)%Z | NFloat f => float_lt_int f k end.

Definition num_gt (x : number) (k : Z) : bool :=
  match x with NInt z => (k <? z)%Z | NFloat f => float_gt_int f k end.

Definition num_le (x : number) (k : Z) : bool :=
  match x with NInt z => (z <=? k)%Z | NFloat f => float_le_int f k end.

(** [repr] of a float, as its exact decimal expansion.  Python prints the
    shortest decimal that reads back as the same float, which is the same
    text for a value such as 1.5 and is shorter in general. *)
Definition float_repr (f : pyfloat) : string :=
  match f with
  | FNaN => "nan"
  | FInf negative => if negative then "-inf" else "inf"
  | FFinite m e =>
      if (0 <=? e)%Z then pretty (m * 2 ^ e)%Z ++ ".0"
      else
        let n := (Z.abs m * 5 ^ (- e))%Z in
        let p := (10 ^ (- e))%Z in
        (if (m <? 0)%Z then "-" else "")
          ++ pretty (n / p)%Z ++ "."
          ++ match pretty (p + n mod p)%Z with
             | String _ digits => digits
             | EmptyString => ""
             end
  end.

Definition join (sep : string) (l : list string) : string :=
  String.concat sep l.

(** [repr] of a value (escapes inside string literals are not modelled). *)
Fixpoint py_repr (v : pyval) : string :=
  match v with
  | PNone => "None"
  | PBool b => if b then "True" else "False"
  | PInt z => pretty z
  | PStr s => "'" ++ s ++ "'"
  | PList l => "[" ++ join ", " (List.map py_repr l) ++ "]"
  | PTuple l =>
      match l with
      | [x] => "(" ++ py_repr x ++ ",)"
      | _ => "(" ++ join ", " (List.map py_repr l) ++ ")"
      end
  | PDict d =>
      "{" ++ join ", "
        (List.map (fun kv => py_repr (fst kv) ++ ": " ++ py_repr (snd kv)) d)
      ++ "}"
  | PVocab => "<Vocab object>"
  | PDType name => name
  | PFunc name => "<function " ++ name ++ ">"
  | PObject cls => "<" ++ cls ++ " object>"
  | PFloat f => float_repr f
  | PCallable what => "<" ++ what ++ ">"
  end.

(** [str] of a value, as [format] and [str()] print it. *)
Definition py_str (v : pyval) : string :=
  match v with
  | PStr s => s
  | _ => py_repr v
  end.

(** Whether the text [needle] occurs in the message [msg]. *)
Definition mentions (needle msg : string) : bool :=
  match String.index 0 needle msg with
  | Some _ => true
  | None => false
  end.

(** [str] of a set of words.  Python leaves the iteration order of a set
    unspecified; the elements are listed in the order of [elements]. *)
Definition py_str_set (s : gset string) : string :=
  match elements s with
  | [] => "set()"
  | ws => "{" ++ join ", " (List.map (fun w => py_repr (PStr w)) ws) ++ "}"
  end.

Definition pytype_str (t : pytype) : string :=
  match t with
  | t_list => "<class 'list'>"
  | t_str => "<class 'str'>"
  | t_bool => "<class 'bool'>"
  | t_int => "<class 'int'>"
  | t_NoneType => "<class 'NoneType'>"
  | t_tuple => "<class 'tuple'>"
  | t_dict => "<class 'dict'>"
  | t_Vocab => "<class 'mindspore._c_dataengine.Vocab'>"
  | t_Type => "<class 'mindspore._c_expression.typing.Type'>"
  end.

Definition pytypes_str (ts : list pytype) : string :=
  match ts with
  | [t] => "(" ++ pytype_str t ++ ",)"
  | _ => "(" ++ join ", " (List.map pytype_str ts) ++ ")"
  end.

(** ** Violations and the error monad *)

Inductive exn_kind : Type :=
  | TypeError
  | ValueError
  | ArityViolation.

Record exn : Type := Exn { exn_kind_of : exn_kind; exn_msg : string }.

Inductive result (A : Type) : Type :=
  | Ok (a : A)
  | Raise (e : exn).
Arguments Ok {A} a.
Arguments Raise {A} e.

Global Instance result_ret : MRet result := fun A a => Ok a.
Global Instance result_bind : MBind result := fun A B k m =>
  match m with
  | Ok a => k a
  | Raise e => Raise e
  end.

Definition raise {A} (k : exn_kind) (msg : string) : result A :=
  Raise (Exn k msg).

Definition passes {A} (r : result A) : Prop := ∃ a, r = Ok a.

Definition raises {A} (r : result A) (k : exn_kind) : Prop :=
  ∃ msg, r = Raise (Exn k msg).

(** A statement that raises only under a condition. *)
Definition when (c : bool) (body : result unit) : result unit :=
  if c then body else Ok tt.

(** ** Calls and wrapped operations *)

(** The positional and keyword arguments of one call ([self] left out: no
    checker looks at it). *)
Record call : Type := Call {
  c_args : list pyval;
  c_kwargs : gmap string pyval
}.

(** A declared parameter list: names in order, each with its default. *)
Definition signature : Type := list (string * option pyval).

(** A wrapped operation: its declared parameters and what running it does
    to the rest of the program (the world [W]). *)
Record method_t (W R : Type) : Type := Method {
  m_sig : signature;
  m_run : call → W → result R * W
}.
Arguments Method {W R} m_sig m_run.
Arguments m_sig {W R} m.
Arguments m_run {W R} m c w.

(** ** Helpers of ..core.validator_helpers *)

(** Modelled from the spec: the constant [INT32_MAX] of
    core/validator_helpers.py is not part of the sources; it is the largest
    signed 32-bit integer. *)
Definition INT32_MAX : Z := 2147483647.

(** Modelled from the spec: the upper bound of [check_uint32], the largest
    unsigned 32-bit integer. *)
Definition UINT32_MAX : Z := 4294967295.

(** Modelled from the spec: [parse_user_args] of core/validator_helpers.py is
    not part of the sources.  It resolves the raw positional and keyword
    arguments against the declared parameter list, applies the declared
    default of every omitted optional parameter, and fails with an arity
    violation when a required parameter is missing or an unexpected
    argument is supplied. *)
Fixpoint bind_params (sig : signature) (args : list pyval)
    (kwargs : gmap string pyval) : result (list pyval) :=
  match sig with
  | [] =>
      match args with
      | [] =>
          if bool_decide (dom kwargs = ∅) then Ok []
          else raise ArityViolation "got an unexpected keyword argument"
      | _ :: _ => raise ArityViolation "too many positional arguments"
      end
  | (name, dflt) :: sig' =>
      match args with
      | a :: args' =>
          match kwargs !! name with
          | Some _ => raise ArityViolation ("multiple values for argument '" ++ name ++ "'")
          | None => vs ← bind_params sig' args' kwargs; mret (a :: vs)
          end
      | [] =>
          match kwargs !! name with
          | Some v => vs ← bind_params sig' [] (delete name kwargs); mret (v :: vs)
          | None =>
              match dflt with
              | Some d => vs ← bind_params sig' [] kwargs; mret (d :: vs)
              | None => raise ArityViolation ("missing a required argument: '" ++ name ++ "'")
              end
          end
      end
  end.

Definition parse_user_args (sig : signature) (c : call) : result (list pyval) :=
  bind_params sig (c_args c) (c_kwargs c).

(** Modelled from the spec: [type_check] of core/validator_helpers.py is not
    part of the sources.  It checks run-time type membership in an allowed
    type set and raises a type violation whose message names the parameter
    and the expected types; a boolean is not accepted where an integer is
    asked for. *)
Definition type_check (arg : pyval) (types : list pytype) (arg_name : pyval)
    : result unit :=
  if (bool_decide (t_int ∈ types) && negb (bool_decide (t_bool ∈ types))
        && isinstance arg t_bool)
     || negb (existsb (isinstance arg) types)
  then raise TypeError
         ("Argument " ++ py_str arg_name ++ " with value " ++ py_str arg
            ++ " is not of type " ++ pytypes_str types ++ ".")
  else Ok tt.

(** Modelled from the spec: [type_check_list] of core/validator_helpers.py is
    not part of the sources.  It applies [type_check] to every argument
    under the name at the same position. *)
Fixpoint type_check_list (args : list pyval) (types : list pytype)
    (arg_names : list string) : result unit :=
  match args, arg_names with
  | [], [] => Ok tt
  | arg :: args', name :: names' =>
      type_check arg types (PStr name);; type_check_list args' types names'
  | _, _ =>
      raise ValueError "List of arguments is not the same length as argument_names."
  end.

(** The parameter name as the messages of the range checks print it. *)
Definition pad_arg_name (arg_name : string) : string :=
  if bool_decide (arg_name = "") then "" else arg_name ++ " ".

(** Modelled from the spec: [check_value] of core/validator_helpers.py is not
    part of the sources.  It checks membership in a closed numeric range,
    [value < low or value > high], and raises a value violation naming the
    parameter and the range; the type of the value is not its business. *)
Definition check_value (value : pyval) (valid_range : Z * Z)
    (arg_name : string) : result unit :=
  match as_real value with
  | Some x =>
      if num_lt x (fst valid_range) || num_gt x (snd valid_range)
      then raise ValueError
             ("Input " ++ pad_arg_name arg_name
                ++ "is not within the required interval of ("
                ++ pretty (fst valid_range) ++ " to "
                ++ pretty (snd valid_range) ++ ").")
      else Ok tt
  | None =>
      raise TypeError "'<' not supported between instances of this type and 'int'"
  end.

(** Modelled from the spec: [check_positive] of core/validator_helpers.py is
    not part of the sources.  It raises a value violation unless the value
    is greater than zero. *)
Definition check_positive (value : pyval) (arg_name : string) : result unit :=
  match as_real value with
  | Some x =>
      if num_le x 0
      then raise ValueError
             ("Input " ++ pad_arg_name arg_name ++ "must be greater than 0.")
      else Ok tt
  | None =>
      raise TypeError "'<=' not supported between instances of this type and 'int'"
  end.

(** Modelled from the spec: [check_uint32] of core/validator_helpers.py is not
    part of the sources.  It accepts the non-negative 32-bit integers. *)
Definition check_uint32 (value : pyval) (arg_name : string) : result unit :=
  type_check value [t_int] (PStr arg_name);;
  check_value value (0, UINT32_MAX) "".

(** The failure of a list pattern on a list of another length. *)
Definition unpack_error {A} : result A :=
  raise ValueError "wrong number of values to unpack".

(** ** check_unique_list_of_words (lines 29-39) *)

(** The [for word in words] loop, with the set built so far. *)
Fixpoint unique_words_loop (words : list pyval) (arg_name : string)
    (words_set : gset string) : result (gset string) :=
  match words with
  | [] => Ok words_set
  | word :: rest =>
      type_check word [t_str] (PStr arg_name);;
      match word with
      | PStr w =>
          if bool_decide (w ∈ words_set)
          then raise ValueError (arg_name ++ " contains duplicate word: " ++ w ++ ".")
          else unique_words_loop rest arg_name (words_set ∪ {[w]})
      | _ => raise TypeError "unhashable or not a str"   (* type_check has raised *)
      end
  end.

Definition check_unique_list_of_words (words : pyval) (arg_name : string)
    : result (gset string) :=
  type_check words [t_list] (PStr arg_name);;
  match words with
  | PList l => unique_words_loop l arg_name ∅
  | _ => raise TypeError "object is not iterable"   (* type_check has raised *)
  end.

(** ** The wrappers *)

(** [return method(self, ...)] after the checks: the wrapped operation runs
    on the call the checks hand over, and does not run when they raise. *)
Definition guarded {W R} (method : method_t W R) (checked : result call)
    : W → result R * W :=
  fun w =>
    match checked with
    | Ok c => m_run method c w
    | Raise e => (Raise e, w)
    end.

(** check_from_list (lines 78-98): the statements of [new_method] up to
    the call of [method]. *)
Definition check_from_list_checks (sig : signature) (c : call) : result call :=
  vals ← parse_user_args sig c;
  match vals with
  | [word_list; special_tokens; special_first] =>
      word_set ← check_unique_list_of_words word_list "word_list";
      (if is_none special_tokens then Ok tt
       else
         token_set ← check_unique_list_of_words special_tokens "special_tokens";
         let intersect := word_set ∩ token_set in
         if bool_decide (intersect ≠ ∅)
         then raise ValueError
                ("special_tokens and word_list contain duplicate word :"
                   ++ py_str_set intersect ++ ".")
         else Ok tt);;
      type_check special_first [t_bool] (PStr "special_first");;
      mret c
  | _ => unpack_error
  end.

Definition check_from_list {W R} (method : method_t W R) (c : call)
    : W → result R * W :=
  guarded method (check_from_list_checks (m_sig method) c).

(** check_lookup (lines 42-56). *)
Definition check_lookup_checks (sig : signature) (c : call) : result call :=
  vals ← parse_user_args sig c;
  match vals with
  | [vocab; unknown_token] =>
      (if is_none unknown_token then Ok tt
       else type_check unknown_token [t_str] (PStr "unknown_token"));;
      type_check vocab [t_Vocab] (PStr "vocab is not an instance of cde.Vocab.");;
      mret c
  | _ => unpack_error
  end.

Definition check_lookup {W R} (method : method_t W R) (c : call)
    : W → result R * W :=
  guarded method (check_lookup_checks (m_sig method) c).

(** check_from_file (lines 59-75).  The last [type_check] is given the
    value of [special_first] where the other checkers give the name. *)
Definition check_from_file_checks (sig : signature) (c : call) : result call :=
  vals ← parse_user_args sig c;
  match vals with
  | [file_path; delimiter; vocab_size; special_tokens; special_first] =>
      (if is_none special_tokens then Ok tt
       else check_unique_list_of_words special_tokens "special_tokens";; Ok tt);;
      type_check_list [file_path; delimiter] [t_str] ["file_path"; "delimiter"];;
      (if is_none vocab_size then Ok tt
       else check_value vocab_size (-1, INT32_MAX) "vocab_size");;
      type_check special_first [t_bool] special_first;;
      mret c
  | _ => unpack_error
  end.

Definition check_from_file {W R} (method : method_t W R) (c : call)
    : W → result R * W :=
  guarded method (check_from_file_checks (m_sig method) c).

(** check_from_dict (lines 101-116): the loop over [word_dict.items()]. *)
Fixpoint from_dict_loop (items : list (pyval * pyval)) : result unit :=
  match items with
  | [] => Ok tt
  | (word, word_id) :: rest =>
      type_check word [t_str] (PStr "word");;
      type_check word_id [t_int] (PStr "word_id");;
      check_value word_id (0, INT32_MAX) "word_id";;
      from_dict_loop rest
  end.

Definition check_from_dict_checks (sig : signature) (c : call) : result call :=
  vals ← parse_user_args sig c;
  match vals with
  | [word_dict] =>
      type_check word_dict [t_dict] (PStr "word_dict");;
      match word_dict with
      | PDict items => from_dict_loop items
      | _ => raise TypeError "object has no attribute 'items'"   (* type_check has raised *)
      end;;
      mret c
  | _ => unpack_error
  end.

Definition check_from_dict {W R} (method : method_t W R) (c : call)
    : W → result R * W :=
  guarded method (check_from_dict_checks (m_sig method) c).

(** check_jieba_init (lines 119-138). *)
Definition check_jieba_init_checks (sig : signature) (c : call) : result call :=
  vals ← parse_user_args sig c;
  match vals with
  | [hmm_path; mp_path; _; with_offsets] =>
      when (is_none hmm_path)
        (raise ValueError "The dict of HMMSegment in cppjieba is not provided.");;
      when (negb (isinstance hmm_path t_str))
        (raise TypeError "Wrong input type for hmm_path, should be string.");;
      when (is_none mp_path)
        (raise ValueError "The dict of MPSegment in cppjieba is not provided.");;
      when (negb (isinstance mp_path t_str))
        (raise TypeError "Wrong input type for mp_path, should be string.");;
      when (negb (isinstance with_offsets t_bool))
        (raise TypeError "Wrong input type for with_offsets, should be boolean.");;
      mret c
  | _ => unpack_error
  end.

Definition check_jieba_init {W R} (method : method_t W R) (c : call)
    : W → result R * W :=
  guarded method (check_jieba_init_checks (m_sig method) c).

(** check_jieba_add_word (lines 141-153). *)
Definition check_jieba_add_word_checks (sig : signature) (c : call) : result call :=
  vals ← parse_user_args sig c;
  match vals with
  | [word; freq] =>
      when (is_none word) (raise ValueError "word is not provided.");;
      (if is_none freq then Ok tt else check_uint32 freq "");;
      mret c
  | _ => unpack_error
  end.

Definition check_jieba_add_word {W R} (method : method_t W R) (c : call)
    : W → result R * W :=
  guarded method (check_jieba_add_word_checks (m_sig method) c).

(** check_jieba_add_dict (lines 156-164). *)
Definition check_jieba_add_dict_checks (sig : signature) (c : call) : result call :=
  parse_user_args sig c;;
  mret c.

Definition check_jieba_add_dict {W R} (method : method_t W R) (c : call)
    : W → result R * W :=
  guarded method (check_jieba_add_dict_checks (m_sig method) c).

(** check_with_offsets (lines 167-177). *)
Definition check_with_offsets_checks (sig : signature) (c : call) : result call :=
  vals ← parse_user_args sig c;
  match vals with
  | [with_offsets] =>
      when (negb (isinstance with_offsets t_bool))
        (raise TypeError "Wrong input type for with_offsets, should be boolean.");;
      mret c
  | _ => unpack_error
  end.

Definition check_with_offsets {W R} (method : method_t W R) (c : call)
    : W → result R * W :=
  guarded method (check_with_offsets_checks (m_sig method) c).

(** check_unicode_script_tokenizer (lines 180-192). *)
Definition check_unicode_script_tokenizer_checks (sig : signature) (c : call)
    : result call :=
  vals ← parse_user_args sig c;
  match vals with
  | [keep_whitespace; with_offsets] =>
      when (negb (isinstance keep_whitespace t_bool))
        (raise TypeError "Wrong input type for keep_whitespace, should be boolean.");;
      when (negb (isinstance with_offsets t_bool))
        (raise TypeError "Wrong input type for with_offsets, should be boolean.");;
      mret c
  | _ => unpack_error
  end.

Definition check_unicode_script_tokenizer {W R} (method : method_t W R) (c : call)
    : W → result R * W :=
  guarded method (check_unicode_script_tokenizer_checks (m_sig method) c).

(** check_wordpiece_tokenizer (lines 195-215). *)
Definition check_wordpiece_tokenizer_checks (sig : signature) (c : call)
    : result call :=
  vals ← parse_user_args sig c;
  match vals with
  | [vocab; suffix_indicator; max_bytes_per_token; unknown_token; with_offsets] =>
      when (is_none vocab) (raise ValueError "vocab is not provided.");;
      when (negb (isinstance vocab t_Vocab))
        (raise TypeError "Wrong input type for vocab, should be Vocab object.");;
      when (negb (isinstance suffix_indicator t_str))
        (raise TypeError "Wrong input type for suffix_indicator, should be string.");;
      when (negb (isinstance unknown_token t_str))
        (raise TypeError "Wrong input type for unknown_token, should be string.");;
      when (negb (isinstance with_offsets t_bool))
        (raise TypeError "Wrong input type for with_offsets, should be boolean.");;
      check_uint32 max_bytes_per_token "";;
      mret c
  | _ => unpack_error
  end.

Definition check_wordpiece_tokenizer {W R} (method : method_t W R) (c : call)
    : W → result R * W :=
  guarded method (check_wordpiece_tokenizer_checks (m_sig method) c).

(** check_regex_tokenizer (lines 218-234). *)
Definition check_regex_tokenizer_checks (sig : signature) (c : call) : result call :=
  vals ← parse_user_args sig c;
  match vals with
  | [delim_pattern; keep_delim_pattern; with_offsets] =>
      when (is_none delim_pattern) (raise ValueError "delim_pattern is not provided.");;
      when (negb (isinstance delim_pattern t_str))
        (raise TypeError "Wrong input type for delim_pattern, should be string.");;
      when (negb (isinstance keep_delim_pattern t_str))
        (raise TypeError "Wrong input type for keep_delim_pattern, should be string.");;
      when (negb (isinstance with_offsets t_bool))
        (raise TypeError "Wrong input type for with_offsets, should be boolean.");;
      mret c
  | _ => unpack_error
  end.

Definition check_regex_tokenizer {W R} (method : method_t W R) (c : call)
    : W → result R * W :=
  guarded method (check_regex_tokenizer_checks (m_sig method) c).

(** check_basic_tokenizer (lines 237-254). *)
Definition check_basic_tokenizer_checks (sig : signature) (c : call) : result call :=
  vals ← parse_user_args sig c;
  match vals with
  | [lower_case; keep_whitespace; _; preserve_unused; with_offsets] =>
      when (negb (isinstance lower_case t_bool))
        (raise TypeError "Wrong input type for lower_case, should be boolean.");;
      when (negb (isinstance keep_whitespace t_bool))
        (raise TypeError "Wrong input type for keep_whitespace, should be boolean.");;
      when (negb (isinstance preserve_unused t_bool))
        (raise TypeError "Wrong input type for preserve_unused_token, should be boolean.");;
      when (negb (isinstance with_offsets t_bool))
        (raise TypeError "Wrong input type for with_offsets, should be boolean.");;
      mret c
  | _ => unpack_error
  end.

Definition check_basic_tokenizer {W R} (method : method_t W R) (c : call)
    : W → result R * W :=
  guarded method (check_basic_tokenizer_checks (m_sig method) c).

(** check_bert_tokenizer (lines 257-286). *)
Definition check_bert_tokenizer_checks (sig : signature) (c : call) : result call :=
  vals ← parse_user_args sig c;
  match vals with
  | [vocab; suffix_indicator; max_bytes_per_token; unknown_token; lower_case;
     keep_whitespace; _; preserve_unused_token; with_offsets] =>
      when (is_none vocab) (raise ValueError "vacab is not provided.");;
      when (negb (isinstance vocab t_Vocab))
        (raise TypeError "Wrong input type for vocab, should be Vocab object.");;
      when (negb (isinstance suffix_indicator t_str))
        (raise TypeError "Wrong input type for suffix_indicator, should be string.");;
      when (negb (isinstance max_bytes_per_token t_int))
        (raise TypeError "Wrong input type for max_bytes_per_token, should be int.");;
      check_uint32 max_bytes_per_token "";;
      when (negb (isinstance unknown_token t_str))
        (raise TypeError "Wrong input type for unknown_token, should be string.");;
      when (negb (isinstance lower_case t_bool))
        (raise TypeError "Wrong input type for lower_case, should be boolean.");;
      when (negb (isinstance keep_whitespace t_bool))
        (raise TypeError "Wrong input type for keep_whitespace, should be boolean.");;
      when (negb (isinstance preserve_unused_token t_bool))
        (raise TypeError "Wrong input type for preserve_unused_token, should be boolean.");;
      when (negb (isinstance with_offsets t_bool))
        (raise TypeError "Wrong input type for with_offsets, should be boolean.");;
      mret c
  | _ => unpack_error
  end.

Definition check_bert_tokenizer {W R} (method : method_t W R) (c : call)
    : W → result R * W :=
  guarded method (check_bert_tokenizer_checks (m_sig method) c).

(** check_from_dataset (lines 289-329), the [columns] block (lines 297-301):
    the value the local name [columns] is bound to afterwards.  The
    [type_check_list] call stands inside the branch of the scalar. *)
Definition from_dataset_columns (columns : pyval) : result pyval :=
  if is_none columns then Ok columns
  else if negb (isinstance columns t_list) then
    let columns := [columns] in
    let col_names :=
      List.map (fun i : nat => "col_" ++ pretty i) (seq 0 (length columns)) in
    type_check_list columns [t_str] col_names;;
    Ok (PList columns)
  else Ok columns.

(** The [for num in freq_range] loop (lines 309-312). *)
Fixpoint freq_range_loop (items : list pyval) : result unit :=
  match items with
  | [] => Ok tt
  | num :: rest =>
      when (negb (is_none num) && negb (isinstance num t_int))
        (raise ValueError
           "freq_range needs to be either None or a tuple of 2 integers or an int and a None.");;
      freq_range_loop rest
  end.

(** The [freq_range] block (lines 303-316). *)
Definition from_dataset_freq_range (freq_range : pyval) : result unit :=
  if is_none freq_range then Ok tt
  else
    type_check freq_range [t_tuple] (PStr "freq_range");;
    match freq_range with
    | PTuple items =>
        when (negb (length items =? 2)%nat)
          (raise ValueError
             "freq_range needs to be a tuple of 2 integers or an int and a None.");;
        freq_range_loop items;;
        match items with
        | [lo; hi] =>
            if isinstance lo t_int && isinstance hi t_int then
              match as_number lo, as_number hi with
              | Some a, Some b =>
                  when ((b <? a)%Z || (a <? 0)%Z)
                    (raise ValueError
                       "frequency range [a,b] should be 0 <= a <= b (a,b are inclusive).")
              | _, _ => raise TypeError "'>' not supported"   (* both are int *)
              end
            else Ok tt
        | _ => raise ValueError "tuple index out of range"   (* the length is 2 *)
        end
    | _ => raise TypeError "object has no len()"   (* type_check has raised *)
    end.

(** The remaining checks (lines 318-325). *)
Definition from_dataset_rest (top_k special_tokens special_first : pyval)
    : result unit :=
  type_check top_k [t_int; t_NoneType] (PStr "top_k");;
  (if isinstance top_k t_int then check_positive top_k "top_k" else Ok tt);;
  type_check special_first [t_bool] (PStr "special_first");;
  (if is_none special_tokens then Ok tt
   else check_unique_list_of_words special_tokens "special_tokens";; Ok tt).

(** The call is forwarded with the caller's own arguments: the rebinding of
    [columns] is local to the checker. *)
Definition check_from_dataset_checks (sig : signature) (c : call) : result call :=
  vals ← parse_user_args sig c;
  match vals with
  | [_; columns; freq_range; top_k; special_tokens; special_first] =>
      columns ← from_dataset_columns columns;
      from_dataset_freq_range freq_range;;
      from_dataset_rest top_k special_tokens special_first;;
      mret c
  | _ => unpack_error
  end.

Definition check_from_dataset {W R} (method : method_t W R) (c : call)
    : W → result R * W :=
  guarded method (check_from_dataset_checks (m_sig method) c).

(** check_ngram (lines 332-369): the [for i, gram in enumerate(n)] loop. *)
Fixpoint ngram_loop (i : nat) (grams : list pyval) : result unit :=
  match grams with
  | [] => Ok tt
  | gram :: rest =>
      type_check gram [t_int] (PStr ("gram[" ++ pretty i ++ "]"));;
      check_positive gram ("gram_" ++ pretty i);;
      ngram_loop (S i) rest
  end.

(** [isinstance(pad, tuple) and len(pad) == 2 and isinstance(pad[0], str)
    and isinstance(pad[1], int)]. *)
Definition is_pad (pad : pyval) : bool :=
  match pad with
  | PTuple [token; width] => isinstance token t_str && isinstance width t_int
  | _ => false
  end.

(** [pad[1] >= 0] for a value that satisfies [is_pad]. *)
Definition pad_width_ok (pad : pyval) : bool :=
  match pad with
  | PTuple [_; width] =>
      match as_number width with
      | Some z => (0 <=? z)%Z
      | None => false
      end
  | _ => false
  end.

(** The keyword arguments after the four assignments of lines 362-365. *)
Definition ngram_kwargs (kwargs : gmap string pyval)
    (n left_pad right_pad separator : pyval) : gmap string pyval :=
  <["separator" := separator]>
    (<["right_pad" := right_pad]>
       (<["left_pad" := left_pad]>
          (<["n" := n]> kwargs))).

(** The wrapped operation is called with keyword arguments only. *)
Definition check_ngram_checks (sig : signature) (c : call) : result call :=
  vals ← parse_user_args sig c;
  match vals with
  | [n; left_pad; right_pad; separator] =>
      let n := if isinstance n t_int then PList [n] else n in
      match n with
      | PList ((_ :: _) as grams) => ngram_loop 0 grams
      | _ => raise ValueError "n needs to be a non-empty list of positive integers."
      end;;
      when (negb (is_pad left_pad))
        (raise ValueError
           "left_pad needs to be a tuple of (str, int) str is pad token and int is pad_width.");;
      when (negb (is_pad right_pad))
        (raise ValueError
           "right_pad needs to be a tuple of (str, int) str is pad token and int is pad_width.");;
      when (negb (pad_width_ok left_pad && pad_width_ok right_pad))
        (raise ValueError "padding width need to be positive numbers.");;
      type_check separator [t_str] (PStr "separator");;
      mret (Call [] (ngram_kwargs (c_kwargs c) n left_pad right_pad separator))
  | _ => unpack_error
  end.

Definition check_ngram {W R} (method : method_t W R) (c : call)
    : W → result R * W :=
  guarded method (check_ngram_checks (m_sig method) c).

(** check_pair_truncate (lines 372-380). *)
Definition check_pair_truncate_checks (sig : signature) (c : call) : result call :=
  parse_user_args sig c;;
  mret c.

Definition check_pair_truncate {W R} (method : method_t W R) (c : call)
    : W → result R * W :=
  guarded method (check_pair_truncate_checks (m_sig method) c).

(** One entry per checker of the module: its name, its checks and the
    wrapper it returns. *)
Record guard_entry (W R : Type) : Type := GuardEntry {
  g_name : string;
  g_checks : signature → call → result call;
  g_wrapper : method_t W R → call → W → result R * W
}.
Arguments GuardEntry {W R} g_name g_checks g_wrapper.
Arguments g_name {W R} g.
Arguments g_checks {W R} g sig c.
Arguments g_wrapper {W R} g method c w.

Section Catalog.

(** The names of the members of [mstype.number_type], a table of
    mindspore/common/dtype.py. *)
Variable number_type : list string.

(** check_to_number (lines 383-396). *)
Definition check_to_number_checks (sig : signature) (c : call) : result call :=
  vals ← parse_user_args sig c;
  match vals with
  | [data_type] =>
      type_check data_type [t_Type] (PStr "data_type");;
      match data_type with
      | PDType name =>
          when (negb (bool_decide (name ∈ number_type)))
            (raise TypeError "data_type is not numeric data type.")
      | _ => raise TypeError "data_type is not numeric data type."
      end;;
      mret c
  | _ => unpack_error
  end.

Definition check_to_number {W R} (method : method_t W R) (c : call)
    : W → result R * W :=
  guarded method (check_to_number_checks (m_sig method) c).

(** check_python_tokenizer (lines 399-411). *)
Definition check_python_tokenizer_checks (sig : signature) (c : call)
    : result call :=
  vals ← parse_user_args sig c;
  match vals with
  | [tokenizer] =>
      when (negb (callable tokenizer))
        (raise TypeError "tokenizer is not a callable python function");;
      mret c
  | _ => unpack_error
  end.

Definition check_python_tokenizer {W R} (method : method_t W R) (c : call)
    : W → result R * W :=
  guarded method (check_python_tokenizer_checks (m_sig method) c).

(** Every checker of the module. *)
Definition all_guards (W R : Type) : list (guard_entry W R) :=
  [ GuardEntry "check_lookup" check_lookup_checks check_lookup;
    GuardEntry "check_from_file" check_from_file_checks check_from_file;
    GuardEntry "check_from_list" check_from_list_checks check_from_list;
    GuardEntry "check_from_dict" check_from_dict_checks check_from_dict;
    GuardEntry "check_jieba_init" check_jieba_init_checks check_jieba_init;
    GuardEntry "check_jieba_add_word" check_jieba_add_word_checks check_jieba_add_word;
    GuardEntry "check_jieba_add_dict" check_jieba_add_dict_checks check_jieba_add_dict;
    GuardEntry "check_with_offsets" check_with_offsets_checks check_with_offsets;
    GuardEntry "check_unicode_script_tokenizer" check_unicode_script_tokenizer_checks check_unicode_script_tokenizer;
    GuardEntry "check_wordpiece_tokenizer" check_wordpiece_tokenizer_checks check_wordpiece_tokenizer;
    GuardEntry "check_regex_tokenizer" check_regex_tokenizer_checks check_regex_tokenizer;
    GuardEntry "check_basic_tokenizer" check_basic_tokenizer_checks check_basic_tokenizer;
    GuardEntry "check_bert_tokenizer" check_bert_tokenizer_checks check_bert_tokenizer;
    GuardEntry "check_from_dataset" check_from_dataset_checks check_from_dataset;
    GuardEntry "check_ngram" check_ngram_checks check_ngram;
    GuardEntry "check_pair_truncate" check_pair_truncate_checks check_pair_truncate;
    GuardEntry "check_to_number" check_to_number_checks check_to_number;
    GuardEntry "check_python_tokenizer" check_python_tokenizer_checks check_python_tokenizer ].

End Catalog.

(** ** The ordered predicates of each checker

    The contract layer is an ordered sequence of predicates that stops at
    the first failure.  For each checker, the predicates it applies to the
    bound arguments, in the order of the source: one entry per [type_check],
    [check_value], [check_positive] call and per [raise] statement, each
    evaluated on its own. *)

(** The outcome of an ordered sequence of predicates: the first failure. *)
Fixpoint first_failure (ps : list (result unit)) : result unit :=
  match ps with
  | [] => Ok tt
  | p :: rest => p;; first_failure rest
  end.

(** The words of a list, as the set check_unique_list_of_words builds. *)
Definition word_set_of (words : pyval) : gset string :=
  match words with
  | PList l => list_to_set (omap (λ v, match v with PStr w => Some w | _ => None end) l)
  | _ => ∅
  end.

(** Lines 35-37, per word: the type of the word, then whether it repeats a
    word seen before. *)
Fixpoint unique_words_loop_predicates (words : list pyval) (arg_name : string)
    (seen : gset string) : list (result unit) :=
  match words with
  | [] => []
  | word :: rest =>
      type_check word [t_str] (PStr arg_name)
      :: match word with
         | PStr w =>
             (if bool_decide (w ∈ seen)
              then raise ValueError (arg_name ++ " contains duplicate word: " ++ w ++ ".")
              else Ok tt)
             :: unique_words_loop_predicates rest arg_name (seen ∪ {[w]})
         | _ => unique_words_loop_predicates rest arg_name seen
         end
  end.

Definition unique_words_predicates (words : pyval) (arg_name : string)
    : list (result unit) :=
  type_check words [t_list] (PStr arg_name)
  :: match words with
     | PList l => unique_words_loop_predicates l arg_name ∅
     | _ => []
     end.

Definition check_lookup_predicates (vals : list pyval) : list (result unit) :=
  match vals with
  | [vocab; unknown_token] =>
      [ if is_none unknown_token then Ok tt
        else type_check unknown_token [t_str] (PStr "unknown_token");
        type_check vocab [t_Vocab] (PStr "vocab is not an instance of cde.Vocab.") ]
  | _ => [unpack_error]
  end.

Definition check_from_file_predicates (vals : list pyval) : list (result unit) :=
  match vals with
  | [file_path; delimiter; vocab_size; special_tokens; special_first] =>
      (if is_none special_tokens then []
       else unique_words_predicates special_tokens "special_tokens")
      ++ [ type_check file_path [t_str] (PStr "file_path");
           type_check delimiter [t_str] (PStr "delimiter");
           if is_none vocab_size then Ok tt
           else check_value vocab_size (-1, INT32_MAX) "vocab_size";
           type_check special_first [t_bool] special_first ]
  | _ => [unpack_error]
  end.

Definition check_from_list_predicates (vals : list pyval) : list (result unit) :=
  match vals with
  | [word_list; special_tokens; special_first] =>
      unique_words_predicates word_list "word_list"
      ++ (if is_none special_tokens then []
          else
            unique_words_predicates special_tokens "special_tokens"
            ++ [ let intersect := word_set_of word_list ∩ word_set_of special_tokens in
                 if bool_decide (intersect ≠ ∅)
                 then raise ValueError
                        ("special_tokens and word_list contain duplicate word :"
                           ++ py_str_set intersect ++ ".")
                 else Ok tt ])
      ++ [ type_check special_first [t_bool] (PStr "special_first") ]
  | _ => [unpack_error]
  end.

Fixpoint from_dict_loop_predicates (items : list (pyval * pyval)) : list (result unit) :=
  match items with
  | [] => []
  | (word, word_id) :: rest =>
      type_check word [t_str] (PStr "word")
      :: type_check word_id [t_int] (PStr "word_id")
      :: check_value word_id (0, INT32_MAX) "word_id"
      :: from_dict_loop_predicates rest
  end.

Definition check_from_dict_predicates (vals : list pyval) : list (result unit) :=
  match vals with
  | [word_dict] =>
      type_check word_dict [t_dict] (PStr "word_dict")
      :: match word_dict with
         | PDict items => from_dict_loop_predicates items
         | _ => []
         end
  | _ => [unpack_error]
  end.

Definition check_jieba_init_predicates (vals : list pyval) : list (result unit) :=
  match vals with
  | [hmm_path; mp_path; _; with_offsets] =>
      [ when (is_none hmm_path)
          (raise ValueError "The dict of HMMSegment in cppjieba is not provided.");
        when (negb (isinstance hmm_path t_str))
          (raise TypeError "Wrong input type for hmm_path, should be string.");
        when (is_none mp_path)
          (raise ValueError "The dict of MPSegment in cppjieba is not provided.");
        when (negb (isinstance mp_path t_str))
          (raise TypeError "Wrong input type for mp_path, should be string.");
        when (negb (isinstance with_offsets t_bool))
          (raise TypeError "Wrong input type for with_offsets, should be boolean.") ]
  | _ => [unpack_error]
  end.

(** [check_uint32] is two predicates: the type, then the range. *)
Definition check_uint32_predicates (value : pyval) (arg_name : string)
    : list (result unit) :=
  [ type_check value [t_int] (PStr arg_name); check_value value (0, UINT32_MAX) "" ].

Definition check_jieba_add_word_predicates (vals : list pyval) : list (result unit) :=
  match vals with
  | [word; freq] =>
      when (is_none word) (raise ValueError "word is not provided.")
      :: (if is_none freq then [] else check_uint32_predicates freq "")
  | _ => [unpack_error]
  end.

(** check_jieba_add_dict and check_pair_truncate bind the arguments and
    apply no predicate. *)
Definition no_predicates (vals : list pyval) : list (result unit) := [].

Definition check_with_offsets_predicates (vals : list pyval) : list (result unit) :=
  match vals with
  | [with_offsets] =>
      [ when (negb (isinstance with_offsets t_bool))
          (raise TypeError "Wrong input type for with_offsets, should be boolean.") ]
  | _ => [unpack_error]
  end.

Definition check_unicode_script_tokenizer_predicates (vals : list pyval)
    : list (result unit) :=
  match vals with
  | [keep_whitespace; with_offsets] =>
      [ when (negb (isinstance keep_whitespace t_bool))
          (raise TypeError "Wrong input type for keep_whitespace, should be boolean.");
        when (negb (isinstance with_offsets t_bool))
          (raise TypeError "Wrong input type for with_offsets, should be boolean.") ]
  | _ => [unpack_error]
  end.

Definition check_wordpiece_tokenizer_predicates (vals : list pyval)
    : list (result unit) :=
  match vals with
  | [vocab; suffix_indicator; max_bytes_per_token; unknown_token; with_offsets] =>
      [ when (is_none vocab) (raise ValueError "vocab is not provided.");
        when (negb (isinstance vocab t_Vocab))
          (raise TypeError "Wrong input type for vocab, should be Vocab object.");
        when (negb (isinstance suffix_indicator t_str))
          (raise TypeError "Wrong input type for suffix_indicator, should be string.");
        when (negb (isinstance unknown_token t_str))
          (raise TypeError "Wrong input type for unknown_token, should be string.");
        when (negb (isinstance with_offsets t_bool))
          (raise TypeError "Wrong input type for with_offsets, should be boolean.") ]
      ++ check_uint32_predicates max_bytes_per_token ""
  | _ => [unpack_error]
  end.

Definition check_regex_tokenizer_predicates (vals : list pyval) : list (result unit) :=
  match vals with
  | [delim_pattern; keep_delim_pattern; with_offsets] =>
      [ when (is_none delim_pattern) (raise ValueError "delim_pattern is not provided.");
        when (negb (isinstance delim_pattern t_str))
          (raise TypeError "Wrong input type for delim_pattern, should be string.");
        when (negb (isinstance keep_delim_pattern t_str))
          (raise TypeError "Wrong input type for keep_delim_pattern, should be string.");
        when (negb (isinstance with_offsets t_bool))
          (raise TypeError "Wrong input type for with_offsets, should be boolean.") ]
  | _ => [unpack_error]
  end.

Definition check_basic_tokenizer_predicates (vals : list pyval) : list (result unit) :=
  match vals with
  | [lower_case; keep_whitespace; _; preserve_unused; with_offsets] =>
      [ when (negb (isinstance lower_case t_bool))
          (raise TypeError "Wrong input type for lower_case, should be boolean.");
        when (negb (isinstance keep_whitespace t_bool))
          (raise TypeError "Wrong input type for keep_whitespace, should be boolean.");
        when (negb (isinstance preserve_unused t_bool))
          (raise TypeError "Wrong input type for preserve_unused_token, should be boolean.");
        when (negb (isinstance with_offsets t_bool))
          (raise TypeError "Wrong input type for with_offsets, should be boolean.") ]
  | _ => [unpack_error]
  end.

Definition check_bert_tokenizer_predicates (vals : list pyval) : list (result unit) :=
  match vals with
  | [vocab; suffix_indicator; max_bytes_per_token; unknown_token; lower_case;
     keep_whitespace; _; preserve_unused_token; with_offsets] =>
      [ when (is_none vocab) (raise ValueError "vacab is not provided.");
        when (negb (isinstance vocab t_Vocab))
          (raise TypeError "Wrong input type for vocab, should be Vocab object.");
        when (negb (isinstance suffix_indicator t_str))
          (raise TypeError "Wrong input type for suffix_indicator, should be string.");
        when (negb (isinstance max_bytes_per_token t_int))
          (raise TypeError "Wrong input type for max_bytes_per_token, should be int.") ]
      ++ check_uint32_predicates max_bytes_per_token ""
      ++ [ when (negb (isinstance unknown_token t_str))
             (raise TypeError "Wrong input type for unknown_token, should be string.");
           when (negb (isinstance lower_case t_bool))
             (raise TypeError "Wrong input type for lower_case, should be boolean.");
           when (negb (isinstance keep_whitespace t_bool))
             (raise TypeError "Wrong input type for keep_whitespace, should be boolean.");
           when (negb (isinstance preserve_unused_token t_bool))
             (raise TypeError
                "Wrong input type for preserve_unused_token, should be boolean.");
           when (negb (isinstance with_offsets t_bool))
             (raise TypeError "Wrong input type for with_offsets, should be boolean.") ]
  | _ => [unpack_error]
  end.

(** Lines 297-301: only a scalar column is checked. *)
Definition from_dataset_columns_predicates (columns : pyval) : list (result unit) :=
  if is_none columns then []
  else if negb (isinstance columns t_list)
  then [ type_check columns [t_str] (PStr "col_0") ]
  else [].

(** Lines 303-316: the type, the length, each element, then the order. *)
Definition from_dataset_freq_range_predicates (freq_range : pyval)
    : list (result unit) :=
  if is_none freq_range then []
  else
    type_check freq_range [t_tuple] (PStr "freq_range")
    :: match freq_range with
       | PTuple items =>
           when (negb (length items =? 2)%nat)
             (raise ValueError
                "freq_range needs to be a tuple of 2 integers or an int and a None.")
           :: List.map
                (λ num,
                   when (negb (is_none num) && negb (isinstance num t_int))
                     (raise ValueError
                        "freq_range needs to be either None or a tuple of 2 integers or an int and a None."))
                items
           ++ [ match items with
                | [lo; hi] =>
                    if isinstance lo t_int && isinstance hi t_int then
                      match as_number lo, as_number hi with
                      | Some a, Some b =>
                          when ((b <? a)%Z || (a <? 0)%Z)
                            (raise ValueError
                               "frequency range [a,b] should be 0 <= a <= b (a,b are inclusive).")
                      | _, _ => raise TypeError "'>' not supported"
                      end
                    else Ok tt
                | _ => raise ValueError "tuple index out of range"
                end ]
       | _ => []
       end.

(** Lines 318-325. *)
Definition from_dataset_rest_predicates (top_k special_tokens special_first : pyval)
    : list (result unit) :=
  [ type_check top_k [t_int; t_NoneType] (PStr "top_k");
    if isinstance top_k t_int then check_positive top_k "top_k" else Ok tt;
    type_check special_first [t_bool] (PStr "special_first") ]
  ++ (if is_none special_tokens then []
      else unique_words_predicates special_tokens "special_tokens").

Definition check_from_dataset_predicates (vals : list pyval) : list (result unit) :=
  match vals with
  | [_; columns; freq_range; top_k; special_tokens; special_first] =>
      from_dataset_columns_predicates columns
      ++ from_dataset_freq_range_predicates freq_range
      ++ from_dataset_rest_predicates top_k special_tokens special_first
  | _ => [unpack_error]
  end.

(** Lines 345-347, per gram: the type, then the sign. *)
Fixpoint ngram_loop_predicates (i : nat) (grams : list pyval) : list (result unit) :=
  match grams with
  | [] => []
  | gram :: rest =>
      type_check gram [t_int] (PStr ("gram[" ++ pretty i ++ "]"))
      :: check_positive gram ("gram_" ++ pretty i)
      :: ngram_loop_predicates (S i) rest
  end.

(** The value of [n] after line 340. *)
Definition ngram_n (n : pyval) : pyval :=
  if isinstance n t_int then PList [n] else n.

(** Line 342 is the first predicate, then the grams, the pads and the
    separator. *)
Definition check_ngram_predicates (vals : list pyval) : list (result unit) :=
  match vals with
  | [n; left_pad; right_pad; separator] =>
      match ngram_n n with
      | PList ((_ :: _) as grams) => Ok tt :: ngram_loop_predicates 0 grams
      | _ => [ raise ValueError "n needs to be a non-empty list of positive integers." ]
      end
      ++ [ when (negb (is_pad left_pad))
             (raise ValueError
                "left_pad needs to be a tuple of (str, int) str is pad token and int is pad_width.");
           when (negb (is_pad right_pad))
             (raise ValueError
                "right_pad needs to be a tuple of (str, int) str is pad token and int is pad_width.");
           when (negb (pad_width_ok left_pad && pad_width_ok right_pad))
             (raise ValueError "padding width need to be positive numbers.");
           type_check separator [t_str] (PStr "separator") ]
  | _ => [unpack_error]
  end.

Definition check_to_number_predicates (number_type : list string) (vals : list pyval)
    : list (result unit) :=
  match vals with
  | [data_type] =>
      [ type_check data_type [t_Type] (PStr "data_type");
        match data_type with
        | PDType name =>
            when (negb (bool_decide (name ∈ number_type)))
              (raise TypeError "data_type is not numeric data type.")
        | _ => raise TypeError "data_type is not numeric data type."
        end ]
  | _ => [unpack_error]
  end.

Definition check_python_tokenizer_predicates (vals : list pyval) : list (result unit) :=
  match vals with
  | [tokenizer] =>
      [ when (negb (callable tokenizer))
          (raise TypeError "tokenizer is not a callable python function") ]
  | _ => [unpack_error]
  end.

(** The call handed to the wrapped operation when every predicate passes:
    the caller's own, but for check_ngram. *)
Definition same_call (c : call) (vals : list pyval) : call := c.

Definition check_ngram_handed (c : call) (vals : list pyval) : call :=
  match vals with
  | [n; left_pad; right_pad; separator] =>
      Call [] (ngram_kwargs (c_kwargs c) (ngram_n n) left_pad right_pad separator)
  | _ => c
  end.

(** One entry per checker: its checks, its ordered predicates and the call
    it hands over. *)
Record predicate_entry : Type := PredicateEntry {
  p_name : string;
  p_checks : signature → call → result call;
  p_predicates : list pyval → list (result unit);
  p_handed : call → list pyval → call
}.

Definition all_predicates (number_type : list string) : list predicate_entry :=
  [ PredicateEntry "check_lookup" check_lookup_checks check_lookup_predicates same_call;
    PredicateEntry "check_from_file" check_from_file_checks check_from_file_predicates
      same_call;
    PredicateEntry "check_from_list" check_from_list_checks check_from_list_predicates
      same_call;
    PredicateEntry "check_from_dict" check_from_dict_checks check_from_dict_predicates
      same_call;
    PredicateEntry "check_jieba_init" check_jieba_init_checks check_jieba_init_predicates
      same_call;
    PredicateEntry "check_jieba_add_word" check_jieba_add_word_checks
      check_jieba_add_word_predicates same_call;
    PredicateEntry "check_jieba_add_dict" check_jieba_add_dict_checks no_predicates
      same_call;
    PredicateEntry "check_with_offsets" check_with_offsets_checks
      check_with_offsets_predicates same_call;
    PredicateEntry "check_unicode_script_tokenizer" check_unicode_script_tokenizer_checks
      check_unicode_script_tokenizer_predicates same_call;
    PredicateEntry "check_wordpiece_tokenizer" check_wordpiece_tokenizer_checks
      check_wordpiece_tokenizer_predicates same_call;
    PredicateEntry "check_regex_tokenizer" check_regex_tokenizer_checks
      check_regex_tokenizer_predicates same_call;
    PredicateEntry "check_basic_tokenizer" check_basic_tokenizer_checks
      check_basic_tokenizer_predicates same_call;
    PredicateEntry "check_bert_tokenizer" check_bert_tokenizer_checks
      check_bert_tokenizer_predicates same_call;
    PredicateEntry "check_from_dataset" check_from_dataset_checks
      check_from_dataset_predicates same_call;
    PredicateEntry "check_ngram" check_ngram_checks check_ngram_predicates
      check_ngram_handed;
    PredicateEntry "check_pair_truncate" check_pair_truncate_checks no_predicates
      same_call;
    PredicateEntry "check_to_number" (check_to_number_checks number_type)
      (check_to_number_predicates number_type) same_call;
    PredicateEntry "check_python_tokenizer" check_python_tokenizer_checks
      check_python_tokenizer_predicates same_call ].

(** The checks of a checker as the first failure of its predicates after
    the binding of the arguments. *)
Definition refines (p : predicate_entry) : Prop :=
  ∀ sig c,
    p_checks p sig c
    = (vals ← parse_user_args sig c;
       first_failure (p_predicates p vals);; mret (p_handed p c vals)).

(** ** The checkers over a store of shared objects

    A list or a dict that a caller passes is an object the caller goes on
    holding, and [new_method] of check_ngram assigns to the entries of the
    dictionary [kwargs].  To state that a checker keeps nothing from one
    call to the next and changes no object of its caller, the checkers are
    embedded a second time, as programs over a store of objects: a list or
    a dict argument is a reference into the store, every look at an argument
    reads the store, [[n]] and [[columns]] allocate a new list, the
    dictionary [kwargs] is allocated when [new_method] is entered, and the
    assignments [kwargs[...] = ...] write to it.  Objects that no name is
    bound to (the list literal handed to [type_check_list], the text of a
    message) are not allocated, and the set that check_unique_list_of_words
    builds stays local to it. *)

Abbreviation loc := positive (only parsing).

(** An argument as the caller passes it: an immutable value in place, a
    list or a dict by reference. *)
Inductive sval : Type :=
  | SVal (v : pyval)
  | SRef (l : loc).

(** The objects of the store.  The elements of a list and of a dict are held
    as values: no checker writes below the first level of an argument.  The
    dictionary of keyword arguments holds the caller's own values and
    references. *)
Inductive object : Type :=
  | OList (items : list pyval)
  | ODict (items : list (pyval * pyval))
  | OKwargs (kw : gmap string sval).

Abbreviation store := (gmap positive object) (only parsing).

(** The value an argument stands for in a store.  A reference that an
    argument holds points to a list or a dict of the store (see [wf_val]);
    [None] stands for the other cases, which no call reaches. *)
Definition load (σ : store) (v : sval) : pyval :=
  match v with
  | SVal p => p
  | SRef l =>
      match σ !! l with
      | Some (OList items) => PList items
      | Some (ODict items) => PDict items
      | _ => PNone
      end
  end.

(** One call and one declared parameter list, over the store. *)
Record scall : Type := SCall {
  s_args : list sval;
  s_kwargs : gmap string sval
}.

Definition ssignature : Type := list (string * option sval).

Definition load_call (σ : store) (c : scall) : call :=
  Call (load σ <$> s_args c) (load σ <$> s_kwargs c).

Definition load_sig (σ : store) (sig : ssignature) : signature :=
  (λ p : string * option sval, (p.1, load σ <$> p.2)) <$> sig.

Definition load_result (σ : store) (r : result scall) : result call :=
  match r with
  | Ok c => Ok (load_call σ c)
  | Raise e => Raise e
  end.

(** The objects a caller can hold: the lists and the dicts. *)
Definition holds_data (o : object) : Prop :=
  match o with
  | OList _ | ODict _ => True
  | OKwargs _ => False
  end.

(** Every reference of a value, of a call and of the defaults is a list or a
    dict of the store. *)
Definition wf_val (σ : store) (v : sval) : Prop :=
  match v with
  | SVal _ => True
  | SRef l => ∃ o, σ !! l = Some o ∧ holds_data o
  end.

Definition wf_call (σ : store) (sig : ssignature) (c : scall) : Prop :=
  Forall (wf_val σ) (s_args c)
  ∧ map_Forall (λ _, wf_val σ) (s_kwargs c)
  ∧ Forall (λ p : string * option sval, from_option (wf_val σ) True p.2) sig.

(** A program: it reads and writes the store, and returns or raises.  What
    it wrote before it raised stays written. *)
Record prog (A : Type) : Type := Prog { run : store → result A * store }.
Arguments Prog {A} run.
Arguments run {A} p σ.

Global Instance prog_ret : MRet prog := λ A a, Prog (λ σ, (Ok a, σ)).
Global Instance prog_bind : MBind prog := λ A B k m,
  Prog (λ σ,
    match run m σ with
    | (Ok a, σ') => run (k a) σ'
    | (Raise e, σ') => (Raise e, σ')
    end).

(** A look at the store that changes nothing. *)
Definition query {A} (f : store → result A) : prog A := Prog (λ σ, (f σ, σ)).

Definition lift {A} (r : result A) : prog A := query (λ _, r).

(** [[x]]: a new list object. *)
Definition new_list (items : list sval) : prog sval :=
  Prog (λ σ, let l := fresh (dom σ) in (Ok (SRef l), <[l := OList (load σ <$> items)]> σ)).

(** The dictionary [kwargs] that Python builds when [new_method] is entered. *)
Definition new_kwargs (kw : gmap string sval) : prog loc :=
  Prog (λ σ, let l := fresh (dom σ) in (Ok l, <[l := OKwargs kw]> σ)).

(** [kwargs[key] = v]. *)
Definition setitem (kwargs : loc) (key : string) (v : sval) : prog unit :=
  Prog (λ σ,
    match σ !! kwargs with
    | Some (OKwargs kw) => (Ok tt, <[kwargs := OKwargs (<[key := v]> kw)]> σ)
    | _ => (raise TypeError "object does not support item assignment", σ)
    end).

(** [**kwargs] at a call: the entries of the dictionary. *)
Definition unpack_kwargs (kwargs : loc) : prog (gmap string sval) :=
  query (λ σ,
    match σ !! kwargs with
    | Some (OKwargs kw) => Ok kw
    | _ => raise TypeError "argument after ** must be a mapping"
    end).

(** The checkers and their helpers, under the names of the source. *)
Module Shared.

(** Modelled from the spec: the binding of [parse_user_args], as in
    [bind_params] above, on the values and references of the caller: it
    looks into no object. *)
Fixpoint bind_params (sig : ssignature) (args : list sval)
    (kwargs : gmap string sval) : result (list sval) :=
  match sig with
  | [] =>
      match args with
      | [] =>
          if bool_decide (dom kwargs = ∅) then Ok []
          else raise ArityViolation "got an unexpected keyword argument"
      | _ :: _ => raise ArityViolation "too many positional arguments"
      end
  | (name, dflt) :: sig' =>
      match args with
      | a :: args' =>
          match kwargs !! name with
          | Some _ =>
              raise ArityViolation ("multiple values for argument '" ++ name ++ "'")
          | None => vs ← bind_params sig' args' kwargs; mret (a :: vs)
          end
      | [] =>
          match kwargs !! name with
          | Some v => vs ← bind_params sig' [] (delete name kwargs); mret (v :: vs)
          | None =>
              match dflt with
              | Some d => vs ← bind_params sig' [] kwargs; mret (d :: vs)
              | None =>
                  raise ArityViolation ("missing a required argument: '" ++ name ++ "'")
              end
          end
      end
  end.

Definition raise {A} (k : exn_kind) (msg : string) : prog A := lift (raise k msg).

Definition skip : prog unit := mret tt.

Definition when (c : bool) (body : prog unit) : prog unit :=
  if c then body else skip.

Definition unpack_error {A} : prog A := lift unpack_error.

(** The tests of a value. *)
Definition test (f : pyval → bool) (v : sval) : prog bool :=
  query (λ σ, Ok (f (load σ v))).

Definition isinstance (v : sval) (t : pytype) : prog bool :=
  test (λ p, isinstance p t) v.

Definition is_none (v : sval) : prog bool := test is_none v.

Definition callable (v : sval) : prog bool := test callable v.

(** The elements of a list, as a [for] loop reads them. *)
Definition elements_of (v : sval) (otherwise : exn) : prog (list pyval) :=
  query (λ σ, match load σ v with PList items => Ok items | _ => Raise otherwise end).

(** The name of a parameter, as a value. *)
Definition name (s : string) : sval := SVal (PStr s).

(** Modelled from the spec: [parse_user_args] of core/validator_helpers.py is
    not part of the sources.  It binds the arguments and writes nothing. *)
Definition parse_user_args (sig : ssignature) (c : scall) : prog (list sval) :=
  lift (bind_params sig (s_args c) (s_kwargs c)).

(** Modelled from the spec: [type_check] of core/validator_helpers.py is not
    part of the sources.  It looks at the argument and at the name it is
    given, and writes nothing. *)
Definition type_check (arg : sval) (types : list pytype) (arg_name : sval)
    : prog unit :=
  query (λ σ, type_check (load σ arg) types (load σ arg_name)).

(** Modelled from the spec: [type_check_list] of core/validator_helpers.py is
    not part of the sources.  It looks at the arguments and writes nothing. *)
Definition type_check_list (args : list sval) (types : list pytype)
    (arg_names : list string) : prog unit :=
  query (λ σ, type_check_list (load σ <$> args) types arg_names).

(** Modelled from the spec: [check_value] of core/validator_helpers.py is not
    part of the sources.  It looks at the value and writes nothing. *)
Definition check_value (value : sval) (valid_range : Z * Z) (arg_name : string)
    : prog unit :=
  query (λ σ, check_value (load σ value) valid_range arg_name).

(** Modelled from the spec: [check_positive] of core/validator_helpers.py is
    not part of the sources.  It looks at the value and writes nothing. *)
Definition check_positive (value : sval) (arg_name : string) : prog unit :=
  query (λ σ, check_positive (load σ value) arg_name).

(** Modelled from the spec: [check_uint32] of core/validator_helpers.py is not
    part of the sources.  It looks at the value and writes nothing. *)
Definition check_uint32 (value : sval) (arg_name : string) : prog unit :=
  query (λ σ, check_uint32 (load σ value) arg_name).

(** check_unique_list_of_words (lines 29-39): the set [words_set] is local
    to the call. *)
Definition check_unique_list_of_words (words : sval) (arg_name : string)
    : prog (gset string) :=
  type_check words [t_list] (name arg_name);;
  items ← elements_of words (Exn TypeError "object is not iterable");
  lift (unique_words_loop items arg_name ∅).

(** check_lookup (lines 42-56). *)
Definition check_lookup_checks (sig : ssignature) (c : scall) : prog scall :=
  vals ← parse_user_args sig c;
  match vals with
  | [vocab; unknown_token] =>
      none ← is_none unknown_token;
      (if (none : bool) then skip
       else type_check unknown_token [t_str] (name "unknown_token"));;
      type_check vocab [t_Vocab] (name "vocab is not an instance of cde.Vocab.");;
      mret c
  | _ => unpack_error
  end.

(** check_from_file (lines 59-75). *)
Definition check_from_file_checks (sig : ssignature) (c : scall) : prog scall :=
  vals ← parse_user_args sig c;
  match vals with
  | [file_path; delimiter; vocab_size; special_tokens; special_first] =>
      none ← is_none special_tokens;
      (if (none : bool) then skip
       else check_unique_list_of_words special_tokens "special_tokens";; skip);;
      type_check_list [file_path; delimiter] [t_str] ["file_path"; "delimiter"];;
      none ← is_none vocab_size;
      (if (none : bool) then skip
       else check_value vocab_size (-1, INT32_MAX) "vocab_size");;
      type_check special_first [t_bool] special_first;;
      mret c
  | _ => unpack_error
  end.

(** check_from_list (lines 78-98). *)
Definition check_from_list_checks (sig : ssignature) (c : scall) : prog scall :=
  vals ← parse_user_args sig c;
  match vals with
  | [word_list; special_tokens; special_first] =>
      word_set ← check_unique_list_of_words word_list "word_list";
      none ← is_none special_tokens;
      (if (none : bool) then skip
       else
         token_set ← check_unique_list_of_words special_tokens "special_tokens";
         let intersect := word_set ∩ token_set in
         if bool_decide (intersect ≠ ∅)
         then raise ValueError
                ("special_tokens and word_list contain duplicate word :"
                   ++ py_str_set intersect ++ ".")
         else skip);;
      type_check special_first [t_bool] (name "special_first");;
      mret c
  | _ => unpack_error
  end.

(** check_from_dict (lines 101-116). *)
Definition check_from_dict_checks (sig : ssignature) (c : scall) : prog scall :=
  vals ← parse_user_args sig c;
  match vals with
  | [word_dict] =>
      type_check word_dict [t_dict] (name "word_dict");;
      items ← query (λ σ,
                 match load σ word_dict with
                 | PDict items => Ok items
                 | _ => Raise (Exn TypeError "object has no attribute 'items'")
                 end);
      lift (from_dict_loop items);;
      mret c
  | _ => unpack_error
  end.

(** check_jieba_init (lines 119-138). *)
Definition check_jieba_init_checks (sig : ssignature) (c : scall) : prog scall :=
  vals ← parse_user_args sig c;
  match vals with
  | [hmm_path; mp_path; _; with_offsets] =>
      none ← is_none hmm_path;
      when none (raise ValueError "The dict of HMMSegment in cppjieba is not provided.");;
      is_str ← isinstance hmm_path t_str;
      when (negb is_str)
        (raise TypeError "Wrong input type for hmm_path, should be string.");;
      none ← is_none mp_path;
      when none (raise ValueError "The dict of MPSegment in cppjieba is not provided.");;
      is_str ← isinstance mp_path t_str;
      when (negb is_str)
        (raise TypeError "Wrong input type for mp_path, should be string.");;
      is_bool ← isinstance with_offsets t_bool;
      when (negb is_bool)
        (raise TypeError "Wrong input type for with_offsets, should be boolean.");;
      mret c
  | _ => unpack_error
  end.

(** check_jieba_add_word (lines 141-153). *)
Definition check_jieba_add_word_checks (sig : ssignature) (c : scall) : prog scall :=
  vals ← parse_user_args sig c;
  match vals with
  | [word; freq] =>
      none ← is_none word;
      when none (raise ValueError "word is not provided.");;
      none ← is_none freq;
      (if (none : bool) then skip else check_uint32 freq "");;
      mret c
  | _ => unpack_error
  end.

(** check_jieba_add_dict (lines 156-164). *)
Definition check_jieba_add_dict_checks (sig : ssignature) (c : scall) : prog scall :=
  parse_user_args sig c;;
  mret c.

(** check_with_offsets (lines 167-177). *)
Definition check_with_offsets_checks (sig : ssignature) (c : scall) : prog scall :=
  vals ← parse_user_args sig c;
  match vals with
  | [with_offsets] =>
      is_bool ← isinstance with_offsets t_bool;
      when (negb is_bool)
        (raise TypeError "Wrong input type for with_offsets, should be boolean.");;
      mret c
  | _ => unpack_error
  end.

(** check_unicode_script_tokenizer (lines 180-192). *)
Definition check_unicode_script_tokenizer_checks (sig : ssignature) (c : scall)
    : prog scall :=
  vals ← parse_user_args sig c;
  match vals with
  | [keep_whitespace; with_offsets] =>
      is_bool ← isinstance keep_whitespace t_bool;
      when (negb is_bool)
        (raise TypeError "Wrong input type for keep_whitespace, should be boolean.");;
      is_bool ← isinstance with_offsets t_bool;
      when (negb is_bool)
        (raise TypeError "Wrong input type for with_offsets, should be boolean.");;
      mret c
  | _ => unpack_error
  end.

(** check_wordpiece_tokenizer (lines 195-215). *)
Definition check_wordpiece_tokenizer_checks (sig : ssignature) (c : scall)
    : prog scall :=
  vals ← parse_user_args sig c;
  match vals with
  | [vocab; suffix_indicator; max_bytes_per_token; unknown_token; with_offsets] =>
      none ← is_none vocab;
      when none (raise ValueError "vocab is not provided.");;
      is_vocab ← isinstance vocab t_Vocab;
      when (negb is_vocab)
        (raise TypeError "Wrong input type for vocab, should be Vocab object.");;
      is_str ← isinstance suffix_indicator t_str;
      when (negb is_str)
        (raise TypeError "Wrong input type for suffix_indicator, should be string.");;
      is_str ← isinstance unknown_token t_str;
      when (negb is_str)
        (raise TypeError "Wrong input type for unknown_token, should be string.");;
      is_bool ← isinstance with_offsets t_bool;
      when (negb is_bool)
        (raise TypeError "Wrong input type for with_offsets, should be boolean.");;
      check_uint32 max_bytes_per_token "";;
      mret c
  | _ => unpack_error
  end.

(** check_regex_tokenizer (lines 218-234). *)
Definition check_regex_tokenizer_checks (sig : ssignature) (c : scall) : prog scall :=
  vals ← parse_user_args sig c;
  match vals with
  | [delim_pattern; keep_delim_pattern; with_offsets] =>
      none ← is_none delim_pattern;
      when none (raise ValueError "delim_pattern is not provided.");;
      is_str ← isinstance delim_pattern t_str;
      when (negb is_str)
        (raise TypeError "Wrong input type for delim_pattern, should be string.");;
      is_str ← isinstance keep_delim_pattern t_str;
      when (negb is_str)
        (raise TypeError "Wrong input type for keep_delim_pattern, should be string.");;
      is_bool ← isinstance with_offsets t_bool;
      when (negb is_bool)
        (raise TypeError "Wrong input type for with_offsets, should be boolean.");;
      mret c
  | _ => unpack_error
  end.

(** check_basic_tokenizer (lines 237-254). *)
Definition check_basic_tokenizer_checks (sig : ssignature) (c : scall) : prog scall :=
  vals ← parse_user_args sig c;
  match vals with
  | [lower_case; keep_whitespace; _; preserve_unused; with_offsets] =>
      is_bool ← isinstance lower_case t_bool;
      when (negb is_bool)
        (raise TypeError "Wrong input type for lower_case, should be boolean.");;
      is_bool ← isinstance keep_whitespace t_bool;
      when (negb is_bool)
        (raise TypeError "Wrong input type for keep_whitespace, should be boolean.");;
      is_bool ← isinstance preserve_unused t_bool;
      when (negb is_bool)
        (raise TypeError "Wrong input type for preserve_unused_token, should be boolean.");;
      is_bool ← isinstance with_offsets t_bool;
      when (negb is_bool)
        (raise TypeError "Wrong input type for with_offsets, should be boolean.");;
      mret c
  | _ => unpack_error
  end.

(** check_bert_tokenizer (lines 257-286). *)
Definition check_bert_tokenizer_checks (sig : ssignature) (c : scall) : prog scall :=
  vals ← parse_user_args sig c;
  match vals with
  | [vocab; suffix_indicator; max_bytes_per_token; unknown_token; lower_case;
     keep_whitespace; _; preserve_unused_token; with_offsets] =>
      none ← is_none vocab;
      when none (raise ValueError "vacab is not provided.");;
      is_vocab ← isinstance vocab t_Vocab;
      when (negb is_vocab)
        (raise TypeError "Wrong input type for vocab, should be Vocab object.");;
      is_str ← isinstance suffix_indicator t_str;
      when (negb is_str)
        (raise TypeError "Wrong input type for suffix_indicator, should be string.");;
      is_int ← isinstance max_bytes_per_token t_int;
      when (negb is_int)
        (raise TypeError "Wrong input type for max_bytes_per_token, should be int.");;
      check_uint32 max_bytes_per_token "";;
      is_str ← isinstance unknown_token t_str;
      when (negb is_str)
        (raise TypeError "Wrong input type for unknown_token, should be string.");;
      is_bool ← isinstance lower_case t_bool;
      when (negb is_bool)
        (raise TypeError "Wrong input type for lower_case, should be boolean.");;
      is_bool ← isinstance keep_whitespace t_bool;
      when (negb is_bool)
        (raise TypeError "Wrong input type for keep_whitespace, should be boolean.");;
      is_bool ← isinstance preserve_unused_token t_bool;
      when (negb is_bool)
        (raise TypeError "Wrong input type for preserve_unused_token, should be boolean.");;
      is_bool ← isinstance with_offsets t_bool;
      when (negb is_bool)
        (raise TypeError "Wrong input type for with_offsets, should be boolean.");;
      mret c
  | _ => unpack_error
  end.

(** check_from_dataset (lines 289-329), the [columns] block (lines 297-301):
    [[columns]] is a new list, which the local name is bound to. *)
Definition from_dataset_columns (columns : sval) : prog sval :=
  none ← is_none columns;
  if (none : bool) then mret columns
  else
    is_list ← isinstance columns t_list;
    if negb (is_list : bool) then
      columns ← new_list [columns];
      items ← elements_of columns (Exn TypeError "object has no len()");
      let col_names :=
        List.map (fun i : nat => "col_" ++ pretty i) (seq 0 (length items)) in
      type_check_list (SVal <$> items) [t_str] col_names;;
      mret columns
    else mret columns.

(** The [freq_range] block (lines 303-316): a tuple is a value. *)
Definition from_dataset_freq_range (freq_range : sval) : prog unit :=
  query (λ σ, from_dataset_freq_range (load σ freq_range)).

(** The remaining checks (lines 318-325). *)
Definition from_dataset_rest (top_k special_tokens special_first : sval)
    : prog unit :=
  type_check top_k [t_int; t_NoneType] (name "top_k");;
  is_int ← isinstance top_k t_int;
  (if (is_int : bool) then check_positive top_k "top_k" else skip);;
  type_check special_first [t_bool] (name "special_first");;
  none ← is_none special_tokens;
  (if (none : bool) then skip
   else check_unique_list_of_words special_tokens "special_tokens";; skip).

Definition check_from_dataset_checks (sig : ssignature) (c : scall) : prog scall :=
  vals ← parse_user_args sig c;
  match vals with
  | [_; columns; freq_range; top_k; special_tokens; special_first] =>
      columns ← from_dataset_columns columns;
      from_dataset_freq_range freq_range;;
      from_dataset_rest top_k special_tokens special_first;;
      mret c
  | _ => unpack_error
  end.

(** check_ngram (lines 332-369), the checks of lines 342-360. *)
Definition ngram_checks (n left_pad right_pad separator : sval) : prog unit :=
  grams ← query (λ σ,
             match load σ n with
             | PList ((_ :: _) as grams) => Ok grams
             | _ =>
                 Raise (Exn ValueError
                          "n needs to be a non-empty list of positive integers.")
             end);
  lift (ngram_loop 0 grams);;
  is_pair ← test is_pad left_pad;
  when (negb is_pair)
    (raise ValueError
       "left_pad needs to be a tuple of (str, int) str is pad token and int is pad_width.");;
  is_pair ← test is_pad right_pad;
  when (negb is_pair)
    (raise ValueError
       "right_pad needs to be a tuple of (str, int) str is pad token and int is pad_width.");;
  left_ok ← test pad_width_ok left_pad;
  right_ok ← test pad_width_ok right_pad;
  when (negb (left_ok && right_ok))
    (raise ValueError "padding width need to be positive numbers.");;
  type_check separator [t_str] (name "separator").

(** The four assignments of lines 362-365, which write to the dictionary
    [kwargs], and the keyword arguments of the call of line 367. *)
Definition ngram_handed (kwargs : loc) (n left_pad right_pad separator : sval)
    : prog scall :=
  setitem kwargs "n" n;;
  setitem kwargs "left_pad" left_pad;;
  setitem kwargs "right_pad" right_pad;;
  setitem kwargs "separator" separator;;
  kw ← unpack_kwargs kwargs;
  mret (SCall [] kw).

(** [[n]] is a new list, and [kwargs] is the dictionary of this call. *)
Definition check_ngram_checks (sig : ssignature) (c : scall) : prog scall :=
  kwargs ← new_kwargs (s_kwargs c);
  vals ← parse_user_args sig c;
  match vals with
  | [n; left_pad; right_pad; separator] =>
      is_int ← isinstance n t_int;
      n ← (if (is_int : bool) then new_list [n] else mret n);
      ngram_checks n left_pad right_pad separator;;
      ngram_handed kwargs n left_pad right_pad separator
  | _ => unpack_error
  end.

(** check_pair_truncate (lines 372-380). *)
Definition check_pair_truncate_checks (sig : ssignature) (c : scall) : prog scall :=
  parse_user_args sig c;;
  mret c.

Section Numeric.

Variable number_type : list string.

(** check_to_number (lines 383-396). *)
Definition check_to_number_checks (sig : ssignature) (c : scall) : prog scall :=
  vals ← parse_user_args sig c;
  match vals with
  | [data_type] =>
      type_check data_type [t_Type] (name "data_type");;
      numeric ← test (λ p, match p with
                           | PDType name => bool_decide (name ∈ number_type)
                           | _ => false
                           end) data_type;
      when (negb numeric) (raise TypeError "data_type is not numeric data type.");;
      mret c
  | _ => unpack_error
  end.

(** check_python_tokenizer (lines 399-411). *)
Definition check_python_tokenizer_checks (sig : ssignature) (c : scall)
    : prog scall :=
  vals ← parse_user_args sig c;
  match vals with
  | [tokenizer] =>
      is_callable ← callable tokenizer;
      when (negb is_callable)
        (raise TypeError "tokenizer is not a callable python function");;
      mret c
  | _ => unpack_error
  end.

End Numeric.

End Shared.

(** One entry per checker: its name, its checks over the store and its
    checks over values. *)
Record shared_entry : Type := SharedEntry {
  sh_name : string;
  sh_checks : ssignature → scall → prog scall;
  sh_values : signature → call → result call
}.

Definition all_shared (number_type : list string) : list shared_entry :=
  [ SharedEntry "check_lookup" Shared.check_lookup_checks check_lookup_checks;
    SharedEntry "check_from_file" Shared.check_from_file_checks check_from_file_checks;
    SharedEntry "check_from_list" Shared.check_from_list_checks check_from_list_checks;
    SharedEntry "check_from_dict" Shared.check_from_dict_checks check_from_dict_checks;
    SharedEntry "check_jieba_init" Shared.check_jieba_init_checks check_jieba_init_checks;
    SharedEntry "check_jieba_add_word" Shared.check_jieba_add_word_checks
      check_jieba_add_word_checks;
    SharedEntry "check_jieba_add_dict" Shared.check_jieba_add_dict_checks
      check_jieba_add_dict_checks;
    SharedEntry "check_with_offsets" Shared.check_with_offsets_checks
      check_with_offsets_checks;
    SharedEntry "check_unicode_script_tokenizer"
      Shared.check_unicode_script_tokenizer_checks check_unicode_script_tokenizer_checks;
    SharedEntry "check_wordpiece_tokenizer" Shared.check_wordpiece_tokenizer_checks
      check_wordpiece_tokenizer_checks;
    SharedEntry "check_regex_tokenizer" Shared.check_regex_tokenizer_checks
      check_regex_tokenizer_checks;
    SharedEntry "check_basic_tokenizer" Shared.check_basic_tokenizer_checks
      check_basic_tokenizer_checks;
    SharedEntry "check_bert_tokenizer" Shared.check_bert_tokenizer_checks
      check_bert_tokenizer_checks;
    SharedEntry "check_from_dataset" Shared.check_from_dataset_checks
      check_from_dataset_checks;
    SharedEntry "check_ngram" Shared.check_ngram_checks check_ngram_checks;
    SharedEntry "check_pair_truncate" Shared.check_pair_truncate_checks
      check_pair_truncate_checks;
    SharedEntry "check_to_number" (Shared.check_to_number_checks number_type)
      (check_to_number_checks number_type);
    SharedEntry "check_python_tokenizer" Shared.check_python_tokenizer_checks
      check_python_tokenizer_checks ].

(** A program that only looks at the store: it leaves the store as it was,
    and its result is [p]. *)
Definition reads {A} (m : prog A) (σ : store) (p : result A) : Prop :=
  run m σ = (p, σ).

(** A checker that only reads and forwards the caller's call: it leaves the
    store as it was, and it raises what the checks over the values raise. *)
Definition reads_values (s : ssignature → scall → prog scall)
    (p : signature → call → result call) : Prop :=
  ∀ σ sig c,
    run (s sig c) σ
    = (p (load_sig σ sig) (load_call σ c) ≫= λ _, Ok c, σ).

(** A checker over the store and the checker over values: the store only
    grows, and the outcome is the outcome over the values the arguments
    stand for. *)
Definition links (s : ssignature → scall → prog scall)
    (p : signature → call → result call) : Prop :=
  ∀ σ sig c,
    wf_call σ sig c →
    σ ⊆ (run (s sig c) σ).2
    ∧ load_result (run (s sig c) σ).2 (run (s sig c) σ).1
      = p (load_sig σ sig) (load_call σ c).

(** ** Sample operations

    The wrapped operations live outside this module; the examples below run
    the checkers on operations that declare the parameters the checkers
    unpack and that log every call they receive. *)

Definition sig_from_list : signature :=
  [("word_list", None); ("special_tokens", Some PNone);
   ("special_first", Some (PBool true))].

Definition sig_from_file : signature :=
  [("file_path", None); ("delimiter", Some (PStr "")); ("vocab_size", Some PNone);
   ("special_tokens", Some PNone); ("special_first", Some (PBool true))].

Definition sig_from_dataset : signature :=
  [("dataset", None); ("columns", Some PNone); ("freq_range", Some PNone);
   ("top_k", Some PNone); ("special_tokens", Some PNone);
   ("special_first", Some (PBool true))].

Definition sig_ngram : signature :=
  [("n", None); ("left_pad", Some (PTuple [PStr ""; PInt 0]));
   ("right_pad", Some (PTuple [PStr ""; PInt 0])); ("separator", Some (PStr " "))].

Definition sig_wordpiece : signature :=
  [("vocab", None); ("suffix_indicator", Some (PStr "##"));
   ("max_bytes_per_token", Some (PInt 100)); ("unknown_token", Some (PStr "[UNK]"));
   ("with_offsets", Some (PBool false))].

Definition sig_add_word : signature :=
  [("word", None); ("freq", Some PNone)].

(** An operation that appends the call it receives to a log. *)
Definition logging (sig : signature) : method_t (list call) unit :=
  Method sig (fun c log => (Ok tt, (log ++ [c])%list)).

Definition sig_lookup : signature :=
  [("vocab", None); ("unknown_token", Some PNone)].

Definition sig_from_dict : signature := [("word_dict", None)].

Definition sig_jieba_init : signature :=
  [("hmm_path", None); ("mp_path", None); ("mode", Some (PObject "JiebaMode"));
   ("with_offsets", Some (PBool false))].

Definition sig_basic : signature :=
  [("lower_case", Some (PBool false)); ("keep_whitespace", Some (PBool false));
   ("normalization_form", Some (PObject "NormalizeForm"));
   ("preserve_unused_token", Some (PBool true)); ("with_offsets", Some (PBool false))].

Definition sig_bert : signature :=
  [("vocab", None); ("suffix_indicator", Some (PStr "##"));
   ("max_bytes_per_token", Some (PInt 100)); ("unknown_token", Some (PStr "[UNK]"));
   ("lower_case", Some (PBool false)); ("keep_whitespace", Some (PBool false));
   ("normalization_form", Some (PObject "NormalizeForm"));
   ("preserve_unused_token", Some (PBool true)); ("with_offsets", Some (PBool false))].

Definition sig_regex : signature :=
  [("delim_pattern", None); ("keep_delim_pattern", Some (PStr ""));
   ("with_offsets", Some (PBool false))].

Definition sig_to_number : signature := [("data_type", None)].


(** ** Predicates used in the statements *)

(** The declared parameters of Ngram, over the store. *)
Definition ssig_ngram : ssignature :=
  [("n", None); ("left_pad", Some (SVal (PTuple [PStr ""; PInt 0])));
   ("right_pad", Some (SVal (PTuple [PStr ""; PInt 0])));
   ("separator", Some (SVal (PStr " ")))].

(** The checks hand over the caller's own call when they pass. *)
Definition forwards (c : call) (r : result call) : Prop :=
  ∀ c', r = Ok c' → c' = c.

(** A number that is neither below [lo] nor above [hi]: an integer of
    [lo, hi], or a float for which both comparisons are false. *)
Definition within (v : pyval) (lo hi : Z) : Prop :=
  (∃ z, as_number v = Some z ∧ lo ≤ z ≤ hi)
  ∨ (∃ f, v = PFloat f ∧ float_lt_int f lo = false ∧ float_gt_int f hi = false).

(** A failure is a TypeError or a ValueError. *)
Definition typed_failure {A} (r : result A) : Prop :=
  ∀ e, r = Raise e → exn_kind_of e = TypeError ∨ exn_kind_of e = ValueError.

(** * Properties *)

#[local] Set Warnings "-clear-no-such-hyp".

(** ** The error monad and the helpers *)

Lemma bind_Ok {A B} (a : A) (k : A → result B) : (Ok a ≫= k) = k a.
Proof. reflexivity. Qed.

Lemma bind_Raise {A B} (e : exn) (k : A → result B) : (Raise e ≫= k) = Raise e.
Proof. reflexivity. Qed.

Lemma passes_Ok {A} (a : A) : passes (Ok a).
Proof. by exists a. Qed.

Lemma not_passes_Raise {A} (e : exn) : ¬ passes (@Raise A e).
Proof. by intros [a ?]. Qed.

Lemma raises_raise {A} k msg : raises (@raise A k msg) k.
Proof. by exists msg. Qed.

Lemma raises_not_passes {A} (r : result A) k : raises r k → ¬ passes r.
Proof. intros [msg ->] [a ?]. discriminate. Qed.

Lemma type_check_int_ok (z : Z) (name : pyval) :
  type_check (PInt z) [t_int] name = Ok tt.
Proof. reflexivity. Qed.

Lemma is_none_dec (v : pyval) : {v = PNone} + {v ≠ PNone}.
Proof. destruct v; (by left) || (by right). Defined.

Lemma isinstance_str v : isinstance v t_str = true ↔ ∃ s, v = PStr s.
Proof. split; [destruct v; try discriminate; eauto | by intros [b ->]]. Qed.

(** ** check_unique_list_of_words *)

Lemma unique_words_loop_ok (ws : list string) (name : string) (acc : gset string) :
  NoDup ws → (∀ w, w ∈ ws → w ∉ acc) →
  unique_words_loop (PStr <$> ws) name acc = Ok (acc ∪ list_to_set ws).
Proof.
  revert acc. induction ws as [|w ws IH]; intros acc Hnd Hacc; simpl.
  - f_equal. set_solver.
  - apply NoDup_cons in Hnd as [Hw Hnd].
    rewrite bool_decide_eq_false_2 by (apply Hacc; set_solver).
    rewrite IH; [f_equal; set_solver | done |].
    intros w' Hw'. specialize (Hacc w'). set_solver.
Qed.

Lemma unique_words_loop_dup (l1 l2 : list string) (w name : string) (acc : gset string) :
  NoDup l1 → (∀ x, x ∈ l1 → x ∉ acc) → w ∈ l1 ∨ w ∈ acc →
  unique_words_loop (PStr <$> (l1 ++ w :: l2)%list) name acc
  = raise ValueError (name ++ " contains duplicate word: " ++ w ++ ".").
Proof.
  revert acc. induction l1 as [|x l1 IH]; intros acc Hnd Hacc Hw; simpl.
  - rewrite bool_decide_eq_true_2; [done | set_solver].
  - apply NoDup_cons in Hnd as [Hx Hnd].
    rewrite bool_decide_eq_false_2 by (apply Hacc; set_solver).
    apply IH; [done | |set_solver].
    intros y Hy. specialize (Hacc y). set_solver.
Qed.

(** A list with a repeated entry splits at the first entry that repeats an
    earlier one. *)
Lemma first_duplicate (ws : list string) :
  ¬ NoDup ws → ∃ l1 w l2, ws = (l1 ++ w :: l2)%list ∧ NoDup l1 ∧ w ∈ l1.
Proof.
  induction ws as [|x l IH] using rev_ind; intros Hnd.
  - destruct Hnd. constructor.
  - destruct (decide (NoDup l)) as [Hl|Hl].
    + exists l, x, []. split_and!; [done..|].
      destruct (decide (x ∈ l)) as [|Hx]; [done|].
      destruct Hnd. apply NoDup_app. split_and!; [done| |apply NoDup_singleton].
      intros y Hy ->%list_elem_of_singleton. done.
    + destruct (IH Hl) as (l1 & w & l2 & -> & ? & ?).
      exists l1, w, (l2 ++ [x])%list. by rewrite <- app_assoc.
Qed.

Lemma check_unique_list_of_words_ok (ws : list string) (name : string) :
  NoDup ws →
  check_unique_list_of_words (PList (PStr <$> ws)) name = Ok (list_to_set ws).
Proof.
  intros Hnd. unfold check_unique_list_of_words. simpl.
  rewrite unique_words_loop_ok; [f_equal; set_solver | done | set_solver].
Qed.

Lemma check_unique_list_of_words_dup (l1 l2 : list string) (w name : string) :
  NoDup l1 → w ∈ l1 →
  check_unique_list_of_words (PList (PStr <$> (l1 ++ w :: l2)%list)) name
  = raise ValueError (name ++ " contains duplicate word: " ++ w ++ ".").
Proof.
  intros Hnd Hw. unfold check_unique_list_of_words. simpl.
  apply unique_words_loop_dup; [done | set_solver | by left].
Qed.

(** ** check_from_list *)



(** ** check_value, check_positive and check_uint32 *)

Lemma as_real_of_number (v : pyval) (z : Z) :
  as_number v = Some z → as_real v = Some (NInt z).
Proof. destruct v; try done; simpl; by intros [= ->]. Qed.

Lemma check_value_in (v : pyval) (lo hi z : Z) (name : string) :
  as_number v = Some z → lo ≤ z ≤ hi → check_value v (lo, hi) name = Ok tt.
Proof.
  intros Hv Hz. unfold check_value. rewrite (as_real_of_number _ _ Hv). simpl.
  destruct (Z.ltb_spec z lo), (Z.ltb_spec hi z); simpl; (done || lia).
Qed.

Lemma check_value_out (v : pyval) (lo hi z : Z) (name : string) :
  as_number v = Some z → ¬ (lo ≤ z ≤ hi) → raises (check_value v (lo, hi) name) ValueError.
Proof.
  intros Hv Hz. unfold check_value. rewrite (as_real_of_number _ _ Hv). simpl.
  destruct (Z.ltb_spec z lo), (Z.ltb_spec hi z); simpl;
    (apply raises_raise || lia).
Qed.

Lemma check_value_passes (v : pyval) (lo hi : Z) (name : string) :
  passes (check_value v (lo, hi) name) ↔ within v lo hi.
Proof.
  unfold within. split.
  - intros Hp. destruct (as_number v) as [z|] eqn:Hv.
    + left. exists z. split; [done|].
      destruct (decide (lo ≤ z ≤ hi)) as [|Hz]; [done|].
      by destruct (raises_not_passes _ _ (check_value_out v lo hi z name Hv Hz)).
    + right. destruct v; try done; try (by destruct (not_passes_Raise _ Hp)).
      exists f. split; [done|]. unfold check_value in Hp. simpl in Hp.
      destruct (float_lt_int f lo), (float_gt_int f hi);
        try (by destruct (not_passes_Raise _ Hp)). done.
  - intros [(z & Hv & Hz)|(f & -> & Hlt & Hgt)].
    + rewrite (check_value_in v lo hi z) by done. apply passes_Ok.
    + unfold check_value. simpl. rewrite Hlt, Hgt. apply passes_Ok.
Qed.

Lemma check_value_passes_int (z lo hi : Z) (name : string) :
  passes (check_value (PInt z) (lo, hi) name) ↔ lo ≤ z ≤ hi.
Proof.
  rewrite check_value_passes. unfold within. split.
  - by intros [(z' & [= <-] & Hz)|(f & ? & _)].
  - intros Hz. left. by exists z.
Qed.

Lemma check_positive_pos (v : pyval) (z : Z) (name : string) :
  as_number v = Some z → 0 < z → check_positive v name = Ok tt.
Proof.
  intros Hv Hz. unfold check_positive. rewrite (as_real_of_number _ _ Hv). simpl.
  destruct (Z.leb_spec z 0); (done || lia).
Qed.

Lemma check_positive_nonpos (v : pyval) (z : Z) (name : string) :
  as_number v = Some z → z ≤ 0 → raises (check_positive v name) ValueError.
Proof.
  intros Hv Hz. unfold check_positive. rewrite (as_real_of_number _ _ Hv). simpl.
  destruct (Z.leb_spec z 0); (apply raises_raise || lia).
Qed.

Lemma check_uint32_in (z : Z) (name : string) :
  0 ≤ z ≤ UINT32_MAX → check_uint32 (PInt z) name = Ok tt.
Proof.
  intros Hz. unfold check_uint32. rewrite type_check_int_ok. simpl.
  by apply (check_value_in (PInt z) 0 UINT32_MAX z).
Qed.

Lemma check_uint32_out (z : Z) (name : string) :
  ¬ (0 ≤ z ≤ UINT32_MAX) → raises (check_uint32 (PInt z) name) ValueError.
Proof.
  intros Hz. unfold check_uint32. rewrite type_check_int_ok. simpl.
  by apply (check_value_out (PInt z) 0 UINT32_MAX z).
Qed.

Lemma check_uint32_not_int (v : pyval) (name : string) :
  (∀ z, v ≠ PInt z) → raises (check_uint32 v name) TypeError.
Proof.
  intros Hv. unfold check_uint32.
  destruct v; try (by eexists); by destruct (Hv z).
Qed.

Lemma is_PInt_dec (v : pyval) : {z | v = PInt z} + {∀ z, v ≠ PInt z}.
Proof.
  destruct v; try (by right). left. by eexists.
Defined.

Lemma check_uint32_passes (v : pyval) (name : string) :
  passes (check_uint32 v name) ↔ ∃ z, v = PInt z ∧ 0 ≤ z ≤ UINT32_MAX.
Proof.
  split.
  - intros Hp.
    destruct (is_PInt_dec v) as [[z ->]|Hv]; last first.
    { destruct (raises_not_passes _ _ (check_uint32_not_int v name Hv) Hp). }
    exists z. split; [done|].
    destruct (decide (0 ≤ z ≤ UINT32_MAX)) as [|Hz]; [done|].
    by destruct (raises_not_passes _ _ (check_uint32_out z name Hz)).
  - intros (z & -> & Hz). rewrite check_uint32_in by done. apply passes_Ok.
Qed.

(** ** check_from_file *)

(** check_from_file on an integer vocab_size, the other arguments valid. *)
Lemma check_from_file_vocab_size_int (sig : signature) (c : call)
    (file_path delimiter : string) (z : Z) (special_first : bool) :
  parse_user_args sig c
  = Ok [PStr file_path; PStr delimiter; PInt z; PNone; PBool special_first] →
  (-1 ≤ z ≤ INT32_MAX → check_from_file_checks sig c = Ok c) ∧
  (¬ (-1 ≤ z ≤ INT32_MAX) → raises (check_from_file_checks sig c) ValueError).
Proof.
  intros Hparse. unfold check_from_file_checks. rewrite Hparse. simpl. split.
  - intros Hz. by rewrite (check_value_in (PInt z) _ _ z).
  - intros Hz.
    destruct (check_value_out (PInt z) (-1) INT32_MAX z "vocab_size" eq_refl Hz)
      as [msg ->]. by exists msg.
Qed.

(** C2 at vocab_size = 1.5: check_from_file hands vocab_size to check_value
    without checking its type, so the float 1.5 (and NaN) passes and the
    wrapped operation is called with it, although it is no integer of
    [-1, INT32_MAX]; check_from_dict checks the type of an id before its
    range and refuses 1.5 with a TypeError.  On integers the range is as
    the claim says: -2 and INT32_MAX + 1 raise a ValueError, -1 and
    INT32_MAX pass. *)
Theorem check_from_file_vocab_size_untyped :
  check_from_file (logging sig_from_file)
    (Call [PStr "vocab.txt"; PStr ","; PFloat (FFinite 3 (-1))] ∅) []
  = (Ok tt, [Call [PStr "vocab.txt"; PStr ","; PFloat (FFinite 3 (-1))] ∅]) ∧
  passes (check_from_file_checks sig_from_file
            (Call [PStr "vocab.txt"; PStr ","; PFloat FNaN] ∅)) ∧
  raises (check_from_dict_checks [("word_dict", None)]
            (Call [PDict [(PStr "home", PFloat (FFinite 3 (-1)))]] ∅)) TypeError ∧
  raises (check_from_file_checks sig_from_file
            (Call [PStr "vocab.txt"; PStr ","; PInt (-2)] ∅)) ValueError ∧
  passes (check_from_file_checks sig_from_file
            (Call [PStr "vocab.txt"; PStr ","; PInt (-1)] ∅)) ∧
  passes (check_from_file_checks sig_from_file
            (Call [PStr "vocab.txt"; PStr ","; PInt INT32_MAX] ∅)) ∧
  raises (check_from_file_checks sig_from_file
            (Call [PStr "vocab.txt"; PStr ","; PInt (INT32_MAX + 1)] ∅)) ValueError.
Proof.
  assert (∀ z, parse_user_args sig_from_file
                 (Call [PStr "vocab.txt"; PStr ","; PInt z] ∅)
               = Ok [PStr "vocab.txt"; PStr ","; PInt z; PNone; PBool true]) as Hp.
  { intros z. vm_compute. reflexivity. }
  split_and!.
  - vm_compute. reflexivity.
  - vm_compute. by eexists.
  - vm_compute. by eexists.
  - apply (check_from_file_vocab_size_int _ _ _ _ _ _ (Hp (-2))).
    unfold INT32_MAX. lia.
  - destruct (check_from_file_vocab_size_int _ _ _ _ _ _ (Hp (-1))) as [H _].
    rewrite H; [apply passes_Ok|]. unfold INT32_MAX. lia.
  - destruct (check_from_file_vocab_size_int _ _ _ _ _ _ (Hp INT32_MAX)) as [H _].
    rewrite H; [apply passes_Ok|]. unfold INT32_MAX. lia.
  - apply (check_from_file_vocab_size_int _ _ _ _ _ _ (Hp (INT32_MAX + 1))).
    unfold INT32_MAX. lia.
Qed.

(** ** check_from_dataset: the frequency range *)

Lemma freq_range_pair (lo hi : pyval) :
  from_dataset_freq_range (PTuple [lo; hi])
  = if none_or_int lo && none_or_int hi then
      match as_number lo, as_number hi with
      | Some a, Some b =>
          when ((b <? a) || (a <? 0))
            (raise ValueError
               "frequency range [a,b] should be 0 <= a <= b (a,b are inclusive).")
      | _, _ => Ok tt
      end
    else raise ValueError
           "freq_range needs to be either None or a tuple of 2 integers or an int and a None.".
Proof. destruct lo, hi; reflexivity. Qed.

Lemma freq_range_wrong_length (items : list pyval) :
  length items ≠ 2%nat →
  from_dataset_freq_range (PTuple items)
  = raise ValueError "freq_range needs to be a tuple of 2 integers or an int and a None.".
Proof.
  intros Hlen. unfold from_dataset_freq_range. simpl.
  destruct (Nat.eqb_spec (length items) 2); [done|reflexivity].
Qed.

Lemma freq_range_not_tuple (fr : pyval) :
  fr ≠ PNone → isinstance fr t_tuple = false →
  raises (from_dataset_freq_range fr) TypeError.
Proof. intros Hn Ht. destruct fr; try done; by eexists. Qed.

Lemma none_or_int_spec (v : pyval) :
  none_or_int v = true ↔ v = PNone ∨ isinstance v t_int = true.
Proof.
  unfold none_or_int. rewrite orb_true_iff.
  split; (intros [H|H]; [left|by right]); by destruct v.
Qed.

(** C3: the freq_range check of check_from_dataset passes exactly on None
    and on the 2-tuples whose elements are None or int and, when both are
    int, satisfy 0 <= low <= high.  A pair of integers with low > high or
    low < 0 raises a ValueError, as does a tuple of another length or one
    with an element that is neither None nor int; a value that is neither
    None nor a tuple raises a TypeError.  A failure of this check is the
    failure of the whole checker once the columns check has passed. *)
Theorem from_dataset_freq_range_contract :
  (∀ fr, passes (from_dataset_freq_range fr)
         ↔ fr = PNone
           ∨ ∃ lo hi, fr = PTuple [lo; hi]
               ∧ (lo = PNone ∨ isinstance lo t_int = true)
               ∧ (hi = PNone ∨ isinstance hi t_int = true)
               ∧ (∀ a b, as_number lo = Some a → as_number hi = Some b → 0 ≤ a ≤ b)) ∧
  (∀ a b, b < a ∨ a < 0 →
     raises (from_dataset_freq_range (PTuple [PInt a; PInt b])) ValueError) ∧
  (∀ a b, 0 ≤ a ≤ b → from_dataset_freq_range (PTuple [PInt a; PInt b]) = Ok tt) ∧
  (∀ b, from_dataset_freq_range (PTuple [PNone; PInt b]) = Ok tt) ∧
  (∀ items, length items ≠ 2%nat →
     raises (from_dataset_freq_range (PTuple items)) ValueError) ∧
  (∀ lo hi, none_or_int lo = false ∨ none_or_int hi = false →
     raises (from_dataset_freq_range (PTuple [lo; hi])) ValueError) ∧
  (∀ fr, fr ≠ PNone → isinstance fr t_tuple = false →
     raises (from_dataset_freq_range fr) TypeError) ∧
  (∀ sig c dataset columns freq_range top_k special_tokens special_first,
     parse_user_args sig c
     = Ok [dataset; columns; freq_range; top_k; special_tokens; special_first] →
     passes (from_dataset_columns columns) →
     (∀ e, from_dataset_freq_range freq_range = Raise e →
        check_from_dataset_checks sig c = Raise e) ∧
     (from_dataset_freq_range freq_range = Ok tt →
      from_dataset_rest top_k special_tokens special_first = Ok tt →
      check_from_dataset_checks sig c = Ok c)).
Proof.
  split_and!.
  - intros fr. split.
    + intros Hp. destruct (is_none_dec fr) as [|Hn]; [by left|right].
      destruct (isinstance fr t_tuple) eqn:Ht; last first.
      { by destruct (raises_not_passes _ _ (freq_range_not_tuple fr Hn Ht)). }
      destruct fr as [| | | | |items| | | | | | |]; try done.
      destruct (decide (length items = 2%nat)) as [Hlen|Hlen]; last first.
      { rewrite freq_range_wrong_length in Hp by done.
        by destruct (not_passes_Raise _ Hp). }
      destruct items as [|lo [|hi [|]]]; try done.
      exists lo, hi. rewrite freq_range_pair in Hp.
      destruct (none_or_int lo) eqn:Hlo, (none_or_int hi) eqn:Hhi;
        try (by destruct (not_passes_Raise _ Hp)).
      apply none_or_int_spec in Hlo, Hhi. split_and!; [done..|].
      intros a b Ha Hb. rewrite Ha, Hb in Hp. simpl in Hp.
      destruct (Z.ltb_spec b a), (Z.ltb_spec a 0);
        try (by destruct (not_passes_Raise _ Hp)). lia.
    + intros [->|(lo & hi & -> & Hlo & Hhi & Hab)]; [apply passes_Ok|].
      rewrite freq_range_pair.
      apply none_or_int_spec in Hlo, Hhi. rewrite Hlo, Hhi. simpl.
      destruct (as_number lo) as [a|], (as_number hi) as [b|]; try apply passes_Ok.
      specialize (Hab a b eq_refl eq_refl).
      destruct (Z.ltb_spec b a), (Z.ltb_spec a 0); try lia. apply passes_Ok.
  - intros a b Hab. rewrite freq_range_pair. simpl.
    destruct (Z.ltb_spec b a), (Z.ltb_spec a 0); try lia; apply raises_raise.
  - intros a b Hab. rewrite freq_range_pair. simpl.
    destruct (Z.ltb_spec b a), (Z.ltb_spec a 0); try lia; done.
  - intros b. by rewrite freq_range_pair.
  - intros items Hlen. rewrite freq_range_wrong_length by done. apply raises_raise.
  - intros lo hi Hor. rewrite freq_range_pair.
    destruct Hor as [-> | ->]; [|rewrite andb_false_r]; apply raises_raise.
  - apply freq_range_not_tuple.
  - intros sig c dataset columns freq_range top_k special_tokens special_first
      Hparse [cols Hcols]. unfold check_from_dataset_checks.
    rewrite Hparse. simpl. rewrite Hcols. simpl. split.
    + by intros e ->.
    + by intros -> ->.
Qed.

Lemma from_dataset_freq_range_contract_witness :
  raises (check_from_dataset_checks sig_from_dataset
            (Call [PObject "Dataset"; PStr "text"; PTuple [PInt 5; PInt 2]] ∅))
    ValueError ∧
  raises (check_from_dataset_checks sig_from_dataset
            (Call [PObject "Dataset"; PStr "text"; PTuple [PInt (-1); PInt 5]] ∅))
    ValueError ∧
  passes (check_from_dataset_checks sig_from_dataset
            (Call [PObject "Dataset"; PStr "text"; PTuple [PInt 2; PInt 5]] ∅)) ∧
  passes (check_from_dataset_checks sig_from_dataset
            (Call [PObject "Dataset"; PStr "text"; PTuple [PNone; PInt 5]] ∅)).
Proof.
  destruct from_dataset_freq_range_contract
    as (_ & Hbad & Hgood & Hopen & _ & _ & _ & Hguard).
  split_and!.
  - assert (parse_user_args sig_from_dataset
              (Call [PObject "Dataset"; PStr "text"; PTuple [PInt 5; PInt 2]] ∅)
            = Ok [PObject "Dataset"; PStr "text"; PTuple [PInt 5; PInt 2];
                  PNone; PNone; PBool true]) as Hp by (vm_compute; reflexivity).
    destruct (Hbad 5 2 ltac:(lia)) as [msg Hr].
    destruct (Hguard _ _ _ _ _ _ _ _ Hp (passes_Ok _)) as [H _].
    rewrite (H _ Hr). by exists msg.
  - assert (parse_user_args sig_from_dataset
              (Call [PObject "Dataset"; PStr "text"; PTuple [PInt (-1); PInt 5]] ∅)
            = Ok [PObject "Dataset"; PStr "text"; PTuple [PInt (-1); PInt 5];
                  PNone; PNone; PBool true]) as Hp by (vm_compute; reflexivity).
    destruct (Hbad (-1) 5 ltac:(lia)) as [msg Hr].
    destruct (Hguard _ _ _ _ _ _ _ _ Hp (passes_Ok _)) as [H _].
    rewrite (H _ Hr). by exists msg.
  - assert (parse_user_args sig_from_dataset
              (Call [PObject "Dataset"; PStr "text"; PTuple [PInt 2; PInt 5]] ∅)
            = Ok [PObject "Dataset"; PStr "text"; PTuple [PInt 2; PInt 5];
                  PNone; PNone; PBool true]) as Hp by (vm_compute; reflexivity).
    destruct (Hguard _ _ _ _ _ _ _ _ Hp (passes_Ok _)) as [_ H].
    rewrite (H (Hgood 2 5 ltac:(lia)) eq_refl). apply passes_Ok.
  - assert (parse_user_args sig_from_dataset
              (Call [PObject "Dataset"; PStr "text"; PTuple [PNone; PInt 5]] ∅)
            = Ok [PObject "Dataset"; PStr "text"; PTuple [PNone; PInt 5];
                  PNone; PNone; PBool true]) as Hp by (vm_compute; reflexivity).
    destruct (Hguard _ _ _ _ _ _ _ _ Hp (passes_Ok _)) as [_ H].
    rewrite (H (Hopen 5) eq_refl). apply passes_Ok.
Defined.

(** ** check_ngram *)

Lemma ngram_loop_positive (zs : list Z) (i : nat) :
  Forall (λ z, 0 < z) zs → ngram_loop i (PInt <$> zs) = Ok tt.
Proof.
  revert i. induction zs as [|z zs IH]; intros i Hpos; [done|].
  apply Forall_cons in Hpos as [Hz Hpos]. simpl.
  rewrite (check_positive_pos (PInt z) z) by done. simpl. by apply IH.
Qed.

Lemma ngram_loop_nonpositive (zs : list Z) (i : nat) :
  (∃ z, z ∈ zs ∧ z ≤ 0) → raises (ngram_loop i (PInt <$> zs)) ValueError.
Proof.
  revert i. induction zs as [|z zs IH]; intros i (x & Hx & Hle).
  - by apply elem_of_nil in Hx.
  - simpl. destruct (decide (z ≤ 0)) as [Hz|Hz].
    + destruct (check_positive_nonpos (PInt z) z ("gram_" ++ pretty i) eq_refl Hz)
        as [msg ->]. by exists msg.
    + rewrite (check_positive_pos (PInt z) z) by (done || lia). simpl.
      apply IH. exists x. split; [|done].
      apply elem_of_cons in Hx as [->|]; [lia|done].
Qed.

Lemma ngram_kwargs_lookup (kwargs : gmap string pyval) (n left_pad right_pad separator : pyval) :
  ngram_kwargs kwargs n left_pad right_pad separator !! "n" = Some n ∧
  ngram_kwargs kwargs n left_pad right_pad separator !! "left_pad" = Some left_pad ∧
  ngram_kwargs kwargs n left_pad right_pad separator !! "right_pad" = Some right_pad ∧
  ngram_kwargs kwargs n left_pad right_pad separator !! "separator" = Some separator.
Proof.
  unfold ngram_kwargs. split_and!; by simplify_map_eq.
Qed.

Lemma ngram_kwargs_idemp (kwargs : gmap string pyval) (n left_pad right_pad separator : pyval) :
  ngram_kwargs (ngram_kwargs kwargs n left_pad right_pad separator)
    n left_pad right_pad separator
  = ngram_kwargs kwargs n left_pad right_pad separator.
Proof.
  apply map_eq. intros k. unfold ngram_kwargs.
  destruct (decide (k = "separator")) as [->|]; [by simplify_map_eq|].
  destruct (decide (k = "right_pad")) as [->|]; [by simplify_map_eq|].
  destruct (decide (k = "left_pad")) as [->|]; [by simplify_map_eq|].
  destruct (decide (k = "n")) as [->|]; by simplify_map_eq.
Qed.

(** The checks of check_ngram after the binding of the arguments, once [n]
    is a non-empty list of positive integers. *)
Lemma check_ngram_checks_grams (sig : signature) (c : call)
    (n left_pad right_pad separator : pyval) (zs : list Z) :
  parse_user_args sig c = Ok [n; left_pad; right_pad; separator] →
  (if isinstance n t_int then PList [n] else n) = PList (PInt <$> zs) →
  zs ≠ [] → Forall (λ z, 0 < z) zs →
  check_ngram_checks sig c
  = (when (negb (is_pad left_pad))
       (raise ValueError
          "left_pad needs to be a tuple of (str, int) str is pad token and int is pad_width.");;
     when (negb (is_pad right_pad))
       (raise ValueError
          "right_pad needs to be a tuple of (str, int) str is pad token and int is pad_width.");;
     when (negb (pad_width_ok left_pad && pad_width_ok right_pad))
       (raise ValueError "padding width need to be positive numbers.");;
     type_check separator [t_str] (PStr "separator");;
     mret (Call [] (ngram_kwargs (c_kwargs c) (PList (PInt <$> zs))
                      left_pad right_pad separator))).
Proof.
  intros Hparse Hn Hne Hpos. unfold check_ngram_checks. rewrite Hparse. simpl.
  rewrite Hn. destruct zs as [|z zs]; [done|].
  change (PInt <$> z :: zs) with (PInt z :: (PInt <$> zs)). cbv match.
  change (PInt z :: (PInt <$> zs)) with (PInt <$> z :: zs).
  by rewrite ngram_loop_positive.
Qed.

(** C4: check_ngram turns a positive integer n into the one-element list
    [n], passes when the pads are (text, non-negative integer) pairs and the
    separator is text, and calls the wrapped operation with the keyword
    arguments n, left_pad, right_pad and separator set to the normalized
    values; a list of integers with a non-positive gram raises a ValueError,
    the empty list raises a ValueError, and a negative pad width raises a
    ValueError. *)
Theorem check_ngram_contract (sig : signature) (c : call)
    (n left_pad right_pad separator : pyval) :
  parse_user_args sig c = Ok [n; left_pad; right_pad; separator] →
  (∀ z, n = PInt z → 0 < z →
     is_pad left_pad = true → pad_width_ok left_pad = true →
     is_pad right_pad = true → pad_width_ok right_pad = true →
     isinstance separator t_str = true →
     check_ngram_checks sig c
     = Ok (Call [] (ngram_kwargs (c_kwargs c) (PList [PInt z])
                      left_pad right_pad separator)) ∧
     ∀ W R (run : call → W → result R * W) (w : W),
       check_ngram (Method sig run) c w
       = run (Call [] (ngram_kwargs (c_kwargs c) (PList [PInt z])
                         left_pad right_pad separator)) w) ∧
  (∀ kwargs n',

     ngram_kwargs kwargs n' left_pad right_pad separator !! "n" = Some n' ∧
     ngram_kwargs kwargs n' left_pad right_pad separator !! "left_pad" = Some left_pad ∧
     ngram_kwargs kwargs n' left_pad right_pad separator !! "right_pad" = Some right_pad ∧
     ngram_kwargs kwargs n' left_pad right_pad separator !! "separator" = Some separator) ∧
  (∀ zs, n = PList (PInt <$> zs) → (∃ z, z ∈ zs ∧ z ≤ 0) →
     raises (check_ngram_checks sig c) ValueError) ∧
  (n = PList [] → raises (check_ngram_checks sig c) ValueError) ∧
  (∀ z token width, n = PInt z → 0 < z →
     left_pad = PTuple [PStr token; PInt width] → width < 0 →
     is_pad right_pad = true →
     raises (check_ngram_checks sig c) ValueError) ∧
  (∀ z token width, n = PInt z → 0 < z →
     left_pad = PTuple [PStr token; PInt width] → 0 ≤ width →
     is_pad right_pad = true → pad_width_ok right_pad = true →
     isinstance separator t_str = true →
     passes (check_ngram_checks sig c)).
Proof.
  intros Hparse.
  assert (∀ z, n = PInt z → 0 < z →
            is_pad left_pad = true → pad_width_ok left_pad = true →
            is_pad right_pad = true → pad_width_ok right_pad = true →
            isinstance separator t_str = true →
            check_ngram_checks sig c
            = Ok (Call [] (ngram_kwargs (c_kwargs c) (PList [PInt z])
                             left_pad right_pad separator))) as Hpass.
  { intros z -> Hz Hl Hlw Hr Hrw Hs.
    rewrite (check_ngram_checks_grams sig c _ _ _ _ [z] Hparse eq_refl)
      by (done || by repeat constructor).
    rewrite Hl, Hlw, Hr, Hrw. simpl.
    apply isinstance_str in Hs as [s ->]. done. }
  split_and!.
  - intros z Hn Hz Hl Hlw Hr Hrw Hs. split; [by apply Hpass|].
    intros W R run w. unfold check_ngram, guarded. simpl.
    by rewrite (Hpass z).
  - intros kwargs n'. apply ngram_kwargs_lookup.
  - intros zs -> Hex. unfold check_ngram_checks. rewrite Hparse. simpl.
    destruct zs as [|z zs]; [by destruct Hex as (? & ?%elem_of_nil & _)|].
    change (PInt z :: (PInt <$> zs)) with (PInt <$> z :: zs).
    destruct (ngram_loop_nonpositive (z :: zs) 0 Hex) as [msg ->]. by exists msg.
  - intros ->. unfold check_ngram_checks. rewrite Hparse. simpl. apply raises_raise.
  - intros z token width -> Hz -> Hw Hr.
    rewrite (check_ngram_checks_grams sig c _ _ _ _ [z] Hparse eq_refl)
      by (done || by repeat constructor).
    rewrite Hr. simpl. destruct (Z.leb_spec 0 width); [lia|]. apply raises_raise.
  - intros z token width -> Hz -> Hw Hr Hrw Hs.
    rewrite (Hpass z); [apply passes_Ok|done..| | | |]; try done.
    simpl. by apply Z.leb_le.
Qed.

Lemma check_ngram_contract_witness :
  (∃ kwargs,
     check_ngram_checks sig_ngram (Call [PInt 3] ∅) = Ok (Call [] kwargs) ∧
     kwargs !! "n" = Some (PList [PInt 3]) ∧
     kwargs !! "left_pad" = Some (PTuple [PStr ""; PInt 0]) ∧
     kwargs !! "right_pad" = Some (PTuple [PStr ""; PInt 0]) ∧
     kwargs !! "separator" = Some (PStr " ")) ∧
  raises (check_ngram_checks sig_ngram (Call [PList [PInt 2; PInt 0]] ∅)) ValueError ∧
  raises (check_ngram_checks sig_ngram (Call [PList []] ∅)) ValueError ∧
  raises (check_ngram_checks sig_ngram
            (Call [PInt 3; PTuple [PStr "<s>"; PInt (-1)]] ∅)) ValueError ∧
  passes (check_ngram_checks sig_ngram
            (Call [PInt 3; PTuple [PStr "<s>"; PInt 2]] ∅)).
Proof.
  split_and!.
  - assert (parse_user_args sig_ngram (Call [PInt 3] ∅)
            = Ok [PInt 3; PTuple [PStr ""; PInt 0]; PTuple [PStr ""; PInt 0]; PStr " "])
      as Hp by (vm_compute; reflexivity).
    destruct (check_ngram_contract _ _ _ _ _ _ Hp) as (H & Hk & _).
    destruct (H 3) as [Hc _]; try (reflexivity || lia).
    eexists. split; [apply Hc|]. apply Hk.
  - assert (parse_user_args sig_ngram (Call [PList [PInt 2; PInt 0]] ∅)
            = Ok [PList (PInt <$> [2; 0]); PTuple [PStr ""; PInt 0];
                  PTuple [PStr ""; PInt 0]; PStr " "])
      as Hp by (vm_compute; reflexivity).
    destruct (check_ngram_contract _ _ _ _ _ _ Hp) as (_ & _ & H & _).
    apply (H [2; 0] eq_refl). exists 0. split; [set_solver|lia].
  - assert (parse_user_args sig_ngram (Call [PList []] ∅)
            = Ok [PList []; PTuple [PStr ""; PInt 0]; PTuple [PStr ""; PInt 0]; PStr " "])
      as Hp by (vm_compute; reflexivity).
    destruct (check_ngram_contract _ _ _ _ _ _ Hp) as (_ & _ & _ & H & _).
    by apply H.
  - assert (parse_user_args sig_ngram (Call [PInt 3; PTuple [PStr "<s>"; PInt (-1)]] ∅)
            = Ok [PInt 3; PTuple [PStr "<s>"; PInt (-1)]; PTuple [PStr ""; PInt 0];
                  PStr " "])
      as Hp by (vm_compute; reflexivity).
    destruct (check_ngram_contract _ _ _ _ _ _ Hp) as (_ & _ & _ & _ & H & _).
    apply (H 3 "<s>" (-1)); (reflexivity || lia).
  - assert (parse_user_args sig_ngram (Call [PInt 3; PTuple [PStr "<s>"; PInt 2]] ∅)
            = Ok [PInt 3; PTuple [PStr "<s>"; PInt 2]; PTuple [PStr ""; PInt 0];
                  PStr " "])
      as Hp by (vm_compute; reflexivity).
    destruct (check_ngram_contract _ _ _ _ _ _ Hp) as (_ & _ & _ & _ & _ & H).
    apply (H 3 "<s>" 2); (reflexivity || lia).
Defined.

(** ** check_from_dataset: the columns *)

Lemma from_dataset_columns_scalar (columns : pyval) :
  columns ≠ PNone → isinstance columns t_list = false →
  from_dataset_columns columns
  = (type_check columns [t_str] (PStr "col_0");; Ok (PList [columns])).
Proof.
  intros Hn Hl. unfold from_dataset_columns.
  destruct columns; try done; simpl; by destruct (type_check _ _ _) as [[]|].
Qed.

Lemma check_from_dataset_checks_forward (sig : signature) (c c' : call) :
  check_from_dataset_checks sig c = Ok c' → c' = c.
Proof.
  unfold check_from_dataset_checks.
  destruct (parse_user_args sig c) as [vals|]; [simpl|done].
  destruct vals as [|? [|columns [|freq_range [|top_k [|special_tokens
    [|special_first [|]]]]]]]; try done.
  destruct (from_dataset_columns columns); [simpl|done].
  destruct (from_dataset_freq_range freq_range); [simpl|done].
  destruct (from_dataset_rest _ _ _); [simpl|done].
  by intros [= ->].
Qed.

(** C5, as the code has it: a scalar column name is wrapped into a
    one-element list inside check_from_dataset only, and that element is
    checked to be text (another scalar raises a TypeError); the wrapped
    operation receives the caller's own arguments unchanged. *)
Theorem check_from_dataset_columns_local (sig : signature) (c : call)
    (dataset columns freq_range top_k special_tokens special_first : pyval) :
  parse_user_args sig c
  = Ok [dataset; columns; freq_range; top_k; special_tokens; special_first] →
  (∀ c', check_from_dataset_checks sig c = Ok c' → c' = c) ∧
  (∀ W R (method : method_t W R) w c',
     check_from_dataset_checks sig c = Ok c' →
     guarded method (check_from_dataset_checks sig c) w = m_run method c w) ∧
  (columns ≠ PNone → isinstance columns t_list = false →
     (isinstance columns t_str = true →
        from_dataset_columns columns = Ok (PList [columns])) ∧
     (isinstance columns t_str = false →
        raises (check_from_dataset_checks sig c) TypeError)).
Proof.
  intros Hparse. split_and!.
  - apply check_from_dataset_checks_forward.
  - intros W R method w c' Hc.
    rewrite Hc, (check_from_dataset_checks_forward _ _ _ Hc). done.
  - intros Hn Hl. split.
    + intros [s ->]%isinstance_str. done.
    + intros Hs. unfold check_from_dataset_checks. rewrite Hparse. simpl.
      rewrite from_dataset_columns_scalar by done.
      destruct columns; try done; by eexists.
Qed.

Lemma check_from_dataset_columns_local_witness :
  check_from_dataset (logging sig_from_dataset)
    (Call [PObject "Dataset"; PStr "text"] ∅) []
  = (Ok tt, [Call [PObject "Dataset"; PStr "text"] ∅]) ∧
  from_dataset_columns (PStr "text") = Ok (PList [PStr "text"]) ∧
  raises (check_from_dataset_checks sig_from_dataset
            (Call [PObject "Dataset"; PInt 1] ∅)) TypeError.
Proof.
  split_and!.
  - assert (parse_user_args sig_from_dataset (Call [PObject "Dataset"; PStr "text"] ∅)
            = Ok [PObject "Dataset"; PStr "text"; PNone; PNone; PNone; PBool true])
      as Hp by (vm_compute; reflexivity).
    destruct (check_from_dataset_columns_local _ _ _ _ _ _ _ _ Hp) as (_ & H & _).
    unfold check_from_dataset.
    eapply eq_trans; [eapply H|reflexivity]. vm_compute. reflexivity.
  - assert (parse_user_args sig_from_dataset (Call [PObject "Dataset"; PStr "text"] ∅)
            = Ok [PObject "Dataset"; PStr "text"; PNone; PNone; PNone; PBool true])
      as Hp by (vm_compute; reflexivity).
    destruct (check_from_dataset_columns_local _ _ _ _ _ _ _ _ Hp) as (_ & _ & H).
    by apply H.
  - assert (parse_user_args sig_from_dataset (Call [PObject "Dataset"; PInt 1] ∅)
            = Ok [PObject "Dataset"; PInt 1; PNone; PNone; PNone; PBool true])
      as Hp by (vm_compute; reflexivity).
    destruct (check_from_dataset_columns_local _ _ _ _ _ _ _ _ Hp) as (_ & _ & H).
    by apply H.
Defined.

(** C5, as the claim has it, fails: a scalar column name reaches the
    wrapped operation as the scalar the caller gave, not as a one-element
    list; and the elements of a list of columns are not checked to be
    text. *)
Lemma check_from_dataset_columns_counterexample :
  check_from_dataset (logging sig_from_dataset)
    (Call [PObject "Dataset"; PStr "text"] ∅) []
  = (Ok tt, [Call [PObject "Dataset"; PStr "text"] ∅]) ∧
  parse_user_args sig_from_dataset (Call [PObject "Dataset"; PStr "text"] ∅)
  = Ok [PObject "Dataset"; PStr "text"; PNone; PNone; PNone; PBool true] ∧
  PStr "text" ≠ PList [PStr "text"] ∧
  check_from_dataset (logging sig_from_dataset)
    (Call [PObject "Dataset"; PList [PInt 1]] ∅) []
  = (Ok tt, [Call [PObject "Dataset"; PList [PInt 1]] ∅]) ∧
  ¬ (∀ c c' vals columns,
       check_from_dataset_checks sig_from_dataset c = Ok c' →
       parse_user_args sig_from_dataset c' = Ok vals →
       vals !! 1%nat = Some columns →
       columns = PNone ∨ ∃ names : list string, columns = PList (PStr <$> names)).
Proof.
  split_and!.
  - vm_compute. reflexivity.
  - vm_compute. reflexivity.
  - discriminate.
  - vm_compute. reflexivity.
  - intros H.
    assert (check_from_dataset_checks sig_from_dataset
              (Call [PObject "Dataset"; PStr "text"] ∅)
            = Ok (Call [PObject "Dataset"; PStr "text"] ∅)) as Hc
      by (vm_compute; reflexivity).
    assert (parse_user_args sig_from_dataset (Call [PObject "Dataset"; PStr "text"] ∅)
            = Ok [PObject "Dataset"; PStr "text"; PNone; PNone; PNone; PBool true])
      as Hp by (vm_compute; reflexivity).
    destruct (H _ _ _ (PStr "text") Hc Hp eq_refl) as [|[names ?]]; discriminate.
Qed.

(** ** The message of check_from_file on special_first *)

(** C6 at special_first = 1: check_from_file hands the value of
    special_first to type_check where the parameter name is expected, so the
    message of the TypeError names "1" and does not mention special_first;
    check_from_list and check_from_dataset hand over the name, and their
    message mentions it. *)
Theorem check_from_file_special_first_unnamed :
  check_from_file_checks sig_from_file
    (Call [PStr "vocab.txt"; PStr ","; PNone; PNone; PInt 1] ∅)
  = Raise (Exn TypeError "Argument 1 with value 1 is not of type (<class 'bool'>,).") ∧
  mentions "special_first"
    "Argument 1 with value 1 is not of type (<class 'bool'>,)." = false ∧
  check_from_list_checks sig_from_list (Call [PList []; PNone; PInt 1] ∅)
  = Raise (Exn TypeError
             "Argument special_first with value 1 is not of type (<class 'bool'>,).") ∧
  mentions "special_first"
    "Argument special_first with value 1 is not of type (<class 'bool'>,)." = true.
Proof. split_and!; vm_compute; reflexivity. Qed.

(** ** Every checker: failing fast *)

Lemma all_guards_wrapper (number_type : list string) (W R : Type)
    (g : guard_entry W R) :
  g ∈ all_guards number_type W R →
  ∀ (method : method_t W R) (c : call) (w : W),
    g_wrapper g method c w = guarded method (g_checks g (m_sig method) c) w.
Proof.
  intros Hg method c w. unfold all_guards in Hg.
  repeat (apply elem_of_cons in Hg as [->|Hg]; [reflexivity|]).
  by apply elem_of_nil in Hg.
Qed.

(** The first failure of a sequence of predicates is the first entry that
    raises, all entries before it passing. *)
Lemma first_failure_Raise (ps : list (result unit)) (e : exn) :
  first_failure ps = Raise e
  ↔ ∃ before after, ps = (before ++ Raise e :: after)%list
      ∧ Forall (λ q, q = Ok tt) before.
Proof.
  induction ps as [|p ps IH]; simpl.
  - split; [done|]. intros (before & after & Heq & _). by destruct before.
  - destruct p as [[]|e']; simpl.
    + rewrite IH. split.
      * intros (before & after & -> & Hb). exists (Ok tt :: before), after.
        split; [done|]. by constructor.
      * intros (before & after & Heq & Hb). destruct before as [|q before]; [done|].
        injection Heq as <- ->. apply Forall_cons in Hb as [_ Hb].
        by exists before, after.
    + split.
      * intros [= ->]. exists [], ps. split; [done|constructor].
      * intros (before & after & Heq & Hb). destruct before as [|q before].
        -- by injection Heq as ->.
        -- injection Heq as <- _. by apply Forall_cons in Hb as [? _].
Qed.

Lemma first_failure_Ok (ps : list (result unit)) :
  first_failure ps = Ok tt ↔ Forall (λ q, q = Ok tt) ps.
Proof.
  induction ps as [|p ps IH]; simpl.
  - split; [constructor|done].
  - rewrite Forall_cons, <- IH. destruct p as [[]|e]; simpl; naive_solver.
Qed.

Lemma seq_first_failure_cons {A} (p : result unit) (ps : list (result unit))
    (k : result A) :
  (first_failure (p :: ps);; k) = (p;; first_failure ps;; k).
Proof. by destruct p as [[]|]. Qed.

Lemma seq_first_failure_app {A} (ps qs : list (result unit)) (k : result A) :
  (first_failure (ps ++ qs);; k) = (first_failure ps;; first_failure qs;; k).
Proof.
  induction ps as [|p ps IH]; [done|]. cbn [app].
  rewrite !seq_first_failure_cons. destruct p as [[]|]; [apply IH|done].
Qed.

Lemma first_failure_app (ps qs : list (result unit)) :
  first_failure (ps ++ qs) = (first_failure ps;; first_failure qs).
Proof.
  induction ps as [|p ps IH]; [done|]. cbn [app first_failure].
  destruct p as [[]|]; [apply IH|done].
Qed.

Lemma seq_Ok_tt (p : result unit) : (p;; Ok tt) = p.
Proof. by destruct p as [[]|]. Qed.

(** Each loop of the module is the first failure of its predicates. *)
Lemma unique_words_loop_refines (words : list pyval) (name : string)
    (acc : gset string) :
  unique_words_loop words name acc
  = (first_failure (unique_words_loop_predicates words name acc);;
     Ok (acc ∪ word_set_of (PList words))).
Proof.
  revert acc. induction words as [|word rest IH]; intros acc.
  - simpl. f_equal. set_solver.
  - destruct word; try reflexivity.
    cbn [unique_words_loop unique_words_loop_predicates first_failure].
    change (type_check (PStr s) [t_str] (PStr name)) with (Ok tt : result unit).
    rewrite !bind_Ok. case_bool_decide; [done|]. rewrite bind_Ok, IH.
    replace (acc ∪ {[s]} ∪ word_set_of (PList rest))
      with (acc ∪ word_set_of (PList (PStr s :: rest))); [done|].
    simpl. set_solver.
Qed.

Lemma check_unique_list_of_words_refines (words : pyval) (name : string) :
  check_unique_list_of_words words name
  = (first_failure (unique_words_predicates words name);; Ok (word_set_of words)).
Proof.
  destruct words; try reflexivity.
  unfold check_unique_list_of_words, unique_words_predicates.
  cbn [first_failure].
  change (type_check (PList l) [t_list] (PStr name)) with (Ok tt : result unit).
  rewrite !bind_Ok, unique_words_loop_refines.
  replace (∅ ∪ word_set_of (PList l)) with (word_set_of (PList l)); [done|].
  set_solver.
Qed.

Lemma from_dict_loop_refines (items : list (pyval * pyval)) :
  from_dict_loop items = first_failure (from_dict_loop_predicates items).
Proof.
  induction items as [|[word word_id] rest IH]; [done|].
  cbn [from_dict_loop from_dict_loop_predicates first_failure]. by rewrite IH.
Qed.

Lemma freq_range_loop_refines (items : list pyval) :
  freq_range_loop items
  = first_failure
      (List.map
         (λ num,
            when (negb (is_none num) && negb (isinstance num t_int))
              (raise ValueError
                 "freq_range needs to be either None or a tuple of 2 integers or an int and a None."))
         items).
Proof.
  induction items as [|num rest IH]; [done|].
  cbn [freq_range_loop List.map first_failure]. by rewrite IH.
Qed.

Lemma ngram_loop_refines (grams : list pyval) (i : nat) :
  ngram_loop i grams = first_failure (ngram_loop_predicates i grams).
Proof.
  revert i. induction grams as [|gram rest IH]; intros i; [done|].
  cbn [ngram_loop ngram_loop_predicates first_failure]. by rewrite IH.
Qed.

Lemma from_dataset_columns_refines {A} (columns : pyval) (k : result A) :
  (from_dataset_columns columns ≫= λ _, k)
  = (first_failure (from_dataset_columns_predicates columns);; k).
Proof. destruct columns; reflexivity. Qed.

Lemma from_dataset_freq_range_refines (freq_range : pyval) :
  from_dataset_freq_range freq_range
  = first_failure (from_dataset_freq_range_predicates freq_range).
Proof.
  destruct freq_range as [| | | | |items| | | | | | |]; try reflexivity.
  unfold from_dataset_freq_range, from_dataset_freq_range_predicates.
  cbn [is_none first_failure].
  change (type_check (PTuple items) [t_tuple] (PStr "freq_range"))
    with (Ok tt : result unit).
  rewrite !bind_Ok, first_failure_app, freq_range_loop_refines.
  cbn [first_failure]. by rewrite seq_Ok_tt.
Qed.

Lemma from_dataset_rest_refines (top_k special_tokens special_first : pyval) :
  from_dataset_rest top_k special_tokens special_first
  = first_failure (from_dataset_rest_predicates top_k special_tokens special_first).
Proof.
  unfold from_dataset_rest, from_dataset_rest_predicates.
  cbn [app first_failure].
  destruct (type_check top_k _ _) as [[]|]; [rewrite !bind_Ok|done].
  destruct (if isinstance top_k t_int then _ else _) as [[]|]; [rewrite !bind_Ok|done].
  destruct (type_check special_first _ _) as [[]|]; [rewrite !bind_Ok|done].
  destruct (is_none special_tokens); [done|].
  rewrite check_unique_list_of_words_refines.
  by destruct (first_failure _) as [[]|].
Qed.

Ltac refines_start :=
  intros sig c; cbn [p_checks p_predicates p_handed];
  match goal with
  | |- ?f _ sig c = _ => unfold f
  | |- ?f sig c = _ => unfold f
  end;
  destruct (parse_user_args sig c) as [vals|]; [rewrite !bind_Ok|reflexivity];
  repeat (destruct vals as [|? vals]; try reflexivity);
  unfold same_call.

Ltac bind_head m :=
  lazymatch m with
  | ?p ≫= _ => bind_head p
  | _ => m
  end.

Ltac refines_step :=
  match goal with
  | |- ?m ≫= ?k = _ =>
      let p := bind_head m in
      lazymatch p with
      | check_unique_list_of_words ?w ?n =>
          rewrite (check_unique_list_of_words_refines w n)
      | _ => destruct p as [[]|?]; [rewrite ?bind_Ok; cbn [first_failure]|reflexivity]
      end
  end.

Ltac refines_steps := repeat refines_step; try reflexivity.

Lemma check_lookup_refines :
  refines (PredicateEntry "check_lookup" check_lookup_checks check_lookup_predicates
             same_call).
Proof.
  refines_start. unfold check_lookup_predicates. cbn [first_failure]. refines_steps.
Qed.

Lemma check_from_file_refines :
  refines (PredicateEntry "check_from_file" check_from_file_checks
             check_from_file_predicates same_call).
Proof.
  refines_start. unfold check_from_file_predicates.
  rewrite seq_first_failure_app. cbn [first_failure type_check_list].
  match goal with |- context [first_failure (if is_none ?x then _ else _)] =>
    destruct (is_none x) end; cbn [first_failure]; rewrite ?bind_Ok; refines_steps.
Qed.

Lemma check_from_list_refines :
  refines (PredicateEntry "check_from_list" check_from_list_checks
             check_from_list_predicates same_call).
Proof.
  refines_start. unfold check_from_list_predicates.
  rewrite !seq_first_failure_app. do 2 refines_step.
  destruct (is_none _); rewrite ?seq_first_failure_app; cbn [first_failure];
    rewrite ?bind_Ok; refines_steps.
Qed.

Lemma check_from_dict_refines :
  refines (PredicateEntry "check_from_dict" check_from_dict_checks
             check_from_dict_predicates same_call).
Proof.
  refines_start. unfold check_from_dict_predicates. cbn [first_failure].
  destruct (type_check _ _ _) as [[]|] eqn:Htype; [rewrite !bind_Ok|reflexivity].
  match goal with |- context [match ?v with PDict _ => _ | _ => _ end] => destruct v end;
    try discriminate Htype.
  by rewrite from_dict_loop_refines.
Qed.

Lemma check_jieba_init_refines :
  refines (PredicateEntry "check_jieba_init" check_jieba_init_checks
             check_jieba_init_predicates same_call).
Proof.
  refines_start. unfold check_jieba_init_predicates. cbn [first_failure]. refines_steps.
Qed.

Lemma check_jieba_add_word_refines :
  refines (PredicateEntry "check_jieba_add_word" check_jieba_add_word_checks
             check_jieba_add_word_predicates same_call).
Proof.
  refines_start. unfold check_jieba_add_word_predicates, check_uint32_predicates, check_uint32.
  cbn [first_failure].
  destruct (when _ _) as [[]|]; [rewrite !bind_Ok|reflexivity].
  destruct (is_none _); cbn [first_failure]; refines_steps.
Qed.

Lemma check_jieba_add_dict_refines :
  refines (PredicateEntry "check_jieba_add_dict" check_jieba_add_dict_checks
             no_predicates same_call).
Proof. intros sig c. cbn. unfold check_jieba_add_dict_checks. by destruct (parse_user_args sig c). Qed.

Lemma check_with_offsets_refines :
  refines (PredicateEntry "check_with_offsets" check_with_offsets_checks
             check_with_offsets_predicates same_call).
Proof.
  refines_start. unfold check_with_offsets_predicates. cbn [first_failure]. refines_steps.
Qed.

Lemma check_unicode_script_tokenizer_refines :
  refines (PredicateEntry "check_unicode_script_tokenizer"
             check_unicode_script_tokenizer_checks
             check_unicode_script_tokenizer_predicates same_call).
Proof.
  refines_start. unfold check_unicode_script_tokenizer_predicates.
  cbn [first_failure]. refines_steps.
Qed.

Lemma check_wordpiece_tokenizer_refines :
  refines (PredicateEntry "check_wordpiece_tokenizer" check_wordpiece_tokenizer_checks
             check_wordpiece_tokenizer_predicates same_call).
Proof.
  refines_start.
  unfold check_wordpiece_tokenizer_predicates, check_uint32_predicates, check_uint32.
  cbn [first_failure app]. refines_steps.
Qed.

Lemma check_regex_tokenizer_refines :
  refines (PredicateEntry "check_regex_tokenizer" check_regex_tokenizer_checks
             check_regex_tokenizer_predicates same_call).
Proof.
  refines_start. unfold check_regex_tokenizer_predicates. cbn [first_failure]. refines_steps.
Qed.

Lemma check_basic_tokenizer_refines :
  refines (PredicateEntry "check_basic_tokenizer" check_basic_tokenizer_checks
             check_basic_tokenizer_predicates same_call).
Proof.
  refines_start. unfold check_basic_tokenizer_predicates. cbn [first_failure]. refines_steps.
Qed.

Lemma check_bert_tokenizer_refines :
  refines (PredicateEntry "check_bert_tokenizer" check_bert_tokenizer_checks
             check_bert_tokenizer_predicates same_call).
Proof.
  refines_start.
  unfold check_bert_tokenizer_predicates, check_uint32_predicates, check_uint32.
  cbn [first_failure app]. refines_steps.
Qed.

Lemma check_from_dataset_refines :
  refines (PredicateEntry "check_from_dataset" check_from_dataset_checks
             check_from_dataset_predicates same_call).
Proof.
  refines_start. unfold check_from_dataset_predicates.
  rewrite from_dataset_columns_refines, !seq_first_failure_app,
    from_dataset_freq_range_refines, from_dataset_rest_refines.
  reflexivity.
Qed.

Lemma check_ngram_refines :
  refines (PredicateEntry "check_ngram" check_ngram_checks check_ngram_predicates
             check_ngram_handed).
Proof.
  refines_start. unfold check_ngram_predicates, check_ngram_handed, ngram_n.
  rewrite seq_first_failure_app. cbv zeta.
  destruct (if isinstance _ t_int then _ else _) as [| | | | [|gram grams] | | | | | | | |];
    try reflexivity.
  rewrite ngram_loop_refines. cbn [first_failure]. rewrite bind_Ok.
  destruct (first_failure _) as [[]|]; [rewrite !bind_Ok|reflexivity].
  refines_steps.
Qed.

Lemma check_pair_truncate_refines :
  refines (PredicateEntry "check_pair_truncate" check_pair_truncate_checks
             no_predicates same_call).
Proof. intros sig c. cbn. unfold check_pair_truncate_checks. by destruct (parse_user_args sig c). Qed.

Lemma check_to_number_refines (number_type : list string) :
  refines (PredicateEntry "check_to_number" (check_to_number_checks number_type)
             (check_to_number_predicates number_type) same_call).
Proof.
  refines_start. unfold check_to_number_predicates. cbn [first_failure]. refines_steps.
Qed.

Lemma check_python_tokenizer_refines :
  refines (PredicateEntry "check_python_tokenizer" check_python_tokenizer_checks
             check_python_tokenizer_predicates same_call).
Proof.
  refines_start. unfold check_python_tokenizer_predicates. cbn [first_failure].
  refines_steps.
Qed.

Lemma all_predicates_refine (number_type : list string) (p : predicate_entry) :
  p ∈ all_predicates number_type → refines p.
Proof.
  unfold all_predicates. intros Hp.
  repeat (apply elem_of_cons in Hp as [->|Hp];
          [eauto using check_lookup_refines, check_from_file_refines,
             check_from_list_refines, check_from_dict_refines, check_jieba_init_refines,
             check_jieba_add_word_refines, check_jieba_add_dict_refines,
             check_with_offsets_refines, check_unicode_script_tokenizer_refines,
             check_wordpiece_tokenizer_refines, check_regex_tokenizer_refines,
             check_basic_tokenizer_refines, check_bert_tokenizer_refines,
             check_from_dataset_refines, check_ngram_refines, check_pair_truncate_refines,
             check_to_number_refines, check_python_tokenizer_refines; fail|]).
  by apply elem_of_nil in Hp.
Qed.

(** C7: every checker of the module is an ordered sequence of predicates
    that stops at the first failure.  The checkers are the eighteen of the
    module; for each of them and every bound argument bundle the checks
    raise [e] exactly when [e] is the violation of the first failing
    predicate, every predicate before it passing and whatever the later
    ones would give, and they hand a call to the wrapped operation exactly
    when every predicate passes; when the checks raise, the wrapper returns
    that violation and leaves the world as it was, whatever the wrapped
    operation would do: the operation is not run; and in check_from_list a
    repeated word in word_list raises the same ValueError whatever
    special_tokens and special_first are. *)
Theorem guards_fail_fast (number_type : list string) :
  (∀ W R : Type,
     (λ g, (g_name g, g_checks g)) <$> all_guards number_type W R
     = (λ p, (p_name p, p_checks p)) <$> all_predicates number_type) ∧
  (∀ p : predicate_entry, p ∈ all_predicates number_type →
     ∀ (sig : signature) (c : call) (vals : list pyval),
       parse_user_args sig c = Ok vals →
       (∀ e : exn,
          p_checks p sig c = Raise e
          ↔ ∃ before after : list (result unit),
              p_predicates p vals = (before ++ Raise e :: after)%list
              ∧ Forall (λ q, q = Ok tt) before) ∧
       (∀ c' : call,
          p_checks p sig c = Ok c'
          ↔ Forall (λ q, q = Ok tt) (p_predicates p vals) ∧ c' = p_handed p c vals)) ∧
  (∀ (W R : Type) (g : guard_entry W R),
     g ∈ all_guards number_type W R →
     ∀ (method : method_t W R) (c : call) (w : W) (e : exn),
       g_checks g (m_sig method) c = Raise e →
       g_wrapper g method c w = (Raise e, w)) ∧
  (∀ (sig : signature) (c : call) (ws : list string) (special_tokens special_first : pyval),
     parse_user_args sig c = Ok [PList (PStr <$> ws); special_tokens; special_first] →
     ¬ NoDup ws →
     raises (check_from_list_checks sig c) ValueError ∧
     ∀ (c2 : call) (special_tokens2 special_first2 : pyval),
       parse_user_args sig c2
       = Ok [PList (PStr <$> ws); special_tokens2; special_first2] →
       check_from_list_checks sig c2 = check_from_list_checks sig c).
Proof.
  split_and!.
  - reflexivity.
  - intros p Hp sig c vals Hparse.
    pose proof (all_predicates_refine _ _ Hp sig c) as Hrefines.
    rewrite Hparse, bind_Ok in Hrefines. rewrite Hrefines. split.
    + intros e. rewrite <- first_failure_Raise.
      destruct (first_failure (p_predicates p vals)) as [[]|]; simpl; naive_solver.
    + intros c'. rewrite <- first_failure_Ok.
      destruct (first_failure (p_predicates p vals)) as [[]|]; simpl.
      * split; [by intros [= <-]|by intros [_ ->]].
      * split; [done|by intros [? _]].
  - intros W R g Hg method c w e He.
    rewrite (all_guards_wrapper _ _ _ _ Hg). unfold guarded. by rewrite He.
  - intros sig c ws special_tokens special_first Hparse Hdup.
    destruct (first_duplicate ws Hdup) as (l1 & w & l2 & -> & Hnd & Hw).
    assert (∀ c' st sf,
              parse_user_args sig c' = Ok [PList (PStr <$> (l1 ++ w :: l2)%list); st; sf] →
              check_from_list_checks sig c'
              = raise ValueError ("word_list" ++ " contains duplicate word: " ++ w ++ "."))
      as Hraise.
    { intros c' st sf Hp. unfold check_from_list_checks. rewrite Hp. simpl.
      by rewrite check_unique_list_of_words_dup. }
    split.
    + rewrite (Hraise _ _ _ Hparse). apply raises_raise.
    + intros c2 st2 sf2 Hp2. by rewrite (Hraise _ _ _ Hparse), (Hraise _ _ _ Hp2).
Qed.

Lemma guards_fail_fast_witness :
  check_from_list (logging sig_from_list)
    (Call [PList [PStr "a"; PStr "b"; PStr "a"]; PInt 7; PInt 8] ∅) []
  = (Raise (Exn ValueError "word_list contains duplicate word: a."), []) ∧
  check_from_list_checks sig_from_list
    (Call [PList [PStr "a"; PStr "b"; PStr "a"]; PList [PStr "c"]; PBool true] ∅)
  = check_from_list_checks sig_from_list
      (Call [PList [PStr "a"; PStr "b"; PStr "a"]; PInt 7; PInt 8] ∅) ∧
  check_basic_tokenizer (logging sig_basic)
    (Call [PInt 1; PBool true; PObject "NormalizeForm"; PBool true; PInt 2] ∅) []
  = (Raise (Exn TypeError "Wrong input type for lower_case, should be boolean."), []) ∧
  check_from_file (logging sig_from_file)
    (Call [PInt 1; PInt 2; PInt (-2); PList [PStr "x"; PStr "x"]; PInt 3] ∅) []
  = (Raise (Exn ValueError "special_tokens contains duplicate word: x."), []).
Proof.
  destruct (guards_fail_fast []) as (_ & Hfirst & Hwrap & Hlist).
  assert (parse_user_args sig_from_list
            (Call [PList [PStr "a"; PStr "b"; PStr "a"]; PInt 7; PInt 8] ∅)
          = Ok [PList (PStr <$> ["a"; "b"; "a"]); PInt 7; PInt 8]) as Hp
    by (vm_compute; reflexivity).
  assert (¬ NoDup ["a"; "b"; "a"]) as Hdup.
  { intros Hnd. apply NoDup_cons in Hnd as [Hin _]. apply Hin. set_solver. }
  destruct (Hlist _ _ _ _ _ Hp Hdup) as [_ Hsame].
  assert (parse_user_args sig_basic
            (Call [PInt 1; PBool true; PObject "NormalizeForm"; PBool true; PInt 2] ∅)
          = Ok [PInt 1; PBool true; PObject "NormalizeForm"; PBool true; PInt 2]) as Hb
    by (vm_compute; reflexivity).
  assert (parse_user_args sig_from_file
            (Call [PInt 1; PInt 2; PInt (-2); PList [PStr "x"; PStr "x"]; PInt 3] ∅)
          = Ok [PInt 1; PInt 2; PInt (-2); PList [PStr "x"; PStr "x"]; PInt 3]) as Hf
    by (vm_compute; reflexivity).
  split_and!.
  - apply (Hwrap (list call) unit
             (GuardEntry "check_from_list" check_from_list_checks check_from_list)).
    + by apply (list_elem_of_lookup_2 _ 2).
    + vm_compute. reflexivity.
  - apply (Hsame _ (PList [PStr "c"]) (PBool true)). vm_compute. reflexivity.
  - apply (Hwrap (list call) unit
             (GuardEntry "check_basic_tokenizer" check_basic_tokenizer_checks
                check_basic_tokenizer)).
    + by apply (list_elem_of_lookup_2 _ 11).
    + assert (PredicateEntry "check_basic_tokenizer" check_basic_tokenizer_checks
                check_basic_tokenizer_predicates same_call ∈ all_predicates []) as Hin
        by (by apply (list_elem_of_lookup_2 _ 11)).
      apply (Hfirst _ Hin _ _ _ Hb).
      exists [], [Ok tt; Ok tt;
                  raise TypeError "Wrong input type for with_offsets, should be boolean."].
      split; [reflexivity|constructor].
  - apply (Hwrap (list call) unit
             (GuardEntry "check_from_file" check_from_file_checks check_from_file)).
    + by apply (list_elem_of_lookup_2 _ 1).
    + assert (PredicateEntry "check_from_file" check_from_file_checks
                check_from_file_predicates same_call ∈ all_predicates []) as Hin
        by (by apply (list_elem_of_lookup_2 _ 1)).
      apply (Hfirst _ Hin _ _ _ Hf).
      eexists [Ok tt; Ok tt; Ok tt; Ok tt], _. split; [vm_compute; reflexivity|].
      repeat constructor.
Defined.

(** ** check_wordpiece_tokenizer *)

Lemma isinstance_Vocab v : isinstance v t_Vocab = true ↔ v = PVocab.
Proof. split; [by destruct v | by intros ->]. Qed.

Lemma check_wordpiece_tokenizer_checks_eq (sig : signature) (c : call)
    (vocab suffix_indicator max_bytes_per_token unknown_token with_offsets : pyval) :
  parse_user_args sig c
  = Ok [vocab; suffix_indicator; max_bytes_per_token; unknown_token; with_offsets] →
  check_wordpiece_tokenizer_checks sig c
  = if is_none vocab then raise ValueError "vocab is not provided."
    else if negb (isinstance vocab t_Vocab)
    then raise TypeError "Wrong input type for vocab, should be Vocab object."
    else if negb (isinstance suffix_indicator t_str)
    then raise TypeError "Wrong input type for suffix_indicator, should be string."
    else if negb (isinstance unknown_token t_str)
    then raise TypeError "Wrong input type for unknown_token, should be string."
    else if negb (isinstance with_offsets t_bool)
    then raise TypeError "Wrong input type for with_offsets, should be boolean."
    else (check_uint32 max_bytes_per_token "";; Ok c).
Proof.
  intros Hparse. unfold check_wordpiece_tokenizer_checks. rewrite Hparse. simpl.
  destruct (is_none vocab); [done|].
  destruct (isinstance vocab t_Vocab); [|done].
  destruct (isinstance suffix_indicator t_str); [|done].
  destruct (isinstance unknown_token t_str); [|done].
  by destruct (isinstance with_offsets t_bool).
Qed.

(** C8: check_wordpiece_tokenizer passes exactly when vocab is a Vocab
    object, suffix_indicator and unknown_token are text, with_offsets is
    boolean and max_bytes_per_token is an integer of [0, UINT32_MAX]; so
    with the rest valid -1 raises a ValueError and 0 passes.  A vocab of None
    raises a ValueError, a vocab of another type a TypeError, and so do a
    suffix_indicator or unknown_token that is not text and a with_offsets
    that is not boolean. *)
Theorem check_wordpiece_tokenizer_contract (sig : signature) (c : call)
    (vocab suffix_indicator max_bytes_per_token unknown_token with_offsets : pyval) :
  parse_user_args sig c
  = Ok [vocab; suffix_indicator; max_bytes_per_token; unknown_token; with_offsets] →
  (passes (check_wordpiece_tokenizer_checks sig c)
   ↔ vocab = PVocab ∧ isinstance suffix_indicator t_str = true
     ∧ isinstance unknown_token t_str = true ∧ isinstance with_offsets t_bool = true
     ∧ ∃ z, max_bytes_per_token = PInt z ∧ 0 ≤ z ≤ UINT32_MAX) ∧
  (vocab = PNone → raises (check_wordpiece_tokenizer_checks sig c) ValueError) ∧
  (vocab ≠ PNone → vocab ≠ PVocab →
     raises (check_wordpiece_tokenizer_checks sig c) TypeError) ∧
  (vocab = PVocab →
     isinstance suffix_indicator t_str = false
     ∨ isinstance unknown_token t_str = false
     ∨ isinstance with_offsets t_bool = false →
     raises (check_wordpiece_tokenizer_checks sig c) TypeError) ∧
  (vocab = PVocab → isinstance suffix_indicator t_str = true →
   isinstance unknown_token t_str = true → isinstance with_offsets t_bool = true →
     (∀ z, max_bytes_per_token = PInt z → z < 0 →
        raises (check_wordpiece_tokenizer_checks sig c) ValueError) ∧
     (max_bytes_per_token = PInt 0 → check_wordpiece_tokenizer_checks sig c = Ok c)).
Proof.
  intros Hparse. rewrite (check_wordpiece_tokenizer_checks_eq _ _ _ _ _ _ _ Hparse).
  split_and!.
  - split.
    + intros Hp.
      destruct (is_none vocab); [by destruct (not_passes_Raise _ Hp)|].
      destruct (isinstance vocab t_Vocab) eqn:Hv;
        [|by destruct (not_passes_Raise _ Hp)].
      destruct (isinstance suffix_indicator t_str);
        [|by destruct (not_passes_Raise _ Hp)].
      destruct (isinstance unknown_token t_str);
        [|by destruct (not_passes_Raise _ Hp)].
      destruct (isinstance with_offsets t_bool);
        [|by destruct (not_passes_Raise _ Hp)].
      simpl in Hp. apply isinstance_Vocab in Hv. split_and!; try done.
      apply (check_uint32_passes _ "").
      destruct (check_uint32 _ _) as [[]|]; [apply passes_Ok|].
      by destruct (not_passes_Raise _ Hp).
    + intros (-> & -> & -> & -> & z & -> & Hz). simpl.
      rewrite check_uint32_in by done. apply passes_Ok.
  - intros ->. apply raises_raise.
  - intros Hn Hv. destruct vocab; try done; apply raises_raise.
  - intros -> H. simpl.
    destruct (isinstance suffix_indicator t_str); [|apply raises_raise].
    destruct (isinstance unknown_token t_str); [|apply raises_raise].
    destruct (isinstance with_offsets t_bool); [|apply raises_raise].
    by destruct H as [|[|]].
  - intros -> -> -> ->. simpl. split.
    + intros z -> Hz.
      destruct (check_uint32_out z "" ltac:(lia)) as [msg ->]. by exists msg.
    + intros ->. rewrite check_uint32_in; [done|]. unfold UINT32_MAX. lia.
Qed.

Lemma check_wordpiece_tokenizer_contract_witness :
  raises (check_wordpiece_tokenizer_checks sig_wordpiece
            (Call [PVocab; PStr "##"; PInt (-1)] ∅)) ValueError ∧
  check_wordpiece_tokenizer_checks sig_wordpiece (Call [PVocab; PStr "##"; PInt 0] ∅)
  = Ok (Call [PVocab; PStr "##"; PInt 0] ∅) ∧
  raises (check_wordpiece_tokenizer_checks sig_wordpiece (Call [PNone] ∅)) ValueError ∧
  raises (check_wordpiece_tokenizer_checks sig_wordpiece (Call [PStr "vocab"] ∅))
    TypeError.
Proof.
  split_and!.
  - assert (parse_user_args sig_wordpiece (Call [PVocab; PStr "##"; PInt (-1)] ∅)
            = Ok [PVocab; PStr "##"; PInt (-1); PStr "[UNK]"; PBool false]) as Hp
      by (vm_compute; reflexivity).
    destruct (check_wordpiece_tokenizer_contract _ _ _ _ _ _ _ Hp)
      as (_ & _ & _ & _ & H).
    destruct (H eq_refl eq_refl eq_refl eq_refl) as [Hneg _].
    apply (Hneg (-1)); [reflexivity|lia].
  - assert (parse_user_args sig_wordpiece (Call [PVocab; PStr "##"; PInt 0] ∅)
            = Ok [PVocab; PStr "##"; PInt 0; PStr "[UNK]"; PBool false]) as Hp
      by (vm_compute; reflexivity).
    destruct (check_wordpiece_tokenizer_contract _ _ _ _ _ _ _ Hp)
      as (_ & _ & _ & _ & H).
    destruct (H eq_refl eq_refl eq_refl eq_refl) as [_ Hzero].
    by apply Hzero.
  - assert (parse_user_args sig_wordpiece (Call [PNone] ∅)
            = Ok [PNone; PStr "##"; PInt 100; PStr "[UNK]"; PBool false]) as Hp
      by (vm_compute; reflexivity).
    destruct (check_wordpiece_tokenizer_contract _ _ _ _ _ _ _ Hp) as (_ & H & _).
    by apply H.
  - assert (parse_user_args sig_wordpiece (Call [PStr "vocab"] ∅)
            = Ok [PStr "vocab"; PStr "##"; PInt 100; PStr "[UNK]"; PBool false]) as Hp
      by (vm_compute; reflexivity).
    destruct (check_wordpiece_tokenizer_contract _ _ _ _ _ _ _ Hp) as (_ & _ & H & _).
    by apply H.
Defined.

(** ** check_jieba_add_word *)

Lemma check_jieba_add_word_checks_eq (sig : signature) (c : call) (word freq : pyval) :
  parse_user_args sig c = Ok [word; freq] →
  check_jieba_add_word_checks sig c
  = if is_none word then raise ValueError "word is not provided."
    else if is_none freq then Ok c
    else (check_uint32 freq "";; Ok c).
Proof.
  intros Hparse. unfold check_jieba_add_word_checks. rewrite Hparse. simpl.
  destruct (is_none word); [done|]. by destruct (is_none freq).
Qed.

(** C10: check_jieba_add_word looks at word only to see that it is not
    None: whatever its type, the checks pass exactly when word is not None
    and freq is None or an integer of [0, UINT32_MAX], and the wrapped
    operation then runs on the caller's own call, word included. *)
Theorem check_jieba_add_word_contract (sig : signature) (c : call) (word freq : pyval) :
  parse_user_args sig c = Ok [word; freq] →
  (passes (check_jieba_add_word_checks sig c)
   ↔ word ≠ PNone ∧ (freq = PNone ∨ ∃ z, freq = PInt z ∧ 0 ≤ z ≤ UINT32_MAX)) ∧
  (word = PNone → raises (check_jieba_add_word_checks sig c) ValueError) ∧
  (∀ c', check_jieba_add_word_checks sig c = Ok c' → c' = c) ∧
  (word ≠ PNone → freq = PNone ∨ (∃ z, freq = PInt z ∧ 0 ≤ z ≤ UINT32_MAX) →
     ∀ W R (run : call → W → result R * W) (w : W),
       check_jieba_add_word (Method sig run) c w = run c w).
Proof.
  intros Hparse.
  assert (word ≠ PNone → freq = PNone ∨ (∃ z, freq = PInt z ∧ 0 ≤ z ≤ UINT32_MAX) →
          check_jieba_add_word_checks sig c = Ok c) as Hok.
  { intros Hw Hf. rewrite (check_jieba_add_word_checks_eq _ _ _ _ Hparse).
    destruct word; try done; simpl;
      (destruct Hf as [->|(zf & -> & Hz)]; [done|]; simpl;
       by rewrite check_uint32_in). }
  split_and!.
  - split.
    + rewrite (check_jieba_add_word_checks_eq _ _ _ _ Hparse). intros Hp.
      destruct (is_none_dec word) as [->|Hw]; [by destruct (not_passes_Raise _ Hp)|].
      split; [done|].
      destruct (is_none_dec freq) as [->|Hf]; [by left|right].
      apply (check_uint32_passes _ "").
      replace (is_none word) with false in Hp by (by destruct word).
      replace (is_none freq) with false in Hp by (by destruct freq).
      destruct (check_uint32 _ _) as [[]|]; [apply passes_Ok|].
      by destruct (not_passes_Raise _ Hp).
    + intros [Hw Hf]. rewrite Hok by done. apply passes_Ok.
  - intros ->. rewrite (check_jieba_add_word_checks_eq _ _ _ _ Hparse).
    apply raises_raise.
  - rewrite (check_jieba_add_word_checks_eq _ _ _ _ Hparse). intros c'.
    destruct (is_none word); [done|]. destruct (is_none freq); [by intros [= ->]|].
    destruct (check_uint32 _ _); [by intros [= ->]|done].
  - intros Hw Hf W R run w. unfold check_jieba_add_word, guarded. simpl.
    by rewrite Hok.
Qed.

Lemma check_jieba_add_word_contract_witness :
  check_jieba_add_word (logging sig_add_word) (Call [PInt 5] ∅) []
  = (Ok tt, [Call [PInt 5] ∅]) ∧
  check_jieba_add_word (logging sig_add_word) (Call [PList [PInt 1]; PInt 3] ∅) []
  = (Ok tt, [Call [PList [PInt 1]; PInt 3] ∅]) ∧
  raises (check_jieba_add_word_checks sig_add_word (Call [PNone] ∅)) ValueError.
Proof.
  split_and!.
  - assert (parse_user_args sig_add_word (Call [PInt 5] ∅) = Ok [PInt 5; PNone])
      as Hp by (vm_compute; reflexivity).
    destruct (check_jieba_add_word_contract _ _ _ _ Hp) as (_ & _ & _ & H).
    apply (H ltac:(done) (or_introl eq_refl) (list call) unit).
  - assert (parse_user_args sig_add_word (Call [PList [PInt 1]; PInt 3] ∅)
            = Ok [PList [PInt 1]; PInt 3]) as Hp by (vm_compute; reflexivity).
    destruct (check_jieba_add_word_contract _ _ _ _ Hp) as (_ & _ & _ & H).
    assert (PInt 3 = PNone ∨ ∃ z, PInt 3 = PInt z ∧ 0 ≤ z ≤ UINT32_MAX) as Hf.
    { right. exists 3. split; [reflexivity|]. unfold UINT32_MAX. lia. }
    apply (H ltac:(done) Hf (list call) unit).
  - assert (parse_user_args sig_add_word (Call [PNone] ∅) = Ok [PNone; PNone])
      as Hp by (vm_compute; reflexivity).
    destruct (check_jieba_add_word_contract _ _ _ _ Hp) as (_ & H & _).
    by apply H.
Defined.

(** ** Every checker: the same call gives the same outcome *)

(** A successful binding leaves no keyword argument outside the declared
    parameters. *)
Lemma bind_params_dom (sig : signature) (args : list pyval)
    (kwargs : gmap string pyval) (vals : list pyval) :
  bind_params sig args kwargs = Ok vals → dom kwargs ⊆ list_to_set sig.*1.
Proof.
  revert args kwargs vals.
  induction sig as [|[name dflt] sig IH]; intros args kwargs vals; simpl.
  - destruct args; [|done]. case_bool_decide as Hd; [|done]. intros _.
    rewrite Hd. done.
  - destruct args as [|a args].
    + destruct (kwargs !! name) as [v|] eqn:Hk.
      * destruct (bind_params sig [] (delete name kwargs)) as [vs|] eqn:Hb; [|done].
        intros _. apply IH in Hb. rewrite dom_delete_L in Hb.
        intros k Hk'. destruct (decide (k = name)) as [->|]; set_solver.
      * destruct dflt as [d|]; [|done].
        destruct (bind_params sig [] kwargs) as [vs|] eqn:Hb; [|done].
        intros _. apply IH in Hb. set_solver.
    + destruct (kwargs !! name) as [v|] eqn:Hk; [done|].
      destruct (bind_params sig args kwargs) as [vs|] eqn:Hb; [|done].
      intros _. apply IH in Hb. set_solver.
Qed.

(** The call check_ngram hands over binds to the normalized values. *)
Lemma parse_user_args_ngram_kwargs (sig : signature) (kwargs : gmap string pyval)
    (n left_pad right_pad separator : pyval) :
  sig.*1 = ["n"; "left_pad"; "right_pad"; "separator"] →
  dom kwargs ⊆ list_to_set sig.*1 →
  parse_user_args sig (Call [] (ngram_kwargs kwargs n left_pad right_pad separator))
  = Ok [n; left_pad; right_pad; separator].
Proof.
  intros Hsig Hdom. rewrite Hsig in Hdom.
  destruct sig as [|[s1 d1] [|[s2 d2] [|[s3 d3] [|[s4 d4] [|]]]]]; try done.
  simpl in Hsig. injection Hsig as -> -> -> ->.
  unfold parse_user_args. simpl c_args. simpl c_kwargs.
  set (K := ngram_kwargs kwargs n left_pad right_pad separator).
  assert (K !! "n" = Some n) as H1 by (unfold K, ngram_kwargs; by simplify_map_eq).
  assert (delete "n" K !! "left_pad" = Some left_pad) as H2
    by (unfold K, ngram_kwargs; by simplify_map_eq).
  assert (delete "left_pad" (delete "n" K) !! "right_pad" = Some right_pad) as H3
    by (unfold K, ngram_kwargs; by simplify_map_eq).
  assert (delete "right_pad" (delete "left_pad" (delete "n" K)) !! "separator"
          = Some separator) as H4
    by (unfold K, ngram_kwargs; by simplify_map_eq).
  assert (dom (delete "separator"
                 (delete "right_pad" (delete "left_pad" (delete "n" K)))) = ∅) as H5.
  { unfold K, ngram_kwargs. rewrite !dom_delete_L, !dom_insert_L. set_solver. }
  simpl. rewrite H1, H2, H3, H4, H5. done.
Qed.

Lemma check_ngram_checks_inv (sig : signature) (c c' : call) :
  check_ngram_checks sig c = Ok c' →
  ∃ n left_pad right_pad separator grams,
    parse_user_args sig c = Ok [n; left_pad; right_pad; separator] ∧
    (if isinstance n t_int then PList [n] else n) = PList grams ∧
    grams ≠ [] ∧ ngram_loop 0 grams = Ok tt ∧
    is_pad left_pad = true ∧ is_pad right_pad = true ∧
    pad_width_ok left_pad && pad_width_ok right_pad = true ∧
    type_check separator [t_str] (PStr "separator") = Ok tt ∧
    c' = Call [] (ngram_kwargs (c_kwargs c) (PList grams) left_pad right_pad separator).
Proof.
  unfold check_ngram_checks.
  destruct (parse_user_args sig c) as [vals|] eqn:Hparse; [simpl|done].
  destruct vals as [|n [|left_pad [|right_pad [|separator [|]]]]]; try done.
  destruct (if isinstance n t_int then PList [n] else n) as [| | | |grams| | | | | | | |]
    eqn:Hn; try done.
  destruct grams as [|g grams]; [done|].
  destruct (ngram_loop 0 (g :: grams)) as [[]|] eqn:Hloop; [simpl|done].
  destruct (is_pad left_pad) eqn:Hl; [simpl|done].
  destruct (is_pad right_pad) eqn:Hr; [simpl|done].
  destruct (pad_width_ok left_pad && pad_width_ok right_pad) eqn:Hw; [simpl|done].
  destruct (type_check separator [t_str] (PStr "separator")) as [[]|] eqn:Hs;
    [simpl|done].
  intros [= <-]. exists n, left_pad, right_pad, separator, (g :: grams).
  split_and!; done.
Qed.

(** Checking the call that check_ngram hands over gives that call again. *)
Lemma check_ngram_checks_idemp (sig : signature) (c c' : call) :
  sig.*1 = ["n"; "left_pad"; "right_pad"; "separator"] →
  check_ngram_checks sig c = Ok c' → check_ngram_checks sig c' = Ok c'.
Proof.
  intros Hsig Hc.
  destruct (check_ngram_checks_inv _ _ _ Hc)
    as (n & lp & rp & sep & grams & Hparse & Hn & Hne & Hloop & Hl & Hr & Hw & Hs & ->).
  apply bind_params_dom in Hparse.
  unfold check_ngram_checks.
  rewrite parse_user_args_ngram_kwargs by done. simpl.
  destruct grams as [|g grams]; [done|].
  rewrite Hloop, Hl, Hr, Hw, Hs. simpl.
  by rewrite ngram_kwargs_idemp.
Qed.

(** ** The checkers over the store *)

Lemma bind_params_load (σ : store) (sig : ssignature)
    (args : list sval) (kwargs : gmap string sval) :
  bind_params (load_sig σ sig) (load σ <$> args) (load σ <$> kwargs)
  = Shared.bind_params sig args kwargs ≫= λ vs : list sval, Ok (load σ <$> vs).
Proof.
  revert args kwargs. induction sig as [|[name dflt] sig IH]; intros args kwargs.
  - destruct args; [|done]. cbn. rewrite dom_fmap_L. by case_bool_decide.
  - cbn [load_sig fmap list_fmap bind_params Shared.bind_params fst snd].
    fold (load_sig σ sig). rewrite lookup_fmap.
    destruct args as [|a args]; cbn [fmap list_fmap].
    + destruct (kwargs !! name) as [v|] eqn:Hk; cbn [fmap option_fmap option_map].
      * pose proof (IH [] (delete name kwargs)) as IH'. cbn [fmap list_fmap] in IH'.
        rewrite <- fmap_delete, IH'. by destruct (Shared.bind_params _ _ _).
      * destruct dflt as [d|]; cbn [fmap option_fmap option_map]; [|done].
        pose proof (IH [] kwargs) as IH'. cbn [fmap list_fmap] in IH'.
        rewrite IH'. by destruct (Shared.bind_params _ _ _).
    + destruct (kwargs !! name) as [v|] eqn:Hk; cbn [fmap option_fmap option_map]; [done|].
      change (list_fmap _ _ (load σ) args) with (load σ <$> args).
      rewrite IH. by destruct (Shared.bind_params _ _ _).
Qed.

Lemma parse_user_args_load (σ : store) (sig : ssignature) (c : scall) :
  parse_user_args (load_sig σ sig) (load_call σ c)
  = Shared.bind_params sig (s_args c) (s_kwargs c)
    ≫= λ vs : list sval, Ok (load σ <$> vs).
Proof. apply bind_params_load. Qed.

Lemma check_unique_list_of_words_reads (σ : store) (words : sval)
    (arg_name : string) :
  reads (Shared.check_unique_list_of_words words arg_name) σ
    (check_unique_list_of_words (load σ words) arg_name).
Proof.
  unfold reads, Shared.check_unique_list_of_words, check_unique_list_of_words.
  cbn. destruct (type_check _ _ _) as [[]|] eqn:Htype; [|done]. cbn.
  destruct (load σ words); try done.
Qed.

Ltac shared_cbn :=
  cbn [run mbind mret prog_bind prog_ret query lift
       Shared.test Shared.isinstance Shared.is_none Shared.callable Shared.type_check
       Shared.type_check_list Shared.check_value Shared.check_positive
       Shared.check_uint32 Shared.when Shared.skip Shared.raise Shared.unpack_error
       Shared.elements_of Shared.name load fst snd
       result_bind result_ret fmap list_fmap].

Ltac reads_start :=
  intros σ sig c;
  match goal with
  | |- context [run (?s _ sig c) σ] => unfold s
  | |- context [run (?s sig c) σ] => unfold s
  end;
  match goal with
  | |- context [?p _ (load_sig σ sig) (load_call σ c)] => unfold p
  | |- context [?p (load_sig σ sig) (load_call σ c)] => unfold p
  end;
  rewrite parse_user_args_load; unfold Shared.parse_user_args;
  destruct (Shared.bind_params sig (s_args c) (s_kwargs c)) as [vals|];
  [|reflexivity];
  repeat (destruct vals as [|? vals]; try reflexivity);
  unfold when; shared_cbn.

Lemma run_bind {A B} (m : prog A) (k : A → prog B) (σ : store) :
  run (m ≫= k) σ
  = match run m σ with
    | (Ok a, σ') => run (k a) σ'
    | (Raise e, σ') => (Raise e, σ')
    end.
Proof. reflexivity. Qed.

Ltac reads_step :=
  rewrite ?run_bind;
  match goal with
  | |- context [run (Shared.check_unique_list_of_words ?w ?n) ?σ] =>
      rewrite (check_unique_list_of_words_reads σ w n)
  | |- _ = (?m ≫= _, _) =>
      let h := bind_head m in
      lazymatch h with
      | if ?b then _ else _ => destruct b
      | _ => destruct h as [?|?]
      end
  end; shared_cbn; try reflexivity.

Lemma check_basic_tokenizer_reads :
  reads_values Shared.check_basic_tokenizer_checks check_basic_tokenizer_checks.
Proof. reads_start. repeat reads_step. Qed.

Lemma check_lookup_reads :
  reads_values Shared.check_lookup_checks check_lookup_checks.
Proof. reads_start. repeat reads_step. Qed.

Lemma check_from_file_reads :
  reads_values Shared.check_from_file_checks check_from_file_checks.
Proof. reads_start. repeat reads_step. Qed.

Lemma check_from_list_reads :
  reads_values Shared.check_from_list_checks check_from_list_checks.
Proof. reads_start. repeat reads_step. Qed.

Lemma check_from_dict_reads :
  reads_values Shared.check_from_dict_checks check_from_dict_checks.
Proof.
  reads_start.
  match goal with |- context [load σ ?s] => destruct (load σ s) end;
    try reflexivity.
  repeat reads_step.
Qed.

Lemma check_jieba_init_reads :
  reads_values Shared.check_jieba_init_checks check_jieba_init_checks.
Proof. reads_start. repeat reads_step. Qed.

Lemma check_jieba_add_word_reads :
  reads_values Shared.check_jieba_add_word_checks check_jieba_add_word_checks.
Proof. reads_start. repeat reads_step. Qed.

Lemma check_jieba_add_dict_reads :
  reads_values Shared.check_jieba_add_dict_checks check_jieba_add_dict_checks.
Proof.
  intros σ sig c. unfold Shared.check_jieba_add_dict_checks, check_jieba_add_dict_checks.
  rewrite parse_user_args_load. unfold Shared.parse_user_args.
  by destruct (Shared.bind_params _ _ _).
Qed.

Lemma check_with_offsets_reads :
  reads_values Shared.check_with_offsets_checks check_with_offsets_checks.
Proof. reads_start. repeat reads_step. Qed.

Lemma check_unicode_script_tokenizer_reads :
  reads_values Shared.check_unicode_script_tokenizer_checks
    check_unicode_script_tokenizer_checks.
Proof. reads_start. repeat reads_step. Qed.

Lemma check_wordpiece_tokenizer_reads :
  reads_values Shared.check_wordpiece_tokenizer_checks check_wordpiece_tokenizer_checks.
Proof. reads_start. repeat reads_step. Qed.

Lemma check_regex_tokenizer_reads :
  reads_values Shared.check_regex_tokenizer_checks check_regex_tokenizer_checks.
Proof. reads_start. repeat reads_step. Qed.

Lemma check_bert_tokenizer_reads :
  reads_values Shared.check_bert_tokenizer_checks check_bert_tokenizer_checks.
Proof. reads_start. repeat reads_step. Qed.

Lemma check_pair_truncate_reads :
  reads_values Shared.check_pair_truncate_checks check_pair_truncate_checks.
Proof.
  intros σ sig c. unfold Shared.check_pair_truncate_checks, check_pair_truncate_checks.
  rewrite parse_user_args_load. unfold Shared.parse_user_args.
  by destruct (Shared.bind_params _ _ _).
Qed.

Lemma check_to_number_reads (number_type : list string) :
  reads_values (Shared.check_to_number_checks number_type)
    (check_to_number_checks number_type).
Proof.
  reads_start.
  match goal with |- context [load σ ?s] => destruct (load σ s) end;
    try reflexivity.
  repeat reads_step.
Qed.

Lemma check_python_tokenizer_reads :
  reads_values Shared.check_python_tokenizer_checks check_python_tokenizer_checks.
Proof. reads_start. repeat reads_step. Qed.

(** What a value stands for does not change when the store grows. *)
Lemma load_stable (σ σ' : store) (v : sval) :
  wf_val σ v → σ ⊆ σ' → load σ' v = load σ v.
Proof.
  destruct v as [p|l]; [done|]. intros (o & Ho & _) Hsub.
  unfold load. by rewrite (lookup_weaken _ _ _ _ Ho Hsub), Ho.
Qed.

Lemma wf_val_weaken (σ σ' : store) (v : sval) :
  wf_val σ v → σ ⊆ σ' → wf_val σ' v.
Proof.
  destruct v as [p|l]; [done|]. intros (o & Ho & Hdata) Hsub. exists o.
  split; [|done]. by apply (lookup_weaken _ _ _ _ Ho Hsub).
Qed.

Lemma wf_call_weaken (σ σ' : store) (sig : ssignature) (c : scall) :
  wf_call σ sig c → σ ⊆ σ' → wf_call σ' sig c.
Proof.
  intros (Ha & Hk & Hs) Hsub. split_and!.
  - eapply Forall_impl; [exact Ha|]. intros v Hv. by eapply wf_val_weaken.
  - intros k v Hv. eapply wf_val_weaken; [|exact Hsub]. by eapply Hk.
  - eapply Forall_impl; [exact Hs|]. intros [n [d|]] Hd; [|done].
    simpl in *. eapply wf_val_weaken; [exact Hd|exact Hsub].
Qed.

Lemma load_list_stable (σ σ' : store) (vs : list sval) :
  Forall (wf_val σ) vs → σ ⊆ σ' → load σ' <$> vs = load σ <$> vs.
Proof.
  intros Hwf Hsub. apply list_fmap_ext. intros i v Hv.
  apply load_stable; [|done]. by eapply Forall_lookup_1.
Qed.

Lemma load_map_stable (σ σ' : store) (kw : gmap string sval) :
  map_Forall (λ _, wf_val σ) kw → σ ⊆ σ' →
  load σ' <$> kw = load σ <$> kw.
Proof.
  intros Hwf Hsub. apply map_fmap_ext. intros k v Hv.
  apply load_stable; [|done]. by eapply Hwf.
Qed.

Lemma load_call_stable (σ σ' : store) (sig : ssignature) (c : scall) :
  wf_call σ sig c → σ ⊆ σ' → load_call σ' c = load_call σ c.
Proof.
  intros (Ha & Hk & _) Hsub. unfold load_call.
  by rewrite (load_list_stable _ _ _ Ha Hsub), (load_map_stable _ _ _ Hk Hsub).
Qed.

Lemma load_sig_stable (σ σ' : store) (sig : ssignature) (c : scall) :
  wf_call σ sig c → σ ⊆ σ' → load_sig σ' sig = load_sig σ sig.
Proof.
  intros (_ & _ & Hs) Hsub. unfold load_sig.
  apply list_fmap_ext. intros i [n [d|]] Hd; [|done]. simpl. do 2 f_equal.
  apply load_stable; [|done]. by apply (Forall_lookup_1 _ _ _ _ Hs Hd).
Qed.

(** The bound arguments are values of the call or defaults. *)
Lemma bind_params_wf (σ : store) (sig : ssignature)
    (args : list sval) (kwargs : gmap string sval) (vals : list sval) :
  Forall (wf_val σ) args →
  map_Forall (λ _, wf_val σ) kwargs →
  Forall (λ p : string * option sval, from_option (wf_val σ) True p.2) sig →
  Shared.bind_params sig args kwargs = Ok vals →
  Forall (wf_val σ) vals.
Proof.
  revert args kwargs vals.
  induction sig as [|[name dflt] sig IH]; intros args kwargs vals Ha Hk Hs Hb.
  - destruct args; [|done]. simpl in Hb. case_bool_decide; [|done].
    injection Hb as <-. constructor.
  - apply Forall_cons in Hs as [Hd Hs]. simpl in Hb.
    destruct args as [|a args].
    + destruct (kwargs !! name) as [v|] eqn:Hv.
      * destruct (Shared.bind_params sig [] (delete name kwargs)) as [vs|] eqn:Hvs;
          [|done].
        injection Hb as <-. constructor; [by eapply Hk|].
        eapply IH; [done| |done|exact Hvs].
        intros k w Hw. apply lookup_delete_Some in Hw as [_ Hw]. by eapply Hk.
      * destruct dflt as [d|]; [|done].
        destruct (Shared.bind_params sig [] kwargs) as [vs|] eqn:Hvs; [|done].
        injection Hb as <-. constructor; [done|]. by eapply IH.
    + apply Forall_cons in Ha as [Ha Has].
      destruct (kwargs !! name); [done|].
      destruct (Shared.bind_params sig args kwargs) as [vs|] eqn:Hvs; [|done].
      injection Hb as <-. constructor; [done|]. by eapply IH.
Qed.

Lemma insert_fresh_subseteq (σ : store) (o : object) :
  σ ⊆ <[fresh (dom σ) := o]> σ.
Proof. apply insert_subseteq, not_elem_of_dom, is_fresh. Qed.

Lemma refines_forwards (p : predicate_entry) (sig : signature) (c c' : call) :
  refines p → p_handed p = same_call → p_checks p sig c = Ok c' → c' = c.
Proof.
  intros Hrefines Hsame Hc. rewrite Hrefines, Hsame in Hc.
  destruct (parse_user_args sig c) as [vals|]; [|done]. simpl in Hc.
  destruct (first_failure _) as [[]|]; [|done]. by injection Hc as <-.
Qed.

Lemma reads_values_links (s : ssignature → scall → prog scall) (name : string)
    (checks : signature → call → result call)
    (predicates : list pyval → list (result unit)) :
  reads_values s checks →
  refines (PredicateEntry name checks predicates same_call) →
  links s checks.
Proof.
  intros Hreads Hrefines σ sig c _. rewrite Hreads. simpl. split; [done|].
  destruct (checks _ _) as [c'|] eqn:Hc; [|done]. simpl.
  by rewrite (refines_forwards _ _ _ _ Hrefines eq_refl Hc).
Qed.

Ltac reads_tail :=
  rewrite ?run_bind;
  match goal with
  | |- context [run (Shared.check_unique_list_of_words ?w ?n) ?σ] =>
      rewrite (check_unique_list_of_words_reads σ w n)
  | |- _ = (?m, _) =>
      let h := bind_head m in
      lazymatch h with
      | if ?b then _ else _ => destruct b
      | _ => destruct h as [?|?]
      end
  end; shared_cbn; try reflexivity.

Lemma from_dataset_rest_reads (σ : store) (top_k special_tokens special_first : sval) :
  run (Shared.from_dataset_rest top_k special_tokens special_first) σ
  = (from_dataset_rest (load σ top_k) (load σ special_tokens) (load σ special_first), σ).
Proof.
  unfold Shared.from_dataset_rest, from_dataset_rest. shared_cbn.
  repeat reads_tail.
Qed.

Lemma from_dataset_columns_run (σ : store) (columns : sval) :
  σ ⊆ (run (Shared.from_dataset_columns columns) σ).2
  ∧ ((run (Shared.from_dataset_columns columns) σ).1 ≫= λ _, Ok tt)
    = (from_dataset_columns (load σ columns) ≫= λ _, Ok tt).
Proof.
  unfold Shared.from_dataset_columns, from_dataset_columns. shared_cbn.
  destruct (is_none (load σ columns)); shared_cbn; [by split|].
  destruct (isinstance (load σ columns) t_list); cbn [negb]; shared_cbn; [by split|].
  unfold new_list. shared_cbn. rewrite lookup_insert_eq.
  destruct (type_check_list _ _ _) as [[]|];
    (split; [apply insert_fresh_subseteq|reflexivity]).
Qed.

Lemma check_from_dataset_links :
  links Shared.check_from_dataset_checks check_from_dataset_checks.
Proof.
  intros σ sig c Hwf.
  unfold Shared.check_from_dataset_checks, check_from_dataset_checks.
  rewrite parse_user_args_load. unfold Shared.parse_user_args.
  destruct (Shared.bind_params sig (s_args c) (s_kwargs c)) as [vals|] eqn:Hvals;
    [|by split].
  destruct Hwf as (Ha & Hk & Hs).
  pose proof (bind_params_wf _ _ _ _ _ Ha Hk Hs Hvals) as Hwf.
  repeat (destruct vals as [|? vals]; try (by split)).
  shared_cbn. rewrite !run_bind.
  destruct (from_dataset_columns_run σ s0) as [Hsub Hcol].
  destruct (run (Shared.from_dataset_columns s0) σ) as [r σ1]. simpl in Hsub, Hcol.
  destruct r as [col'|e]; destruct (from_dataset_columns (load σ s0)) as [?|?];
    try discriminate Hcol; [|by injection Hcol as ->].
  apply Forall_cons in Hwf as [_ Hwf]. apply Forall_cons in Hwf as [_ Hwf].
  apply Forall_cons in Hwf as [H1 Hwf]. apply Forall_cons in Hwf as [H2 Hwf].
  apply Forall_cons in Hwf as [H3 Hwf]. apply Forall_cons in Hwf as [H4 _].
  unfold Shared.from_dataset_freq_range. shared_cbn.
  rewrite (load_stable _ _ _ H1 Hsub).
  destruct (from_dataset_freq_range _) as [[]|]; [|by split].
  rewrite !run_bind, from_dataset_rest_reads.
  rewrite (load_stable _ _ _ H2 Hsub), (load_stable _ _ _ H3 Hsub),
    (load_stable _ _ _ H4 Hsub).
  destruct (from_dataset_rest _ _ _) as [[]|]; [|by split].
  shared_cbn. split; [done|]. simpl. f_equal.
  by apply (load_call_stable _ _ sig); [split_and!|].
Qed.

Lemma ngram_checks_reads (σ : store) (n left_pad right_pad separator : sval) :
  run (Shared.ngram_checks n left_pad right_pad separator) σ
  = (match load σ n with
     | PList ((_ :: _) as grams) => ngram_loop 0 grams
     | _ => raise ValueError "n needs to be a non-empty list of positive integers."
     end;;
     when (negb (is_pad (load σ left_pad)))
       (raise ValueError
          "left_pad needs to be a tuple of (str, int) str is pad token and int is pad_width.");;
     when (negb (is_pad (load σ right_pad)))
       (raise ValueError
          "right_pad needs to be a tuple of (str, int) str is pad token and int is pad_width.");;
     when (negb (pad_width_ok (load σ left_pad) && pad_width_ok (load σ right_pad)))
       (raise ValueError "padding width need to be positive numbers.");;
     type_check (load σ separator) [t_str] (PStr "separator"), σ).
Proof.
  unfold Shared.ngram_checks, when. shared_cbn.
  destruct (load σ n) as [| | | |[|gram grams]| | | | | | | |]; try reflexivity.
  repeat reads_tail.
Qed.

Lemma ngram_handed_run (σ : store) (kwargs : positive) (kw : gmap string sval)
    (n left_pad right_pad separator : sval) :
  σ !! kwargs = Some (OKwargs kw) →
  let kw' :=
    <["separator" := separator]>
      (<["right_pad" := right_pad]> (<["left_pad" := left_pad]> (<["n" := n]> kw))) in
  run (Shared.ngram_handed kwargs n left_pad right_pad separator) σ
  = (Ok (SCall [] kw'), <[kwargs := OKwargs kw']> σ).
Proof.
  intros Hkw kw'. unfold Shared.ngram_handed, setitem, unpack_kwargs. shared_cbn.
  rewrite Hkw. rewrite !lookup_insert_eq. by rewrite !insert_insert_eq.
Qed.

Lemma check_ngram_links : links Shared.check_ngram_checks check_ngram_checks.
Proof.
  intros σ sig c Hwf.
  unfold Shared.check_ngram_checks, check_ngram_checks.
  rewrite parse_user_args_load. unfold Shared.parse_user_args, new_kwargs.
  shared_cbn.
  set (lk := fresh (dom σ)). set (σ1 := <[lk := OKwargs (s_kwargs c)]> σ).
  assert (σ !! lk = None) as Hlk by apply not_elem_of_dom, is_fresh.
  assert (σ ⊆ σ1) as Hsub1 by by apply insert_subseteq.
  destruct (Shared.bind_params sig (s_args c) (s_kwargs c)) as [vals|] eqn:Hvals;
    [|by split].
  pose proof Hwf as (Ha & Hk & Hs).
  pose proof (bind_params_wf _ _ _ _ _ Ha Hk Hs Hvals) as Hvs.
  repeat (destruct vals as [|? vals]; try (by split)).
  apply Forall_cons in Hvs as [Hn Hvs]. apply Forall_cons in Hvs as [Hl Hvs].
  apply Forall_cons in Hvs as [Hr Hvs]. apply Forall_cons in Hvs as [Hp _].
  shared_cbn. rewrite (load_stable _ _ _ Hn Hsub1).
  set (nv := if isinstance (load σ s) t_int then PList [load σ s] else load σ s).
  match goal with
  | |- _ ∧ _ = ?rhs =>
      assert (∀ σ2 n',
                σ ⊆ σ2 → σ2 !! lk = Some (OKwargs (s_kwargs c)) →
                (∀ o, load (<[lk := o]> σ2) n' = nv) →
                σ ⊆ (run (Shared.ngram_checks n' s0 s1 s2
                          ≫= λ _, Shared.ngram_handed lk n' s0 s1 s2) σ2).2
                ∧ load_result
                    (run (Shared.ngram_checks n' s0 s1 s2
                          ≫= λ _, Shared.ngram_handed lk n' s0 s1 s2) σ2).2
                    (run (Shared.ngram_checks n' s0 s1 s2
                          ≫= λ _, Shared.ngram_handed lk n' s0 s1 s2) σ2).1
                  = rhs) as Htail
  end.
  { intros σ2 n' Hsub2 Hkw Hn'. clearbody nv.
    assert (load σ2 n' = nv) as Hn2.
    { rewrite <- (Hn' (OKwargs (s_kwargs c))). by rewrite insert_id. }
    rewrite run_bind, ngram_checks_reads, Hn2.
    rewrite (load_stable _ _ _ Hl Hsub2), (load_stable _ _ _ Hr Hsub2),
      (load_stable _ _ _ Hp Hsub2).
    repeat (match goal with
            | |- _ ∧ _ = ?m ≫= _ =>
                let h := bind_head m in destruct h as [[]|]
            end; cbn [mbind result_bind]; [|by split]).
    rewrite (ngram_handed_run σ2 lk _ _ _ _ _ Hkw). cbn [fst snd load_result].
    assert (σ ⊆ <[lk := OKwargs
                    (<["separator" := s2]>
                       (<["right_pad" := s1]>
                          (<["left_pad" := s0]> (<["n" := n']> (s_kwargs c)))))]> σ2)
      as Hsub3 by by apply insert_subseteq_r.
    split; [done|]. unfold load_call, ngram_kwargs. cbn [s_args s_kwargs c_kwargs fmap list_fmap].
    rewrite !fmap_insert, Hn', (load_stable _ _ _ Hl Hsub3), (load_stable _ _ _ Hr Hsub3),
      (load_stable _ _ _ Hp Hsub3), (load_map_stable _ _ _ Hk Hsub3).
    reflexivity. }
  subst nv. destruct (isinstance (load σ s) t_int).
  - unfold new_list. rewrite run_bind. cbn [run].
    set (ln := fresh (dom σ1)).
    assert (σ1 !! ln = None) as Hln by apply not_elem_of_dom, is_fresh.
    assert (lk ≠ ln) as Hne.
    { intros <-. subst σ1. by rewrite lookup_insert_eq in Hln. }
    apply Htail.
    + etrans; [exact Hsub1|]. by apply insert_subseteq.
    + rewrite lookup_insert_ne by done. subst σ1. by rewrite lookup_insert_eq.
    + intros o. unfold load at 1. rewrite lookup_insert_ne by done.
      rewrite lookup_insert_eq. cbn [fmap list_fmap].
      by rewrite (load_stable _ _ _ Hn Hsub1).
  - rewrite run_bind. cbn [run mret prog_ret]. apply Htail; [done| |].
    + subst σ1. by rewrite lookup_insert_eq.
    + intros o. apply load_stable; [done|]. by apply insert_subseteq_r.
Qed.

Lemma all_shared_link (number_type : list string) (s : shared_entry) :
  s ∈ all_shared number_type → links (sh_checks s) (sh_values s).
Proof.
  unfold all_shared. intros Hs.
  repeat (apply elem_of_cons in Hs as [->|Hs];
          [cbn [sh_checks sh_values];
           first
             [ apply check_from_dataset_links
             | apply check_ngram_links
             | exact (reads_values_links _ _ _ _ check_lookup_reads check_lookup_refines)
             | exact (reads_values_links _ _ _ _ check_from_file_reads check_from_file_refines)
             | exact (reads_values_links _ _ _ _ check_from_list_reads check_from_list_refines)
             | exact (reads_values_links _ _ _ _ check_from_dict_reads check_from_dict_refines)
             | exact (reads_values_links _ _ _ _ check_jieba_init_reads check_jieba_init_refines)
             | exact (reads_values_links _ _ _ _ check_jieba_add_word_reads
                        check_jieba_add_word_refines)
             | exact (reads_values_links _ _ _ _ check_jieba_add_dict_reads
                        check_jieba_add_dict_refines)
             | exact (reads_values_links _ _ _ _ check_with_offsets_reads
                        check_with_offsets_refines)
             | exact (reads_values_links _ _ _ _ check_unicode_script_tokenizer_reads
                        check_unicode_script_tokenizer_refines)
             | exact (reads_values_links _ _ _ _ check_wordpiece_tokenizer_reads
                        check_wordpiece_tokenizer_refines)
             | exact (reads_values_links _ _ _ _ check_regex_tokenizer_reads
                        check_regex_tokenizer_refines)
             | exact (reads_values_links _ _ _ _ check_basic_tokenizer_reads
                        check_basic_tokenizer_refines)
             | exact (reads_values_links _ _ _ _ check_bert_tokenizer_reads
                        check_bert_tokenizer_refines)
             | exact (reads_values_links _ _ _ _ check_pair_truncate_reads
                        check_pair_truncate_refines)
             | exact (reads_values_links _ _ _ _ (check_to_number_reads number_type)
                        (check_to_number_refines number_type))
             | exact (reads_values_links _ _ _ _ check_python_tokenizer_reads
                        check_python_tokenizer_refines) ]|]).
  by apply elem_of_nil in Hs.
Qed.

(** A write to the dictionary [kwargs] is a change of the store: a checker
    that wrote to a dictionary of the store it was entered with would not
    leave the store as it was. *)
Lemma setitem_changes_store (σ : store) (kwargs : positive) (kw : gmap string sval)
    (key : string) (v : sval) :
  σ !! kwargs = Some (OKwargs kw) → kw !! key ≠ Some v →
  ¬ σ ⊆ (run (setitem kwargs key v) σ).2.
Proof.
  intros Hkw Hkey Hsub. unfold setitem in Hsub. cbn [run] in Hsub.
  rewrite Hkw in Hsub. cbn [snd] in Hsub.
  pose proof (lookup_weaken _ _ _ _ Hkw Hsub) as Hl.
  rewrite lookup_insert_eq in Hl. injection Hl as Hl. apply Hkey.
  by rewrite <- Hl, lookup_insert_eq.
Qed.

(** C9: the checkers keep nothing from one call to the next and change no
    object of their caller.  The checkers over the store are the eighteen of
    the module.  For each of them, in every store and for every call whose
    references are objects of the store: running the checks leaves every
    object of the store as it was (the store only grows, by the list [[n]]
    or [[columns]] and the dictionary [kwargs] of the call); the outcome is
    the outcome of the checks over the values the arguments stand for, the
    same violation or the same bundle; running the same call a second time,
    in the store the first run left, gives the same violation or a bundle
    that stands for the same values; and so does running it in any other
    store in which the arguments and the defaults stand for the same
    values. *)
Theorem guards_deterministic (number_type : list string) :
  (∀ W R : Type,
     (λ s, (sh_name s, sh_values s)) <$> all_shared number_type
     = (λ g, (g_name g, g_checks g)) <$> all_guards number_type W R) ∧
  (∀ s : shared_entry, s ∈ all_shared number_type →
     ∀ (σ : store) (sig : ssignature) (c : scall),
       wf_call σ sig c →
       ∀ (r1 r2 : result scall) (σ1 σ2 : store),
         run (sh_checks s sig c) σ = (r1, σ1) →
         run (sh_checks s sig c) σ1 = (r2, σ2) →
         σ ⊆ σ1 ∧ σ1 ⊆ σ2
         ∧ load_result σ1 r1 = sh_values s (load_sig σ sig) (load_call σ c)
         ∧ load_result σ2 r2 = load_result σ1 r1) ∧
  (∀ s : shared_entry, s ∈ all_shared number_type →
     ∀ (σ σ' : store) (sig sig' : ssignature) (c c' : scall),
       wf_call σ sig c → wf_call σ' sig' c' →
       load_sig σ' sig' = load_sig σ sig → load_call σ' c' = load_call σ c →
       load_result (run (sh_checks s sig' c') σ').2 (run (sh_checks s sig' c') σ').1
       = load_result (run (sh_checks s sig c) σ).2 (run (sh_checks s sig c) σ).1).
Proof.
  split_and!.
  - reflexivity.
  - intros s Hs σ sig c Hwf r1 r2 σ1 σ2 Hrun1 Hrun2.
    pose proof (all_shared_link _ _ Hs) as Hlink.
    destruct (Hlink σ sig c Hwf) as [Hsub1 Hout1]. rewrite Hrun1 in Hsub1, Hout1.
    cbn [fst snd] in Hsub1, Hout1.
    pose proof (wf_call_weaken _ _ _ _ Hwf Hsub1) as Hwf1.
    destruct (Hlink σ1 sig c Hwf1) as [Hsub2 Hout2]. rewrite Hrun2 in Hsub2, Hout2.
    cbn [fst snd] in Hsub2, Hout2.
    split_and!; [done|done|done|].
    by rewrite Hout1, Hout2, (load_sig_stable _ _ _ c Hwf Hsub1),
      (load_call_stable _ _ sig _ Hwf Hsub1).
  - intros s Hs σ σ' sig sig' c c' Hwf Hwf' Hsig Hcall.
    pose proof (all_shared_link _ _ Hs) as Hlink.
    destruct (Hlink σ sig c Hwf) as [_ ->]. destruct (Hlink σ' sig' c' Hwf') as [_ ->].
    by rewrite Hsig, Hcall.
Qed.

Lemma guards_deterministic_witness :
  let σ : store := {[1%positive := OList [PInt 2; PInt 3]]} in
  let by_value := SCall [SVal (PInt 3)] ∅ in
  let by_reference := SCall [] {["n" := SRef 1%positive]} in
  let run1 := run (Shared.check_ngram_checks ssig_ngram by_value) σ in
  let run2 := run (Shared.check_ngram_checks ssig_ngram by_value) run1.2 in
  let run3 := run (Shared.check_ngram_checks ssig_ngram by_reference) σ in
  let run4 := run (Shared.check_ngram_checks ssig_ngram by_reference) run3.2 in
  (σ ⊆ run1.2 ∧ run1.2 ⊆ run2.2
   ∧ load_result run1.2 run1.1
     = check_ngram_checks (load_sig σ ssig_ngram) (load_call σ by_value)
   ∧ load_result run2.2 run2.1 = load_result run1.2 run1.1)
  ∧ run1.1 ≠ run2.1
  ∧ load_result run1.2 run1.1
    = Ok (Call [] (ngram_kwargs ∅ (PList [PInt 3]) (PTuple [PStr ""; PInt 0])
                     (PTuple [PStr ""; PInt 0]) (PStr " ")))
  ∧ (σ ⊆ run3.2 ∧ run3.2 ⊆ run4.2
     ∧ load_result run3.2 run3.1
       = check_ngram_checks (load_sig σ ssig_ngram) (load_call σ by_reference)
     ∧ load_result run4.2 run4.1 = load_result run3.2 run3.1)
  ∧ run4.2 !! 1%positive = Some (OList [PInt 2; PInt 3])
  ∧ load_result run4.2 run4.1
    = Ok (Call [] (ngram_kwargs ∅ (PList [PInt 2; PInt 3]) (PTuple [PStr ""; PInt 0])
                     (PTuple [PStr ""; PInt 0]) (PStr " "))).
Proof.
  intros σ by_value by_reference run1 run2 run3 run4.
  destruct (guards_deterministic []) as (_ & Htwice & _).
  assert (wf_call σ ssig_ngram by_value) as Hwf1.
  { split_and!; [by repeat constructor|apply map_Forall_empty|by repeat constructor]. }
  assert (wf_call σ ssig_ngram by_reference) as Hwf2.
  { split_and!; [constructor| |by repeat constructor].
    apply map_Forall_singleton. exists (OList [PInt 2; PInt 3]). by split. }
  assert (SharedEntry "check_ngram" Shared.check_ngram_checks check_ngram_checks
          ∈ all_shared []) as Hin
    by (by apply (list_elem_of_lookup_2 _ 14)).
  split; [|split; [|split; [|split; [|split]]]].
  - apply (Htwice _ Hin σ ssig_ngram by_value Hwf1 run1.1 run2.1 run1.2 run2.2);
      apply surjective_pairing.
  - intros Heq. vm_compute in Heq. discriminate Heq.
  - vm_compute. reflexivity.
  - apply (Htwice _ Hin σ ssig_ngram by_reference Hwf2 run3.1 run4.1 run3.2 run4.2);
      apply surjective_pairing.
  - vm_compute. reflexivity.
  - vm_compute. reflexivity.
Defined.

(** * Further properties of the checkers *)

(** ** Passing, step by step *)

Lemma passes_bind_const {A B} (m : result A) (k : result B) :
  passes (m ≫= λ _, k) ↔ passes m ∧ passes k.
Proof.
  destruct m as [a|e]; simpl.
  - split; [intros H; split; [apply passes_Ok|done] | by intros [_ H]].
  - split; [by intros ?%not_passes_Raise | by intros [?%not_passes_Raise _]].
Qed.

Lemma passes_when (cond : bool) (k : exn_kind) (msg : string) :
  passes (when cond (raise k msg)) ↔ cond = false.
Proof.
  destruct cond; simpl; split; try done.
  - by intros ?%not_passes_Raise.
  - intros _. apply passes_Ok.
Qed.

Lemma passes_unless_none (v : pyval) (body : result unit) :
  passes (if is_none v then Ok tt else body) ↔ v = PNone ∨ passes body.
Proof.
  destruct (is_none_dec v) as [->|Hv]; simpl.
  - split; [by left | intros _; apply passes_Ok].
  - replace (is_none v) with false by (by destruct v). naive_solver.
Qed.

Lemma passes_mret {A} (a : A) : passes (mret a : result A) ↔ True.
Proof. split; [done | intros _; apply passes_Ok]. Qed.

Lemma passes_type_check_one (arg : pyval) (t : pytype) (name : pyval) :
  t ≠ t_int →
  passes (type_check arg [t] name) ↔ isinstance arg t = true.
Proof.
  intros Ht.
  destruct t; try done; destruct arg; simpl; split;
    (done || (by intros ?%not_passes_Raise) || (intros _; apply passes_Ok)).
Qed.

Lemma passes_type_check_int (arg : pyval) (name : pyval) :
  passes (type_check arg [t_int] name) ↔ ∃ z, arg = PInt z.
Proof.
  destruct arg; simpl; split;
    try (by intros ?%not_passes_Raise); try (by intros [? ?]).
  - by eexists.
  - intros _. apply passes_Ok.
Qed.

Lemma type_check_raises (arg : pyval) (types : list pytype) (name : pyval) :
  ¬ passes (type_check arg types name) → raises (type_check arg types name) TypeError.
Proof.
  unfold type_check. destruct (_ || _); [intros _; apply raises_raise|].
  intros H. destruct H. apply passes_Ok.
Qed.


(** ** check_unique_list_of_words, in full *)

Lemma unique_words_loop_inv (l : list pyval) (name : string) (acc s : gset string) :
  unique_words_loop l name acc = Ok s →
  ∃ ws, l = PStr <$> ws ∧ NoDup ws ∧ (∀ w, w ∈ ws → w ∉ acc) ∧ s = acc ∪ list_to_set ws.
Proof.
  revert acc. induction l as [|word rest IH]; intros acc; simpl.
  - intros [= <-]. exists []. split_and!; [done|constructor|set_solver|set_solver].
  - destruct word as [| | |w| | | | | | | | |]; try done. simpl.
    case_bool_decide as Hw; [done|]. intros Hloop.
    destruct (IH _ Hloop) as (ws & -> & Hnd & Hacc & ->).
    exists (w :: ws). split_and!; [done| | |set_solver].
    + apply NoDup_cons. split; [|done]. intros Hin. apply (Hacc w Hin). set_solver.
    + intros x [->|Hx]%elem_of_cons; [done|]. specialize (Hacc x Hx). set_solver.
Qed.

Lemma check_unique_list_of_words_inv (words : pyval) (name : string) (s : gset string) :
  check_unique_list_of_words words name = Ok s →
  ∃ ws, words = PList (PStr <$> ws) ∧ NoDup ws ∧ s = list_to_set ws.
Proof.
  unfold check_unique_list_of_words.
  destruct words as [| | | |l| | | | | | | |]; try done. simpl. intros Hloop.
  destruct (unique_words_loop_inv _ _ _ _ Hloop) as (ws & -> & Hnd & _ & ->).
  exists ws. split_and!; [done..|set_solver].
Qed.

Lemma check_unique_list_of_words_passes (words : pyval) (name : string) :
  passes (check_unique_list_of_words words name)
  ↔ ∃ ws, words = PList (PStr <$> ws) ∧ NoDup ws.
Proof.
  split.
  - intros [s Hs]. destruct (check_unique_list_of_words_inv _ _ _ Hs) as (ws & ? & ? & _).
    by exists ws.
  - intros (ws & -> & Hnd). rewrite check_unique_list_of_words_ok by done.
    apply passes_Ok.
Qed.

(** X1: check_unique_list_of_words passes exactly on the lists of text
    without a repeated entry, and then returns the set of the words, which
    has as many members as the list has entries; a value that is not a list
    raises a TypeError, a list of text with a repeated entry a ValueError,
    and a list whose first offending entry is not text a TypeError. *)
Theorem check_unique_list_of_words_spec (words : pyval) (name : string) :
  (passes (check_unique_list_of_words words name)
   ↔ ∃ ws, words = PList (PStr <$> ws) ∧ NoDup ws) ∧
  (∀ s, check_unique_list_of_words words name = Ok s →
     ∃ ws, words = PList (PStr <$> ws) ∧ s = list_to_set ws ∧ size s = length ws) ∧
  (isinstance words t_list = false →
     raises (check_unique_list_of_words words name) TypeError) ∧
  (∀ ws, words = PList (PStr <$> ws) → ¬ NoDup ws →
     raises (check_unique_list_of_words words name) ValueError) ∧
  (∀ ws v rest, words = PList ((PStr <$> ws) ++ v :: rest)%list → NoDup ws →
     isinstance v t_str = false →
     raises (check_unique_list_of_words words name) TypeError).
Proof.
  split_and!.
  - apply check_unique_list_of_words_passes.
  - intros s Hs. destruct (check_unique_list_of_words_inv _ _ _ Hs) as (ws & -> & Hnd & ->).
    exists ws. split_and!; [done..|]. by apply size_list_to_set.
  - intros Hl. destruct words; try done; by eexists.
  - intros ws -> Hdup. destruct (first_duplicate ws Hdup) as (l1 & w & l2 & -> & Hnd & Hw).
    rewrite check_unique_list_of_words_dup by done. apply raises_raise.
  - intros ws v rest -> Hnd Hv. unfold check_unique_list_of_words. simpl.
    assert (∀ acc, (∀ w, w ∈ ws → w ∉ acc) →
              raises (unique_words_loop ((PStr <$> ws) ++ v :: rest)%list name acc)
                TypeError) as Hloop; [|apply Hloop; set_solver].
    induction ws as [|w ws IH]; intros acc Hacc; simpl.
    + destruct v; try done; by eexists.
    + apply NoDup_cons in Hnd as [Hw Hnd].
      rewrite bool_decide_eq_false_2 by (apply Hacc; set_solver).
      apply IH; [done|]. intros x Hx. specialize (Hacc x). set_solver.
Qed.

(** ** check_from_list and check_from_file, in full *)

(** X2: check_from_list passes exactly when word_list is a list of text
    without a repeated entry, special_tokens is None or such a list sharing
    no word with word_list, and special_first is boolean; a word_list that
    is not a list raises a TypeError, and so does a special_first that is
    not boolean once the lists are accepted. *)
Theorem check_from_list_passes (sig : signature) (c : call)
    (word_list special_tokens special_first : pyval) :
  parse_user_args sig c = Ok [word_list; special_tokens; special_first] →
  (passes (check_from_list_checks sig c)
   ↔ ∃ ws, word_list = PList (PStr <$> ws) ∧ NoDup ws
       ∧ (special_tokens = PNone
          ∨ ∃ ts, special_tokens = PList (PStr <$> ts) ∧ NoDup ts
               ∧ ∀ w, w ∈ ws → w ∉ ts)
       ∧ isinstance special_first t_bool = true) ∧
  (isinstance word_list t_list = false →
     raises (check_from_list_checks sig c) TypeError) ∧
  (∀ ws, word_list = PList (PStr <$> ws) → NoDup ws →
     special_tokens = PNone
     ∨ (∃ ts, special_tokens = PList (PStr <$> ts) ∧ NoDup ts
           ∧ ∀ w, w ∈ ws → w ∉ ts) →
     isinstance special_first t_bool = false →
     raises (check_from_list_checks sig c) TypeError).
Proof.
  intros Hparse. unfold check_from_list_checks. rewrite Hparse, bind_Ok.
  cbv beta iota. split_and!.
  - split.
    + destruct (check_unique_list_of_words word_list "word_list") as [word_set|]
        eqn:Hws; [|by intros ?%not_passes_Raise].
      destruct (check_unique_list_of_words_inv _ _ _ Hws) as (ws & -> & Hnd & ->).
      rewrite bind_Ok, !passes_bind_const, passes_mret.
      rewrite (passes_type_check_one _ t_bool) by done.
      intros (Hst & Hsf & _). exists ws. split_and!; [done..| |done].
      destruct (is_none_dec special_tokens) as [->|Hn]; [by left|right].
      replace (is_none special_tokens) with false in Hst by (by destruct special_tokens).
      destruct (check_unique_list_of_words special_tokens "special_tokens")
        as [token_set|] eqn:Hts; [|by destruct (not_passes_Raise _ Hst)].
      destruct (check_unique_list_of_words_inv _ _ _ Hts) as (ts & -> & Hndt & ->).
      rewrite bind_Ok in Hst. exists ts. split_and!; [done..|].
      case_bool_decide as Hi; [by destruct (not_passes_Raise _ Hst)|].
      intros w Hw Hw'. set_solver.
    + intros (ws & -> & Hnd & Hst & Hsf).
      rewrite check_unique_list_of_words_ok, bind_Ok by done.
      rewrite !passes_bind_const, passes_mret.
      rewrite (passes_type_check_one _ t_bool) by done. split_and!; [|done..].
      destruct Hst as [->|(ts & -> & Hndt & Hdisj)]; [apply passes_Ok|]. simpl.
      rewrite check_unique_list_of_words_ok, bind_Ok by done.
      rewrite bool_decide_eq_false_2; [apply passes_Ok|].
      intros Hne. apply Hne. set_solver.
  - intros Hl. destruct word_list; try done; by eexists.
  - intros ws -> Hnd Hst Hsf.
    rewrite check_unique_list_of_words_ok, bind_Ok by done.
    destruct Hst as [->|(ts & -> & Hndt & Hdisj)]; simpl.
    + destruct special_first; try done; by eexists.
    + rewrite check_unique_list_of_words_ok, bind_Ok by done.
      rewrite bool_decide_eq_false_2 by (intros Hne; apply Hne; set_solver).
      simpl. destruct special_first; try done; by eexists.
Qed.

Lemma check_from_list_passes_witness :
  passes (check_from_list_checks sig_from_list
            (Call [PList [PStr "a"; PStr "b"]] ∅)) ∧
  raises (check_from_list_checks sig_from_list (Call [PStr "ab"] ∅)) TypeError ∧
  raises (check_from_list_checks sig_from_list
            (Call [PList [PStr "a"; PStr "b"]; PNone; PInt 0] ∅)) TypeError ∧
  raises (check_from_list_checks sig_from_list
            (Call [PList [PStr "a"; PStr "b"]; PList [PStr "c"]; PInt 0] ∅))
    TypeError.
Proof.
  split_and!.
  - assert (parse_user_args sig_from_list (Call [PList [PStr "a"; PStr "b"]] ∅)
            = Ok [PList (PStr <$> ["a"; "b"]); PNone; PBool true]) as Hp
      by (vm_compute; reflexivity).
    destruct (check_from_list_passes _ _ _ _ _ Hp) as (H & _ & _).
    apply H. exists ["a"; "b"]. split_and!; [done| |by left|done].
    by apply (bool_decide_unpack _); vm_compute.
  - assert (parse_user_args sig_from_list (Call [PStr "ab"] ∅)
            = Ok [PStr "ab"; PNone; PBool true]) as Hp by (vm_compute; reflexivity).
    destruct (check_from_list_passes _ _ _ _ _ Hp) as (_ & H & _). by apply H.
  - assert (parse_user_args sig_from_list
              (Call [PList [PStr "a"; PStr "b"]; PNone; PInt 0] ∅)
            = Ok [PList (PStr <$> ["a"; "b"]); PNone; PInt 0]) as Hp
      by (vm_compute; reflexivity).
    destruct (check_from_list_passes _ _ _ _ _ Hp) as (_ & _ & H).
    apply (H ["a"; "b"]); try done; [|by left].
    by apply (bool_decide_unpack _); vm_compute.
  - assert (parse_user_args sig_from_list
              (Call [PList [PStr "a"; PStr "b"]; PList [PStr "c"]; PInt 0] ∅)
            = Ok [PList (PStr <$> ["a"; "b"]); PList (PStr <$> ["c"]); PInt 0]) as Hp
      by (vm_compute; reflexivity).
    destruct (check_from_list_passes _ _ _ _ _ Hp) as (_ & _ & H).
    apply (H ["a"; "b"]); try done.
    + by apply (bool_decide_unpack _); vm_compute.
    + right. exists ["c"]. split_and!; [done| |set_solver].
      by apply (bool_decide_unpack _); vm_compute.
Defined.




(** ** check_lookup, check_from_dict and check_jieba_init *)

Ltac passes_steps :=
  rewrite ?passes_bind_const, ?passes_when, ?passes_unless_none, ?passes_mret,
    ?negb_false_iff.

(** X4: check_lookup passes exactly when vocab is a Vocab object and
    unknown_token is None or text; every failure is a TypeError (a vocab of
    None included), and an unknown_token that is not text is the failure
    reported, whatever vocab is. *)
Theorem check_lookup_contract (sig : signature) (c : call) (vocab unknown_token : pyval) :
  parse_user_args sig c = Ok [vocab; unknown_token] →
  (passes (check_lookup_checks sig c)
   ↔ vocab = PVocab ∧ (unknown_token = PNone ∨ isinstance unknown_token t_str = true)) ∧
  (¬ passes (check_lookup_checks sig c) → raises (check_lookup_checks sig c) TypeError) ∧
  (unknown_token ≠ PNone → isinstance unknown_token t_str = false →
     check_lookup_checks sig c
     = Raise (Exn TypeError
                ("Argument unknown_token with value " ++ py_str unknown_token
                   ++ " is not of type (<class 'str'>,)."))).
Proof.
  intros Hparse. unfold check_lookup_checks. rewrite Hparse, bind_Ok.
  cbv beta iota. split_and!.
  - passes_steps. rewrite !passes_type_check_one by done.
    rewrite isinstance_Vocab. naive_solver.
  - intros Hnp.
    destruct unknown_token, vocab; simpl in *; try (by eexists);
      destruct Hnp; apply passes_Ok.
  - intros Hn Hs. destruct unknown_token; done.
Qed.

Lemma check_lookup_contract_witness :
  passes (check_lookup_checks sig_lookup (Call [PVocab] ∅)) ∧
  raises (check_lookup_checks sig_lookup (Call [PNone] ∅)) TypeError ∧
  check_lookup_checks sig_lookup (Call [PNone; PInt 3] ∅)
  = Raise (Exn TypeError
             "Argument unknown_token with value 3 is not of type (<class 'str'>,).").
Proof.
  split_and!.
  - assert (parse_user_args sig_lookup (Call [PVocab] ∅) = Ok [PVocab; PNone]) as Hp
      by (vm_compute; reflexivity).
    destruct (check_lookup_contract _ _ _ _ Hp) as (H & _ & _).
    apply H. split; [done|by left].
  - assert (parse_user_args sig_lookup (Call [PNone] ∅) = Ok [PNone; PNone]) as Hp
      by (vm_compute; reflexivity).
    destruct (check_lookup_contract _ _ _ _ Hp) as (Hiff & H & _).
    apply H. rewrite Hiff. by intros [? _].
  - assert (parse_user_args sig_lookup (Call [PNone; PInt 3] ∅) = Ok [PNone; PInt 3])
      as Hp by (vm_compute; reflexivity).
    destruct (check_lookup_contract _ _ _ _ Hp) as (_ & _ & H).
    by rewrite H.
Defined.

Lemma from_dict_loop_passes (items : list (pyval * pyval)) :
  passes (from_dict_loop items)
  ↔ Forall (λ kv, isinstance kv.1 t_str = true
                  ∧ ∃ z, kv.2 = PInt z ∧ 0 ≤ z ≤ INT32_MAX) items.
Proof.
  induction items as [|[word word_id] items IH]; cbn [from_dict_loop].
  - split; [constructor | intros _; apply passes_Ok].
  - rewrite Forall_cons, <- IH. passes_steps.
    rewrite (passes_type_check_one _ t_str), passes_type_check_int by done.
    simpl. split.
    + intros (Hs & [z ->] & Hz%check_value_passes_int & Hrest). naive_solver.
    + intros ((Hs & z & -> & Hz) & Hrest).
      split_and!; [done|by eexists|by apply check_value_passes_int|done].
Qed.

Lemma from_dict_loop_bad_id (items : list (pyval * pyval)) (word : string) (z : Z)
    (rest : list (pyval * pyval)) :
  passes (from_dict_loop items) → ¬ (0 ≤ z ≤ INT32_MAX) →
  raises (from_dict_loop (items ++ (PStr word, PInt z) :: rest)%list) ValueError.
Proof.
  intros Hitems Hz.
  induction items as [|[k v] items IH]; cbn [from_dict_loop app].
  - simpl. destruct (check_value_out (PInt z) 0 INT32_MAX z "word_id" eq_refl Hz)
      as [msg ->]. by exists msg.
  - cbn [from_dict_loop] in Hitems. revert Hitems. passes_steps.
    intros ([[] ->] & [[] ->] & [[] ->] & Hrest). rewrite !bind_Ok. by apply IH.
Qed.

(** X5: check_from_dict passes exactly when word_dict is a dict whose
    every key is text and whose every value is an integer of
    [0, INT32_MAX] (so the empty dict passes, and two words may share an
    id); a value that is not a dict raises a TypeError, and an id outside
    the range after valid entries a ValueError. *)
Theorem check_from_dict_contract (sig : signature) (c : call) (word_dict : pyval) :
  parse_user_args sig c = Ok [word_dict] →
  (passes (check_from_dict_checks sig c)
   ↔ ∃ items, word_dict = PDict items
       ∧ Forall (λ kv, isinstance kv.1 t_str = true
                       ∧ ∃ z, kv.2 = PInt z ∧ 0 ≤ z ≤ INT32_MAX) items) ∧
  (isinstance word_dict t_dict = false →
     raises (check_from_dict_checks sig c) TypeError) ∧
  (∀ items word z rest,
     word_dict = PDict (items ++ (PStr word, PInt z) :: rest)%list →
     passes (from_dict_loop items) → ¬ (0 ≤ z ≤ INT32_MAX) →
     raises (check_from_dict_checks sig c) ValueError).
Proof.
  intros Hparse. unfold check_from_dict_checks. rewrite Hparse, bind_Ok.
  cbv beta iota. split_and!.
  - passes_steps. rewrite (passes_type_check_one _ t_dict) by done. split.
    + intros (Hd & Hloop & _). destruct word_dict as [| | | | | |items| | | | | |]; try done.
      exists items. split; [done|]. by apply from_dict_loop_passes.
    + intros (items & -> & Hall). split_and!; [done| |done].
      by apply from_dict_loop_passes.
  - intros Hd. destruct word_dict; try done; by eexists.
  - intros items word z rest -> Hitems Hz. simpl.
    destruct (from_dict_loop_bad_id items word z rest Hitems Hz) as [msg ->].
    by exists msg.
Qed.

Lemma check_from_dict_contract_witness :
  passes (check_from_dict_checks sig_from_dict (Call [PDict []] ∅)) ∧
  passes (check_from_dict_checks sig_from_dict
            (Call [PDict [(PStr "home", PInt 3); (PStr "the", PInt 3)]] ∅)) ∧
  raises (check_from_dict_checks sig_from_dict (Call [PList []] ∅)) TypeError ∧
  raises (check_from_dict_checks sig_from_dict
            (Call [PDict [(PStr "home", PInt 3); (PStr "the", PInt (-1))]] ∅))
    ValueError.
Proof.
  split_and!.
  - assert (parse_user_args sig_from_dict (Call [PDict []] ∅) = Ok [PDict []]) as Hp
      by (vm_compute; reflexivity).
    destruct (check_from_dict_contract _ _ _ Hp) as (H & _ & _).
    apply H. exists []. split; [done|constructor].
  - assert (parse_user_args sig_from_dict
              (Call [PDict [(PStr "home", PInt 3); (PStr "the", PInt 3)]] ∅)
            = Ok [PDict [(PStr "home", PInt 3); (PStr "the", PInt 3)]]) as Hp
      by (vm_compute; reflexivity).
    destruct (check_from_dict_contract _ _ _ Hp) as (H & _ & _).
    apply H. eexists. split; [done|].
    repeat constructor; simpl; try (exists 3; split; [done|unfold INT32_MAX; lia]).
  - assert (parse_user_args sig_from_dict (Call [PList []] ∅) = Ok [PList []]) as Hp
      by (vm_compute; reflexivity).
    destruct (check_from_dict_contract _ _ _ Hp) as (_ & H & _). by apply H.
  - assert (parse_user_args sig_from_dict
              (Call [PDict [(PStr "home", PInt 3); (PStr "the", PInt (-1))]] ∅)
            = Ok [PDict [(PStr "home", PInt 3); (PStr "the", PInt (-1))]]) as Hp
      by (vm_compute; reflexivity).
    destruct (check_from_dict_contract _ _ _ Hp) as (_ & _ & H).
    apply (H [(PStr "home", PInt 3)] "the" (-1) []); [done| |lia].
    vm_compute. by eexists.
Defined.

(** X6: check_jieba_init passes exactly when hmm_path and mp_path are text
    and with_offsets is boolean, whatever the third argument (the mode) is;
    a path of None raises a ValueError, a path of another type a TypeError,
    and hmm_path is looked at before mp_path. *)
Theorem check_jieba_init_contract (sig : signature) (c : call)
    (hmm_path mp_path mode with_offsets : pyval) :
  parse_user_args sig c = Ok [hmm_path; mp_path; mode; with_offsets] →
  (passes (check_jieba_init_checks sig c)
   ↔ isinstance hmm_path t_str = true ∧ isinstance mp_path t_str = true
     ∧ isinstance with_offsets t_bool = true) ∧
  (hmm_path = PNone → raises (check_jieba_init_checks sig c) ValueError) ∧
  (hmm_path ≠ PNone → isinstance hmm_path t_str = false →
     raises (check_jieba_init_checks sig c) TypeError) ∧
  (isinstance hmm_path t_str = true → mp_path = PNone →
     raises (check_jieba_init_checks sig c) ValueError) ∧
  (isinstance hmm_path t_str = true → mp_path ≠ PNone →
   isinstance mp_path t_str = false →
     raises (check_jieba_init_checks sig c) TypeError) ∧
  (isinstance hmm_path t_str = true → isinstance mp_path t_str = true →
   isinstance with_offsets t_bool = false →
     raises (check_jieba_init_checks sig c) TypeError).
Proof.
  intros Hparse. unfold check_jieba_init_checks. rewrite Hparse, bind_Ok.
  cbv beta iota. split_and!.
  - passes_steps. split.
    + naive_solver.
    + intros (Hh & Hm & Hw). split_and!; try done.
      * by destruct hmm_path.
      * by destruct mp_path.
  - intros ->. apply raises_raise.
  - intros Hn Hs. destruct hmm_path; try done; apply raises_raise.
  - intros [s ->]%isinstance_str ->. apply raises_raise.
  - intros [s ->]%isinstance_str Hn Hs. destruct mp_path; try done; apply raises_raise.
  - intros [s ->]%isinstance_str [s' ->]%isinstance_str Hw.
    destruct with_offsets; try done; apply raises_raise.
Qed.

Lemma check_jieba_init_contract_witness :
  passes (check_jieba_init_checks sig_jieba_init
            (Call [PStr "hmm.utf8"; PStr "jieba.dict.utf8"; PInt 42] ∅)) ∧
  raises (check_jieba_init_checks sig_jieba_init (Call [PNone; PNone] ∅)) ValueError ∧
  raises (check_jieba_init_checks sig_jieba_init (Call [PStr "hmm.utf8"; PInt 1] ∅))
    TypeError.
Proof.
  split_and!.
  - assert (parse_user_args sig_jieba_init
              (Call [PStr "hmm.utf8"; PStr "jieba.dict.utf8"; PInt 42] ∅)
            = Ok [PStr "hmm.utf8"; PStr "jieba.dict.utf8"; PInt 42; PBool false]) as Hp
      by (vm_compute; reflexivity).
    destruct (check_jieba_init_contract _ _ _ _ _ _ Hp) as (H & _). by apply H.
  - assert (parse_user_args sig_jieba_init (Call [PNone; PNone] ∅)
            = Ok [PNone; PNone; PObject "JiebaMode"; PBool false]) as Hp
      by (vm_compute; reflexivity).
    destruct (check_jieba_init_contract _ _ _ _ _ _ Hp) as (_ & H & _). by apply H.
  - assert (parse_user_args sig_jieba_init (Call [PStr "hmm.utf8"; PInt 1] ∅)
            = Ok [PStr "hmm.utf8"; PInt 1; PObject "JiebaMode"; PBool false]) as Hp
      by (vm_compute; reflexivity).
    destruct (check_jieba_init_contract _ _ _ _ _ _ Hp) as (_ & _ & _ & _ & H & _).
    by apply H.
Defined.

(** ** The tokenizer checkers *)

Lemma check_wordpiece_tokenizer_passes (sig : signature) (c : call)
    (vocab suffix_indicator max_bytes_per_token unknown_token with_offsets : pyval) :
  parse_user_args sig c
  = Ok [vocab; suffix_indicator; max_bytes_per_token; unknown_token; with_offsets] →
  passes (check_wordpiece_tokenizer_checks sig c)
  ↔ vocab = PVocab ∧ isinstance suffix_indicator t_str = true
    ∧ isinstance unknown_token t_str = true ∧ isinstance with_offsets t_bool = true
    ∧ ∃ z, max_bytes_per_token = PInt z ∧ 0 ≤ z ≤ UINT32_MAX.
Proof.
  intros Hparse. unfold check_wordpiece_tokenizer_checks. rewrite Hparse, bind_Ok.
  cbv beta iota. passes_steps. rewrite check_uint32_passes, isinstance_Vocab.
  split; [naive_solver|]. intros (-> & ? & ? & ? & ?). naive_solver.
Qed.

Lemma check_basic_tokenizer_passes (sig : signature) (c : call)
    (lower_case keep_whitespace normalization_form preserve_unused with_offsets : pyval) :
  parse_user_args sig c
  = Ok [lower_case; keep_whitespace; normalization_form; preserve_unused; with_offsets] →
  passes (check_basic_tokenizer_checks sig c)
  ↔ isinstance lower_case t_bool = true ∧ isinstance keep_whitespace t_bool = true
    ∧ isinstance preserve_unused t_bool = true ∧ isinstance with_offsets t_bool = true.
Proof.
  intros Hparse. unfold check_basic_tokenizer_checks. rewrite Hparse, bind_Ok.
  cbv beta iota. passes_steps. naive_solver.
Qed.

(** X7: check_bert_tokenizer accepts exactly what check_wordpiece_tokenizer
    and check_basic_tokenizer both accept on their shares of the arguments:
    vocab a Vocab object, suffix_indicator and unknown_token text,
    max_bytes_per_token an integer of [0, UINT32_MAX], and the four flags
    boolean; the normalization form is looked at by neither. *)
Theorem check_bert_tokenizer_is_union (sig_b sig_w sig_a : signature) (c_b c_w c_a : call)
    (vocab suffix_indicator max_bytes_per_token unknown_token lower_case
       keep_whitespace normalization_form preserve_unused_token with_offsets : pyval) :
  parse_user_args sig_b c_b
  = Ok [vocab; suffix_indicator; max_bytes_per_token; unknown_token; lower_case;
        keep_whitespace; normalization_form; preserve_unused_token; with_offsets] →
  parse_user_args sig_w c_w
  = Ok [vocab; suffix_indicator; max_bytes_per_token; unknown_token; with_offsets] →
  parse_user_args sig_a c_a
  = Ok [lower_case; keep_whitespace; normalization_form; preserve_unused_token;
        with_offsets] →
  (passes (check_bert_tokenizer_checks sig_b c_b)
   ↔ passes (check_wordpiece_tokenizer_checks sig_w c_w)
     ∧ passes (check_basic_tokenizer_checks sig_a c_a)) ∧
  (passes (check_bert_tokenizer_checks sig_b c_b)
   ↔ vocab = PVocab ∧ isinstance suffix_indicator t_str = true
     ∧ (∃ z, max_bytes_per_token = PInt z ∧ 0 ≤ z ≤ UINT32_MAX)
     ∧ isinstance unknown_token t_str = true
     ∧ isinstance lower_case t_bool = true ∧ isinstance keep_whitespace t_bool = true
     ∧ isinstance preserve_unused_token t_bool = true
     ∧ isinstance with_offsets t_bool = true).
Proof.
  intros Hb Hw Ha.
  rewrite (check_wordpiece_tokenizer_passes _ _ _ _ _ _ _ Hw).
  rewrite (check_basic_tokenizer_passes _ _ _ _ _ _ _ Ha).
  assert (passes (check_bert_tokenizer_checks sig_b c_b)
          ↔ vocab = PVocab ∧ isinstance suffix_indicator t_str = true
            ∧ (∃ z, max_bytes_per_token = PInt z ∧ 0 ≤ z ≤ UINT32_MAX)
            ∧ isinstance unknown_token t_str = true
            ∧ isinstance lower_case t_bool = true
            ∧ isinstance keep_whitespace t_bool = true
            ∧ isinstance preserve_unused_token t_bool = true
            ∧ isinstance with_offsets t_bool = true) as Hiff.
  { unfold check_bert_tokenizer_checks. rewrite Hb, bind_Ok. cbv beta iota.
    passes_steps. rewrite check_uint32_passes, isinstance_Vocab.
    split; [naive_solver|].
    intros (-> & ? & (z & -> & ?) & ? & ? & ? & ? & ?). naive_solver. }
  split; [|done]. rewrite Hiff. naive_solver.
Qed.

Lemma check_bert_tokenizer_is_union_witness :
  passes (check_bert_tokenizer_checks sig_bert (Call [PVocab] ∅)) ∧
  ¬ passes (check_bert_tokenizer_checks sig_bert
              (Call [PVocab] {["lower_case" := PInt 1]})).
Proof.
  assert (parse_user_args sig_wordpiece (Call [PVocab] ∅)
          = Ok [PVocab; PStr "##"; PInt 100; PStr "[UNK]"; PBool false]) as Hw
    by (vm_compute; reflexivity).
  split.
  - assert (parse_user_args sig_bert (Call [PVocab] ∅)
            = Ok [PVocab; PStr "##"; PInt 100; PStr "[UNK]"; PBool false; PBool false;
                  PObject "NormalizeForm"; PBool true; PBool false]) as Hb
      by (vm_compute; reflexivity).
    assert (parse_user_args sig_basic (Call [] ∅)
            = Ok [PBool false; PBool false; PObject "NormalizeForm"; PBool true;
                  PBool false]) as Ha by (vm_compute; reflexivity).
    destruct (check_bert_tokenizer_is_union _ _ _ _ _ _ _ _ _ _ _ _ _ _ _ Hb Hw Ha)
      as [H _].
    apply H. split; vm_compute; by eexists.
  - assert (parse_user_args sig_bert (Call [PVocab] {["lower_case" := PInt 1]})
            = Ok [PVocab; PStr "##"; PInt 100; PStr "[UNK]"; PInt 1; PBool false;
                  PObject "NormalizeForm"; PBool true; PBool false]) as Hb
      by (vm_compute; reflexivity).
    assert (parse_user_args sig_basic (Call [PInt 1] ∅)
            = Ok [PInt 1; PBool false; PObject "NormalizeForm"; PBool true;
                  PBool false]) as Ha by (vm_compute; reflexivity).
    destruct (check_bert_tokenizer_is_union _ _ _ _ _ _ _ _ _ _ _ _ _ _ _ Hb Hw Ha)
      as [_ H].
    rewrite H. by intros (_ & _ & _ & _ & ? & _).
Defined.

(** X8: check_regex_tokenizer passes exactly when delim_pattern and
    keep_delim_pattern are text and with_offsets is boolean; a delim_pattern
    of None raises a ValueError, while a keep_delim_pattern of None raises a
    TypeError like any other value that is not text. *)
Theorem check_regex_tokenizer_contract (sig : signature) (c : call)
    (delim_pattern keep_delim_pattern with_offsets : pyval) :
  parse_user_args sig c = Ok [delim_pattern; keep_delim_pattern; with_offsets] →
  (passes (check_regex_tokenizer_checks sig c)
   ↔ isinstance delim_pattern t_str = true ∧ isinstance keep_delim_pattern t_str = true
     ∧ isinstance with_offsets t_bool = true) ∧
  (delim_pattern = PNone → raises (check_regex_tokenizer_checks sig c) ValueError) ∧
  (delim_pattern ≠ PNone → ¬ passes (check_regex_tokenizer_checks sig c) →
     raises (check_regex_tokenizer_checks sig c) TypeError).
Proof.
  intros Hparse. unfold check_regex_tokenizer_checks. rewrite Hparse, bind_Ok.
  cbv beta iota. split_and!.
  - passes_steps. split; [naive_solver|].
    intros (Hd & ? & ?). split_and!; try done. by destruct delim_pattern.
  - intros ->. apply raises_raise.
  - intros Hn Hnp.
    destruct delim_pattern; try done; try apply raises_raise.
    destruct keep_delim_pattern; try apply raises_raise.
    destruct with_offsets; try apply raises_raise.
    destruct Hnp. apply passes_Ok.
Qed.

Lemma check_regex_tokenizer_contract_witness :
  passes (check_regex_tokenizer_checks sig_regex (Call [PStr "\s+"] ∅)) ∧
  raises (check_regex_tokenizer_checks sig_regex (Call [PNone] ∅)) ValueError ∧
  raises (check_regex_tokenizer_checks sig_regex (Call [PStr "\s+"; PNone] ∅))
    TypeError.
Proof.
  split_and!.
  - assert (parse_user_args sig_regex (Call [PStr "\s+"] ∅)
            = Ok [PStr "\s+"; PStr ""; PBool false]) as Hp by (vm_compute; reflexivity).
    destruct (check_regex_tokenizer_contract _ _ _ _ _ Hp) as (H & _). by apply H.
  - assert (parse_user_args sig_regex (Call [PNone] ∅)
            = Ok [PNone; PStr ""; PBool false]) as Hp by (vm_compute; reflexivity).
    destruct (check_regex_tokenizer_contract _ _ _ _ _ Hp) as (_ & H & _). by apply H.
  - assert (parse_user_args sig_regex (Call [PStr "\s+"; PNone] ∅)
            = Ok [PStr "\s+"; PNone; PBool false]) as Hp by (vm_compute; reflexivity).
    destruct (check_regex_tokenizer_contract _ _ _ _ _ Hp) as (Hiff & _ & H).
    apply H; [done|]. rewrite Hiff. by intros (_ & ? & _).
Defined.

(** X9: check_to_number passes exactly when data_type is a type object
    that is a member of mstype.number_type; every other value raises a
    TypeError, be it no type object at all or a type that is not numeric. *)
Theorem check_to_number_contract (number_type : list string) (sig : signature)
    (c : call) (data_type : pyval) :
  parse_user_args sig c = Ok [data_type] →
  (passes (check_to_number_checks number_type sig c)
   ↔ ∃ name, data_type = PDType name ∧ name ∈ number_type) ∧
  (¬ passes (check_to_number_checks number_type sig c) →
     raises (check_to_number_checks number_type sig c) TypeError).
Proof.
  intros Hparse. unfold check_to_number_checks. rewrite Hparse, bind_Ok.
  cbv beta iota. split.
  - split.
    + destruct data_type as [| | | | | | | |name| | | |];
        try (by intros ?%not_passes_Raise).
      simpl. case_bool_decide; [by exists name|by intros ?%not_passes_Raise].
    + intros (name & -> & Hin). simpl. rewrite bool_decide_eq_true_2 by done.
      apply passes_Ok.
  - intros Hnp. destruct data_type as [| | | | | | | |name| | | |]; try (by eexists).
    simpl in *. case_bool_decide; [|by eexists]. destruct Hnp. apply passes_Ok.
Qed.

Lemma check_to_number_contract_witness :
  passes (check_to_number_checks ["int32"; "float32"] sig_to_number
            (Call [PDType "int32"] ∅)) ∧
  raises (check_to_number_checks ["int32"; "float32"] sig_to_number
            (Call [PDType "string"] ∅)) TypeError ∧
  raises (check_to_number_checks ["int32"; "float32"] sig_to_number
            (Call [PStr "int32"] ∅)) TypeError.
Proof.
  split_and!.
  - assert (parse_user_args sig_to_number (Call [PDType "int32"] ∅)
            = Ok [PDType "int32"]) as Hp by (vm_compute; reflexivity).
    destruct (check_to_number_contract ["int32"; "float32"] _ _ _ Hp) as [H _].
    apply H. exists "int32". split; [done|set_solver].
  - assert (parse_user_args sig_to_number (Call [PDType "string"] ∅)
            = Ok [PDType "string"]) as Hp by (vm_compute; reflexivity).
    destruct (check_to_number_contract ["int32"; "float32"] _ _ _ Hp) as [Hiff H].
    apply H. rewrite Hiff. intros (name & [= <-] & Hin). set_solver.
  - assert (parse_user_args sig_to_number (Call [PStr "int32"] ∅)
            = Ok [PStr "int32"]) as Hp by (vm_compute; reflexivity).
    destruct (check_to_number_contract ["int32"; "float32"] _ _ _ Hp) as [Hiff H].
    apply H. rewrite Hiff. by intros (name & ? & _).
Defined.

(** ** check_from_dataset, in full *)

Lemma from_dataset_columns_passes (columns : pyval) :
  passes (from_dataset_columns columns)
  ↔ columns = PNone ∨ isinstance columns t_list = true
    ∨ isinstance columns t_str = true.
Proof.
  destruct columns; simpl; split;
    try (by intros ?%not_passes_Raise); try (intros _; apply passes_Ok);
    naive_solver.
Qed.

Lemma from_dataset_freq_range_passes (freq_range : pyval) :
  passes (from_dataset_freq_range freq_range)
  ↔ freq_range = PNone
    ∨ ∃ lo hi, freq_range = PTuple [lo; hi]
        ∧ none_or_int lo = true ∧ none_or_int hi = true
        ∧ (∀ a b, as_number lo = Some a → as_number hi = Some b → 0 ≤ a ≤ b).
Proof.
  split.
  - intros Hp. destruct (is_none_dec freq_range) as [|Hn]; [by left|right].
    destruct (isinstance freq_range t_tuple) eqn:Ht; last first.
    { by destruct (raises_not_passes _ _ (freq_range_not_tuple freq_range Hn Ht)). }
    destruct freq_range as [| | | | |items| | | | | | |]; try done.
    destruct (decide (length items = 2%nat)) as [Hlen|Hlen]; last first.
    { rewrite freq_range_wrong_length in Hp by done.
      by destruct (not_passes_Raise _ Hp). }
    destruct items as [|lo [|hi [|]]]; try done.
    exists lo, hi. rewrite freq_range_pair in Hp.
    destruct (none_or_int lo) eqn:Hlo, (none_or_int hi) eqn:Hhi;
      try (by destruct (not_passes_Raise _ Hp)).
    split_and!; [done..|].
    intros a b Ha Hb. rewrite Ha, Hb in Hp. simpl in Hp.
    destruct (Z.ltb_spec b a), (Z.ltb_spec a 0);
      try (by destruct (not_passes_Raise _ Hp)). lia.
  - intros [->|(lo & hi & -> & Hlo & Hhi & Hab)]; [apply passes_Ok|].
    rewrite freq_range_pair, Hlo, Hhi. simpl.
    destruct (as_number lo) as [a|], (as_number hi) as [b|]; try apply passes_Ok.
    specialize (Hab a b eq_refl eq_refl).
    destruct (Z.ltb_spec b a), (Z.ltb_spec a 0); try lia. apply passes_Ok.
Qed.

Lemma from_dataset_top_k_passes (top_k : pyval) :
  passes (type_check top_k [t_int; t_NoneType] (PStr "top_k");;
          if isinstance top_k t_int then check_positive top_k "top_k" else Ok tt)
  ↔ top_k = PNone ∨ ∃ z, top_k = PInt z ∧ 0 < z.
Proof.
  destruct top_k as [| |z| | | | | | | | | |]; simpl; split;
    try (by intros ?%not_passes_Raise); try (intros _; apply passes_Ok);
    try naive_solver.
  - intros Hp. right. exists z. split; [done|].
    unfold check_positive in Hp. simpl in Hp.
    destruct (Z.leb_spec z 0); [by destruct (not_passes_Raise _ Hp)|done].
  - intros [|(z' & [= <-] & Hz)]; [done|].
    rewrite (check_positive_pos (PInt z) z) by done. apply passes_Ok.
Qed.

Lemma from_dataset_rest_passes (top_k special_tokens special_first : pyval) :
  passes (from_dataset_rest top_k special_tokens special_first)
  ↔ (top_k = PNone ∨ ∃ z, top_k = PInt z ∧ 0 < z)
    ∧ isinstance special_first t_bool = true
    ∧ (special_tokens = PNone
       ∨ ∃ ts, special_tokens = PList (PStr <$> ts) ∧ NoDup ts).
Proof.
  unfold from_dataset_rest.
  rewrite <- from_dataset_top_k_passes. passes_steps.
  rewrite (passes_type_check_one _ t_bool) by done. passes_steps.
  rewrite check_unique_list_of_words_passes.
  assert (passes (Ok () : result ())) by apply passes_Ok. naive_solver.
Qed.

(** X10: check_from_dataset passes exactly when columns is None, a list
    (whatever it holds) or text; freq_range is None or a pair of None-or-int
    values with 0 <= low <= high when both are int; top_k is None or a
    positive integer; special_first is boolean; and special_tokens is None
    or a list of text without a repeated entry.  The dataset argument is
    not looked at.  With columns and freq_range accepted, a top_k of 0
    raises a ValueError and a boolean top_k a TypeError. *)
Theorem check_from_dataset_passes (sig : signature) (c : call)
    (dataset columns freq_range top_k special_tokens special_first : pyval) :
  parse_user_args sig c
  = Ok [dataset; columns; freq_range; top_k; special_tokens; special_first] →
  (passes (check_from_dataset_checks sig c)
   ↔ (columns = PNone ∨ isinstance columns t_list = true
      ∨ isinstance columns t_str = true)
     ∧ (freq_range = PNone
        ∨ ∃ lo hi, freq_range = PTuple [lo; hi]
            ∧ none_or_int lo = true ∧ none_or_int hi = true
            ∧ (∀ a b, as_number lo = Some a → as_number hi = Some b → 0 ≤ a ≤ b))
     ∧ (top_k = PNone ∨ ∃ z, top_k = PInt z ∧ 0 < z)
     ∧ isinstance special_first t_bool = true
     ∧ (special_tokens = PNone
        ∨ ∃ ts, special_tokens = PList (PStr <$> ts) ∧ NoDup ts)) ∧
  (passes (from_dataset_columns columns) → passes (from_dataset_freq_range freq_range) →
     (∀ z, top_k = PInt z → z ≤ 0 →
        raises (check_from_dataset_checks sig c) ValueError) ∧
     (∀ b, top_k = PBool b → raises (check_from_dataset_checks sig c) TypeError)).
Proof.
  intros Hparse. unfold check_from_dataset_checks. rewrite Hparse, bind_Ok.
  cbv beta iota. split.
  - passes_steps.
    rewrite from_dataset_columns_passes, from_dataset_freq_range_passes,
      from_dataset_rest_passes. naive_solver.
  - intros [cols ->] [[] ->]. rewrite !bind_Ok. split.
    + intros z -> Hz. unfold from_dataset_rest. simpl.
      destruct (check_positive_nonpos (PInt z) z "top_k" eq_refl Hz) as [msg ->].
      by exists msg.
    + intros b ->. by eexists.
Qed.

Lemma check_from_dataset_passes_witness :
  passes (check_from_dataset_checks sig_from_dataset
            (Call [PObject "Dataset"; PList [PInt 1]; PTuple [PNone; PNone]; PInt 5;
                   PList [PStr "<pad>"]] ∅)) ∧
  raises (check_from_dataset_checks sig_from_dataset
            (Call [PObject "Dataset"; PNone; PNone; PInt 0] ∅)) ValueError ∧
  raises (check_from_dataset_checks sig_from_dataset
            (Call [PObject "Dataset"; PNone; PNone; PBool true] ∅)) TypeError.
Proof.
  split_and!.
  - assert (parse_user_args sig_from_dataset
              (Call [PObject "Dataset"; PList [PInt 1]; PTuple [PNone; PNone]; PInt 5;
                     PList [PStr "<pad>"]] ∅)
            = Ok [PObject "Dataset"; PList [PInt 1]; PTuple [PNone; PNone]; PInt 5;
                  PList (PStr <$> ["<pad>"]); PBool true]) as Hp
      by (vm_compute; reflexivity).
    destruct (check_from_dataset_passes _ _ _ _ _ _ _ _ Hp) as [H _].
    apply H. split_and!.
    + right. by left.
    + right. exists PNone, PNone. split_and!; done.
    + right. exists 5. split; [done|lia].
    + done.
    + right. exists ["<pad>"]. split; [done|]. by apply (bool_decide_unpack _); vm_compute.
  - assert (parse_user_args sig_from_dataset
              (Call [PObject "Dataset"; PNone; PNone; PInt 0] ∅)
            = Ok [PObject "Dataset"; PNone; PNone; PInt 0; PNone; PBool true]) as Hp
      by (vm_compute; reflexivity).
    destruct (check_from_dataset_passes _ _ _ _ _ _ _ _ Hp) as [_ H].
    destruct (H (passes_Ok _) (passes_Ok _)) as [H0 _]. apply (H0 0); [done|lia].
  - assert (parse_user_args sig_from_dataset
              (Call [PObject "Dataset"; PNone; PNone; PBool true] ∅)
            = Ok [PObject "Dataset"; PNone; PNone; PBool true; PNone; PBool true]) as Hp
      by (vm_compute; reflexivity).
    destruct (check_from_dataset_passes _ _ _ _ _ _ _ _ Hp) as [_ H].
    destruct (H (passes_Ok _) (passes_Ok _)) as [_ Hb]. by apply (Hb true).
Defined.

(** ** check_ngram, in full *)

Lemma ngram_loop_inv (grams : list pyval) (i : nat) :
  ngram_loop i grams = Ok tt →
  ∃ zs, grams = PInt <$> zs ∧ Forall (λ z, 0 < z) zs.
Proof.
  revert i. induction grams as [|gram rest IH]; intros i; cbn [ngram_loop].
  - intros _. exists []. split; [done|constructor].
  - intros Hloop. assert (passes (type_check gram [t_int] (PStr ("gram[" ++ pretty i ++ "]"));;
                                  check_positive gram ("gram_" ++ pretty i);;
                                  ngram_loop (S i) rest)) as Hp
      by (rewrite Hloop; apply passes_Ok).
    revert Hp. passes_steps. rewrite passes_type_check_int.
    intros ([z ->] & Hpos & [[] Hrest]).
    destruct (IH _ Hrest) as (zs & -> & Hzs).
    exists (z :: zs). split; [done|]. constructor; [|done].
    unfold check_positive in Hpos. simpl in Hpos.
    destruct (Z.leb_spec z 0); [by destruct (not_passes_Raise _ Hpos)|done].
Qed.

Lemma pad_ok_spec (pad : pyval) :
  is_pad pad = true ∧ pad_width_ok pad = true
  ↔ ∃ token width z, pad = PTuple [PStr token; width]
      ∧ as_number width = Some z ∧ 0 ≤ z.
Proof.
  split.
  - intros [Hp Hw]. destruct pad as [| | | | |l| | | | | | |]; try done.
    destruct l as [|token [|width [|]]]; try done.
    destruct token as [| | |s| | | | | | | | |]; try done.
    simpl in Hp, Hw. destruct (as_number width) as [z|] eqn:Hz; [|done].
    exists s, width, z. split_and!; [done..|]. by apply Z.leb_le.
  - intros (token & width & z & -> & Hz & Hle). simpl. rewrite Hz. split.
    + by destruct width.
    + by apply Z.leb_le.
Qed.

(** X11: check_ngram passes exactly when n is a positive integer or a
    non-empty list of positive integers, left_pad and right_pad are pairs of
    a text and an integer that is not negative, and separator is text.  The
    call it hands over has no positional argument; its keyword n is a
    non-empty list of positive integers, its keywords left_pad, right_pad
    and separator are the values checked, and every other keyword of the
    caller is kept.  A boolean n raises a TypeError. *)
Theorem check_ngram_passes (sig : signature) (c : call)
    (n left_pad right_pad separator : pyval) :
  parse_user_args sig c = Ok [n; left_pad; right_pad; separator] →
  (passes (check_ngram_checks sig c)
   ↔ ((∃ z, n = PInt z ∧ 0 < z)
      ∨ ∃ zs, n = PList (PInt <$> zs) ∧ zs ≠ [] ∧ Forall (λ z, 0 < z) zs)
     ∧ (∃ token width z, left_pad = PTuple [PStr token; width]
          ∧ as_number width = Some z ∧ 0 ≤ z)
     ∧ (∃ token width z, right_pad = PTuple [PStr token; width]
          ∧ as_number width = Some z ∧ 0 ≤ z)
     ∧ isinstance separator t_str = true) ∧
  (∀ c', check_ngram_checks sig c = Ok c' →
     c_args c' = []
     ∧ (∃ zs, c_kwargs c' !! "n" = Some (PList (PInt <$> zs))
          ∧ zs ≠ [] ∧ Forall (λ z, 0 < z) zs
          ∧ (n = PList (PInt <$> zs) ∨ n :: [] = PInt <$> zs))
     ∧ c_kwargs c' !! "left_pad" = Some left_pad
     ∧ c_kwargs c' !! "right_pad" = Some right_pad
     ∧ c_kwargs c' !! "separator" = Some separator
     ∧ ∀ k, k ∉ ["n"; "left_pad"; "right_pad"; "separator"] →
         c_kwargs c' !! k = c_kwargs c !! k) ∧
  (∀ b, n = PBool b → raises (check_ngram_checks sig c) TypeError).
Proof.
  intros Hparse.
  assert (∀ c', check_ngram_checks sig c = Ok c' →
            ∃ zs, (if isinstance n t_int then PList [n] else n) = PList (PInt <$> zs)
              ∧ zs ≠ [] ∧ Forall (λ z, 0 < z) zs
              ∧ (is_pad left_pad = true ∧ pad_width_ok left_pad = true)
              ∧ (is_pad right_pad = true ∧ pad_width_ok right_pad = true)
              ∧ isinstance separator t_str = true
              ∧ c' = Call [] (ngram_kwargs (c_kwargs c) (PList (PInt <$> zs))
                                left_pad right_pad separator)) as Hinv.
  { intros c' Hc. destruct (check_ngram_checks_inv _ _ _ Hc)
      as (n0 & lp & rp & sep & grams & Hp & Hn & Hne & Hloop & Hl & Hr & Hw & Hs & ->).
    rewrite Hparse in Hp. injection Hp as <- <- <- <-.
    destruct (ngram_loop_inv _ _ Hloop) as (zs & -> & Hzs).
    apply andb_true_iff in Hw as [Hlw Hrw].
    exists zs. split_and!; try done.
    - by intros ->.
    - apply (passes_type_check_one _ t_str (PStr "separator")); [done|].
      rewrite Hs. apply passes_Ok. }
  split_and!.
  - split.
    + intros [c' Hc]. destruct (Hinv c' Hc) as (zs & Hn & Hne & Hzs & Hl & Hr & Hs & _).
      apply pad_ok_spec in Hl, Hr. split_and!; try done.
      destruct n; simpl in Hn; try done.
      * by destruct zs as [|z' [|]].
      * destruct zs as [|z' [|]]; try done. injection Hn as [= ->].
        left. exists z'. split; [done|]. by apply Forall_cons in Hzs as [? _].
      * injection Hn as ->. right. by exists zs.
    + intros (Hn & Hl%pad_ok_spec & Hr%pad_ok_spec & [s ->]%isinstance_str).
      destruct Hl as [Hl Hlw], Hr as [Hr Hrw].
      assert (∃ zs, (if isinstance n t_int then PList [n] else n) = PList (PInt <$> zs)
                ∧ zs ≠ [] ∧ Forall (λ z, 0 < z) zs) as (zs & Hzs & Hne & Hpos).
      { destruct Hn as [(z & -> & Hz)|(zs & -> & Hne & Hpos)].
        - exists [z]. split_and!; [done..|]. by repeat constructor.
        - by exists zs. }
      rewrite (check_ngram_checks_grams _ _ _ _ _ _ zs Hparse Hzs Hne Hpos).
      rewrite Hl, Hr, Hlw, Hrw. apply passes_Ok.
  - intros c' Hc. destruct (Hinv c' Hc) as (zs & Hn & Hne & Hzs & _ & _ & _ & ->).
    destruct (ngram_kwargs_lookup (c_kwargs c) (PList (PInt <$> zs))
                left_pad right_pad separator) as (Hk1 & Hk2 & Hk3 & Hk4).
    split_and!; try done.
    + exists zs. split_and!; try done.
      destruct (isinstance n t_int); [right|left]; congruence.
    + intros k Hk. unfold ngram_kwargs. simpl.
      assert (k ≠ "n" ∧ k ≠ "left_pad" ∧ k ≠ "right_pad" ∧ k ≠ "separator")
        as (? & ? & ? & ?) by set_solver.
      by rewrite !lookup_insert_ne by done.
  - intros b ->. unfold check_ngram_checks. rewrite Hparse, bind_Ok. by eexists.
Qed.

Lemma check_ngram_passes_witness :
  passes (check_ngram_checks sig_ngram
            (Call [PList [PInt 1; PInt 2]; PTuple [PStr "<s>"; PInt 2]] ∅)) ∧
  (∃ c', check_ngram_checks sig_ngram (Call [PInt 3] ∅) = Ok c'
         ∧ c_args c' = [] ∧ c_kwargs c' !! "separator" = Some (PStr " ")) ∧
  raises (check_ngram_checks sig_ngram (Call [PBool true] ∅)) TypeError.
Proof.
  split_and!.
  - assert (parse_user_args sig_ngram
              (Call [PList [PInt 1; PInt 2]; PTuple [PStr "<s>"; PInt 2]] ∅)
            = Ok [PList (PInt <$> [1; 2]); PTuple [PStr "<s>"; PInt 2];
                  PTuple [PStr ""; PInt 0]; PStr " "]) as Hp
      by (vm_compute; reflexivity).
    destruct (check_ngram_passes _ _ _ _ _ _ Hp) as (H & _ & _).
    apply H. split_and!.
    + right. exists [1; 2]. split_and!; [done..|]. repeat constructor; lia.
    + exists "<s>", (PInt 2), 2. split_and!; [done..|lia].
    + exists "", (PInt 0), 0. split_and!; [done..|lia].
    + done.
  - assert (parse_user_args sig_ngram (Call [PInt 3] ∅)
            = Ok [PInt 3; PTuple [PStr ""; PInt 0]; PTuple [PStr ""; PInt 0]; PStr " "])
      as Hp by (vm_compute; reflexivity).
    destruct (check_ngram_passes _ _ _ _ _ _ Hp) as (_ & H & _).
    assert (∃ c', check_ngram_checks sig_ngram (Call [PInt 3] ∅) = Ok c') as [c' Hc]
      by (eexists; vm_compute; reflexivity).
    exists c'. destruct (H c' Hc) as (Ha & _ & _ & _ & Hs & _). done.
  - assert (parse_user_args sig_ngram (Call [PBool true] ∅)
            = Ok [PBool true; PTuple [PStr ""; PInt 0]; PTuple [PStr ""; PInt 0];
                  PStr " "]) as Hp by (vm_compute; reflexivity).
    destruct (check_ngram_passes _ _ _ _ _ _ Hp) as (_ & _ & H). by apply (H true).
Defined.

(** ** Every checker: what is handed over, and how a checker fails *)

Lemma forwards_mret (c : call) : forwards c (mret c).
Proof. by intros c' [= <-]. Qed.

Lemma forwards_Raise (c : call) (e : exn) : forwards c (Raise e).
Proof. by intros c'. Qed.

Lemma forwards_bind {A} (c : call) (m : result A) (k : A → result call) :
  (∀ a, forwards c (k a)) → forwards c (m ≫= k).
Proof. intros Hk. destruct m as [a|e]; [apply Hk|apply forwards_Raise]. Qed.

Ltac unfold_checks :=
  unfold check_lookup_checks, check_from_file_checks, check_from_list_checks,
    check_from_dict_checks, check_jieba_init_checks, check_jieba_add_word_checks,
    check_jieba_add_dict_checks, check_with_offsets_checks,
    check_unicode_script_tokenizer_checks, check_wordpiece_tokenizer_checks,
    check_regex_tokenizer_checks, check_basic_tokenizer_checks,
    check_bert_tokenizer_checks, check_from_dataset_checks, check_ngram_checks,
    check_pair_truncate_checks, check_to_number_checks,
    check_python_tokenizer_checks.

Ltac forwards_steps :=
  repeat first
    [ apply forwards_mret
    | apply forwards_Raise
    | apply forwards_bind; intros ?
    | match goal with
      | |- forwards _ (match ?x with _ => _ end) => destruct x
      end ].

(** X12: every checker but check_ngram hands the wrapped operation the
    caller's own call, positional and keyword arguments untouched, whenever
    its checks pass; check_ngram does not when the caller gave positional
    arguments. *)
Theorem guards_forward_verbatim :
  (∀ (number_type : list string) (W R : Type) (g : guard_entry W R),
     g ∈ all_guards number_type W R → g_name g ≠ "check_ngram" →
     (∀ sig c c', g_checks g sig c = Ok c' → c' = c) ∧
     (∀ (method : method_t W R) (c : call) (w : W),
        passes (g_checks g (m_sig method) c) →
        g_wrapper g method c w = m_run method c w)) ∧
  (∀ sig c c', check_ngram_checks sig c = Ok c' → c_args c ≠ [] → c' ≠ c).
Proof.
  split.
  - intros number_type W R g Hg Hname.
    assert (∀ sig c, forwards c (g_checks g sig c)) as Hfw.
    { intros sig c. unfold all_guards in Hg.
      repeat (apply elem_of_cons in Hg as [->|Hg];
              [try done; simpl g_checks; unfold_checks;
               unfold unpack_error, raise; forwards_steps|]).
      by apply elem_of_nil in Hg. }
    split; [intros sig c c' Hc; exact (Hfw sig c c' Hc)|].
    intros method c w [c' Hc]. rewrite (all_guards_wrapper _ _ _ _ Hg).
    unfold guarded. rewrite Hc. by rewrite (Hfw _ _ c' Hc).
  - intros sig c c' Hc Hargs ->.
    destruct (check_ngram_checks_inv _ _ _ Hc) as (? & ? & ? & ? & ? & _ & _ & _ & _ & _ & _ & _ & _ & Heq).
    apply Hargs. by rewrite Heq.
Qed.

Lemma guards_forward_verbatim_witness :
  check_lookup (logging sig_lookup) (Call [PVocab] {["unknown_token" := PStr "<unk>"]}) []
  = (Ok tt, [Call [PVocab] {["unknown_token" := PStr "<unk>"]}]) ∧
  ∀ c', check_ngram_checks sig_ngram (Call [PInt 3] ∅) = Ok c' → c' ≠ Call [PInt 3] ∅.
Proof.
  destruct guards_forward_verbatim as [Hfw Hng]. split.
  - destruct (Hfw [] (list call) unit
                (GuardEntry "check_lookup" check_lookup_checks check_lookup)
                ltac:(unfold all_guards; set_solver) ltac:(done)) as [_ H].
    apply (H (logging sig_lookup)). vm_compute. by eexists.
  - intros c' Hc. by apply (Hng _ _ _ Hc).
Defined.

Lemma typed_failure_Ok {A} (a : A) : typed_failure (Ok a).
Proof. by intros e. Qed.

Lemma typed_failure_TypeError {A} (msg : string) : typed_failure (@raise A TypeError msg).
Proof. intros e [= <-]. by left. Qed.

Lemma typed_failure_ValueError {A} (msg : string) : typed_failure (@raise A ValueError msg).
Proof. intros e [= <-]. by right. Qed.

Lemma typed_failure_bind {A B} (m : result A) (k : A → result B) :
  typed_failure m → (∀ a, typed_failure (k a)) → typed_failure (m ≫= k).
Proof.
  intros Hm Hk. destruct m as [a|e]; [apply Hk|]. intros e' [= <-]. by apply Hm.
Qed.

Lemma typed_failure_when (cond : bool) (body : result unit) :
  typed_failure body → typed_failure (when cond body).
Proof. intros Hb. destruct cond; [done|apply typed_failure_Ok]. Qed.

Lemma typed_failure_type_check (arg : pyval) (types : list pytype) (name : pyval) :
  typed_failure (type_check arg types name).
Proof.
  unfold type_check. destruct (_ || _);
    [apply typed_failure_TypeError|apply typed_failure_Ok].
Qed.

Create HintDb typed_failure.

#[local] Hint Resolve typed_failure_Ok typed_failure_TypeError typed_failure_ValueError
  typed_failure_type_check : typed_failure.

Ltac typed_failure_steps :=
  repeat first
    [ solve [auto with typed_failure]
    | apply typed_failure_bind; [|intros ?]
    | apply typed_failure_when
    | match goal with
      | |- typed_failure (match ?x with _ => _ end) => destruct x
      | |- typed_failure (let _ := _ in _) => cbv zeta
      end ].

Lemma typed_failure_type_check_list (args : list pyval) (types : list pytype)
    (names : list string) :
  typed_failure (type_check_list args types names).
Proof.
  revert names. induction args as [|arg args IH]; intros [|name names];
    cbn [type_check_list]; typed_failure_steps.
Qed.

Lemma typed_failure_check_value (value : pyval) (range : Z * Z) (name : string) :
  typed_failure (check_value value range name).
Proof. unfold check_value. typed_failure_steps. Qed.

Lemma typed_failure_check_positive (value : pyval) (name : string) :
  typed_failure (check_positive value name).
Proof. unfold check_positive. typed_failure_steps. Qed.

#[local] Hint Resolve typed_failure_type_check_list typed_failure_check_value
  typed_failure_check_positive : typed_failure.

Lemma typed_failure_check_uint32 (value : pyval) (name : string) :
  typed_failure (check_uint32 value name).
Proof. unfold check_uint32. typed_failure_steps. Qed.

Lemma typed_failure_unique_words_loop (words : list pyval) (name : string)
    (acc : gset string) :
  typed_failure (unique_words_loop words name acc).
Proof.
  revert acc. induction words as [|word rest IH]; intros acc;
    cbn [unique_words_loop]; typed_failure_steps.
Qed.

#[local] Hint Resolve typed_failure_check_uint32 typed_failure_unique_words_loop
  : typed_failure.

Lemma typed_failure_check_unique_list_of_words (words : pyval) (name : string) :
  typed_failure (check_unique_list_of_words words name).
Proof. unfold check_unique_list_of_words. typed_failure_steps. Qed.

Lemma typed_failure_from_dict_loop (items : list (pyval * pyval)) :
  typed_failure (from_dict_loop items).
Proof.
  induction items as [|[word word_id] rest IH]; cbn [from_dict_loop];
    typed_failure_steps.
Qed.

Lemma typed_failure_freq_range_loop (items : list pyval) :
  typed_failure (freq_range_loop items).
Proof.
  induction items as [|num rest IH]; cbn [freq_range_loop]; typed_failure_steps.
Qed.

Lemma typed_failure_ngram_loop (grams : list pyval) (i : nat) :
  typed_failure (ngram_loop i grams).
Proof.
  revert i. induction grams as [|gram rest IH]; intros i; cbn [ngram_loop];
    typed_failure_steps.
Qed.

#[local] Hint Resolve typed_failure_check_unique_list_of_words
  typed_failure_from_dict_loop typed_failure_freq_range_loop
  typed_failure_ngram_loop : typed_failure.

Lemma typed_failure_from_dataset_columns (columns : pyval) :
  typed_failure (from_dataset_columns columns).
Proof. unfold from_dataset_columns. typed_failure_steps. Qed.

Lemma typed_failure_from_dataset_freq_range (freq_range : pyval) :
  typed_failure (from_dataset_freq_range freq_range).
Proof. unfold from_dataset_freq_range. typed_failure_steps. Qed.

Lemma typed_failure_from_dataset_rest (top_k special_tokens special_first : pyval) :
  typed_failure (from_dataset_rest top_k special_tokens special_first).
Proof. unfold from_dataset_rest. typed_failure_steps. Qed.

#[local] Hint Resolve typed_failure_from_dataset_columns
  typed_failure_from_dataset_freq_range typed_failure_from_dataset_rest
  : typed_failure.

(** X13: in every checker, a failure to bind the arguments to the declared
    parameters is raised as it is, before any check; and once the arguments
    bind, a checker fails with a TypeError or a ValueError only. *)
Theorem guards_failure_kinds :
  ∀ (number_type : list string) (W R : Type) (g : guard_entry W R),
    g ∈ all_guards number_type W R →
    ∀ (sig : signature) (c : call),
      (∀ e, parse_user_args sig c = Raise e → g_checks g sig c = Raise e) ∧
      (passes (parse_user_args sig c) → typed_failure (g_checks g sig c)).
Proof.
  intros number_type W R g Hg sig c. unfold all_guards in Hg.
  repeat (apply elem_of_cons in Hg as [->|Hg];
          [simpl g_checks; unfold_checks; split;
           [by intros e -> | intros [vals ->]; rewrite bind_Ok;
                             unfold unpack_error; typed_failure_steps]|]).
  by apply elem_of_nil in Hg.
Qed.

Lemma guards_failure_kinds_witness :
  check_regex_tokenizer_checks sig_regex (Call [] ∅)
  = Raise (Exn ArityViolation "missing a required argument: 'delim_pattern'") ∧
  typed_failure (check_regex_tokenizer_checks sig_regex (Call [PInt 1] ∅)).
Proof.
  pose proof (guards_failure_kinds [] unit unit
                (GuardEntry "check_regex_tokenizer" check_regex_tokenizer_checks
                   check_regex_tokenizer)
                ltac:(unfold all_guards; set_solver)) as H.
  split.
  - apply (H sig_regex (Call [] ∅)). vm_compute. reflexivity.
  - apply (H sig_regex (Call [PInt 1] ∅)). vm_compute. by eexists.
Defined.

(** ** The checkers of one or two flags and of the tokenizer function *)



